(** * The Saweria donation relay: webhook ingest, queue and leaderboard

    A shallow embedding of the two server variants of the repository:
    - [Durable]  : [src/server.js], the SQLite-backed server;
    - [Memory]   : the in-memory server (queue array plus leaderboard
                   object).
    Both share the field extraction of the [/saweria] handler, which lives
    in [Ingest], on top of a small model of JavaScript values in [Js].

    Modelling conventions.
    - Numbers are IEEE 754 binary64 values, as [spec_float] of the
      Standard Library with 53 bits of precision: finite values, the two
      zeros, the two infinities and [NaN]. Parsing and addition round to
      nearest, ties to even; printing follows [Number::toString].
    - SQLite stores a bound number as an INTEGER when it is integral and
      fits 64 bits, as a REAL otherwise, and adds INTEGERs exactly.
    - Strings are sequences of code units below 256.
    - [Date.now()], [new Date().toISOString()] and [generateDonationId()]
      read the environment: their results are arguments of the handlers.
      A clock reading is an integer number of milliseconds, which a
      double holds exactly. *)

From Stdlib Require Import ZArith Ascii String List Lia Sorted SpecFloat.
From stdpp Require Import gmap strings list fin_maps pretty sorting.

Local Open Scope string_scope.
Local Open Scope list_scope.
Local Open Scope Z_scope.

Set Warnings "-register-all".

(* ===================================================================== *)
(** ** JavaScript values                                                   *)
(* ===================================================================== *)

Module Js.

(** A Number: [S754_zero s], [S754_infinity s], [S754_nan] or
    [S754_finite s m e], the value [m * 2^e] with sign [s]. A finite
    double has its mantissa [m] below [2^53] and its exponent [e] between
    -1074 and 971, with [m] at least [2^52] unless [e] is -1074. *)
Definition JsNum : Type := spec_float.

Definition prec : Z := 53.
Definition emax : Z := 1024.

Definition NaN : JsNum := S754_nan.

(** The Number for the integer [z]: the double nearest to it, ties to
    even, and an infinity when [z] is beyond the range of doubles. *)
Definition of_Z (z : Z) : JsNum := binary_normalize prec emax z 0 false.

(** [a + b] on Numbers. *)
Definition add (a b : JsNum) : JsNum := SFadd prec emax a b.

Definition is_nan (n : JsNum) : bool :=
  match n with S754_nan => true | _ => false end.

Definition is_infinite (n : JsNum) : bool :=
  match n with S754_infinity _ => true | _ => false end.


(** The integers that every double arithmetic step keeps exact: those
    below [2^53] in magnitude ([Number.MAX_SAFE_INTEGER] is [2^53 - 1]). *)
Definition safe (z : Z) : Prop := Z.abs z < 2 ^ 53.

(** The integer a Number stands for, when it is finite and integral. *)
Definition integerValue (n : JsNum) : option Z :=
  match n with
  | S754_zero _ => Some 0
  | S754_finite s m e =>
      let sign := if s then -1 else 1 in
      if Z.leb 0 e then Some (sign * (Zpos m * 2 ^ e))
      else if Z.eqb (Zpos m mod 2 ^ (- e)) 0 then Some (sign * (Zpos m / 2 ^ (- e)))
      else None
  | _ => None
  end.

(** The values a parsed request body is made of, plus [undefined]. An
    object is the list of its own properties; a property listed twice is
    read at its first occurrence. *)
Inductive JsValue : Type :=
| JUndefined
| JNull
| JBool (b : bool)
| JNum (n : JsNum)
| JStr (s : string)
| JArr (items : list JsValue)
| JObj (fields : list (string * JsValue)).

(** Exceptions, by the constructor of the thrown error. *)
Inductive JsError : Type :=
| TypeError
| RangeError
| SqliteError.

(** A computation that returns or throws. *)
Inductive result (A : Type) : Type :=
| Ok (a : A)
| Throw (e : JsError).
Arguments Ok {A} a.
Arguments Throw {A} e.

Definition bind {A B : Type} (m : result A) (k : A -> result B) : result B :=
  match m with
  | Ok a => k a
  | Throw e => Throw e
  end.

Declare Scope js_scope.
Delimit Scope js_scope with js.
Notation "x <- m ;; k" := (bind m (fun x => k))
  (at level 100, m at next level, right associativity) : js_scope.

(** [ToBoolean]. A Number is falsy when it is [NaN], [+0] or [-0]. *)
Class Truthy (A : Type) := truthy : A -> bool.

#[export] Instance truthy_num : Truthy JsNum := fun n =>
  match n with
  | S754_nan | S754_zero _ => false
  | _ => true
  end.

#[export] Instance truthy_value : Truthy JsValue := fun v =>
  match v with
  | JUndefined | JNull => false
  | JBool b => b
  | JNum n => truthy n
  | JStr s => negb (String.eqb s "")
  | JArr _ | JObj _ => true
  end.

(** [a || b]: the left operand when it is truthy, else the right one; an
    exception in the left operand propagates, and the right operand is not
    evaluated after a truthy left one. *)
Definition or_else {A : Type} `{Truthy A} (a b : result A) : result A :=
  match a with
  | Ok v => if truthy v then Ok v else b
  | Throw e => Throw e
  end.

Notation "a ||| b" := (or_else a b) (at level 50, left associativity) : js_scope.

(** An operand that does not throw and is falsy. *)
Definition falsy {A : Type} `{Truthy A} (x : result A) : Prop :=
  exists v, x = Ok v /\ truthy v = false.

(** Own-property lookup in a property list. *)
Fixpoint lookup_field (k : string) (fields : list (string * JsValue)) : option JsValue :=
  match fields with
  | [] => None
  | (k', v) :: rest => if String.eqb k k' then Some v else lookup_field k rest
  end.

(** [data.k] for the property names the handlers read. None of them is a
    property of [Object.prototype], [Array.prototype] or of a primitive's
    wrapper, so only own properties of an object count; reading a property
    of [undefined] or [null] throws. *)
Definition get (data : JsValue) (k : string) : result JsValue :=
  match data with
  | JUndefined | JNull => Throw TypeError
  | JObj fields => Ok (default JUndefined (lookup_field k fields))
  | _ => Ok JUndefined
  end.

(** *** [Number::toString]

    For a finite non-zero double of absolute value [x = m * 2^e],
    [Number::toString] takes the integers [s], [k] and [n] with
    [10^(k-1) <= s < 10^k] such that [s * 10^(n-k)] rounds to [x] and [k]
    is least, then the [s] closest to [x]; it prints the [k] digits of
    [s] with a point or zeros when [-6 < n <= 21], and in exponent
    notation otherwise. All comparisons below are between integers: both
    sides are multiplied by the powers of 2 and 10 that have a negative
    exponent. *)

Definition pos_part (z : Z) : Z := Z.max z 0.
Definition neg_part (z : Z) : Z := Z.max (- z) 0.

(** [10^j <= m * 2^e] *)
Definition pow10_le (j : Z) (m : positive) (e : Z) : bool :=
  Z.leb (10 ^ pos_part j * 2 ^ neg_part e) (Zpos m * 2 ^ pos_part e * 10 ^ neg_part j).

(** The [n0] with [10^(n0-1) <= m * 2^e < 10^n0]. The number of bits of
    [m * 2^e], times [log 2 / log 10] (about 1233/4096), is within one of
    [n0 - 1]; the comparisons settle it. *)
Definition decimalExponent (m : positive) (e : Z) : Z :=
  let est := (Zpos (digits2_pos m) + e - 1) * 1233 / 4096 in
  match List.find (fun j => pow10_le j m e) [est + 2; est + 1; est; est - 1] with
  | Some j => j + 1
  | None => est - 1
  end.

(** The [k]-digit decimal [s * 10^(n0-k)] that rounds to [m * 2^e], if
    there is one: of the two that enclose it, [lo] below and [hi = lo + 1]
    above, the one inside the rounding interval of the double, the closer
    when both are, the even one on a tie. The interval reaches half way
    to the next double on either side (a quarter of the gap above on the
    lower side when [m] is [2^52], where the gap halves), and includes
    its ends when [m] is even. *)
Definition candidate (m : positive) (e : Z) (n0 k : Z) : option Z :=
  let p := n0 - k in
  let num := Zpos m * 2 ^ pos_part e * 10 ^ neg_part p in
  let den := 2 ^ neg_part e * 10 ^ pos_part p in
  let lo := num / den in
  let hi := lo + 1 in
  let below := if Pos.eqb m (2 ^ 52) && Z.ltb (-1074) e then 1 else 2 in
  let inside (s : Z) :=
    let c := s * den * (4 * Zpos m) in
    let l := num * (4 * Zpos m - below) in
    let h := num * (4 * Zpos m + 2) in
    if Z.even (Zpos m) then Z.leb l c && Z.leb c h else Z.ltb l c && Z.ltb c h in
  let dlo := num - lo * den in
  let dhi := hi * den - num in
  match inside lo, inside hi with
  | true, true =>
      Some (if Z.ltb dlo dhi then lo else if Z.ltb dhi dlo then hi
            else if Z.even lo then lo else hi)
  | true, false => Some lo
  | false, true => Some hi
  | false, false => None
  end.

(** The first [k] of [ks] that has a candidate. When the candidate is
    [10^k], the decimal is the power of ten [10^n0]: one digit, one place
    further left. Seventeen digits identify any double. *)
Fixpoint shortest_from (m : positive) (e : Z) (n0 : Z) (ks : list Z) : Z * Z * Z :=
  match ks with
  | [] => (Zpos m, 17, n0)
  | k :: rest =>
      match candidate m e n0 k with
      | Some s => if Z.eqb s (10 ^ k) then (1, 1, n0 + 1) else (s, k, n0)
      | None => shortest_from m e n0 rest
      end
  end.

(** [(s, k, n)] for the double [m * 2^e]. *)
Definition shortest (m : positive) (e : Z) : Z * Z * Z :=
  shortest_from m e (decimalExponent m e) (List.map Z.of_nat (seq 1 17)).

Fixpoint zeros (n : nat) : string :=
  match n with
  | O => ""
  | S n' => String "0" (zeros n')
  end.

Definition formatDecimal (s k n : Z) : string :=
  let ds := pretty (Z.to_N s) in
  if Z.leb k n && Z.leb n 21 then ds +:+ zeros (Z.to_nat (n - k))
  else if Z.ltb 0 n && Z.leb n 21
  then substring 0 (Z.to_nat n) ds +:+ "." +:+ substring (Z.to_nat n) (Z.to_nat (k - n)) ds
  else if Z.ltb (-6) n && Z.leb n 0 then "0." +:+ zeros (Z.to_nat (- n)) +:+ ds
  else
    let mant := if Z.eqb k 1 then ds
                else substring 0 1 ds +:+ "." +:+ substring 1 (Z.to_nat (k - 1)) ds in
    mant +:+ "e" +:+ (if Z.ltb (n - 1) 0 then "-" else "+") +:+ pretty (Z.abs_N (n - 1)).

Definition NumberToString (x : JsNum) : string :=
  match x with
  | S754_nan => "NaN"
  | S754_zero _ => "0"
  | S754_infinity false => "Infinity"
  | S754_infinity true => "-Infinity"
  | S754_finite sign m e =>
      let '(s, k, n) := shortest m e in
      (if sign then "-" else "") +:+ formatDecimal s k n
  end.

(** [ToString]. An object of a parsed body has no callable property of its
    own: with an own [toString] property neither it nor [valueOf] yields a
    primitive and the conversion throws; without one the inherited
    [Object.prototype.toString] answers. An array joins its elements with
    commas, [undefined] and [null] elements printing as the empty string. *)
Fixpoint ToString (v : JsValue) : result string :=
  match v with
  | JUndefined => Ok "undefined"
  | JNull => Ok "null"
  | JBool true => Ok "true"
  | JBool false => Ok "false"
  | JNum n => Ok (NumberToString n)
  | JStr s => Ok s
  | JArr items =>
      (fix join (l : list JsValue) : result string :=
         match l with
         | [] => Ok ""
         | x :: rest =>
             (s <- match x with
                   | JUndefined | JNull => Ok ""
                   | _ => ToString x
                   end ;;
              match rest with
              | [] => Ok s
              | _ => (t <- join rest ;; Ok (s +:+ "," +:+ t))
              end)%js
         end) items
  | JObj fields =>
      match lookup_field "toString" fields with
      | Some _ => Throw TypeError
      | None => Ok "[object Object]"
      end
  end.

(** White space skipped by [parseInt]: TAB, LF, VT, FF, CR, SP, NBSP. *)
Definition isWhiteSpace (c : ascii) : bool :=
  let n := nat_of_ascii c in
  existsb (Nat.eqb n) [9; 10; 11; 12; 13; 32; 160]%nat.

Fixpoint trimStart (s : string) : string :=
  match s with
  | String c rest => if isWhiteSpace c then trimStart rest else s
  | EmptyString => s
  end.

(** The value of a character as a digit, in radix up to 36. *)
Definition digitValue (c : ascii) : option Z :=
  let n := Z.of_nat (nat_of_ascii c) in
  if Z.leb 48 n && Z.leb n 57 then Some (n - 48)
  else if Z.leb 97 n && Z.leb n 122 then Some (n - 87)
  else if Z.leb 65 n && Z.leb n 90 then Some (n - 55)
  else None.

(** The longest prefix of radix-[R] digits, read as an integer; [None]
    when that prefix is empty. *)
Fixpoint parseDigits (R : Z) (s : string) (acc : option Z) : option Z :=
  match s with
  | String c rest =>
      match digitValue c with
      | Some d => if Z.ltb d R then parseDigits R rest (Some (R * default 0 acc + d)) else acc
      | None => acc
      end
  | EmptyString => acc
  end.

(** [parseInt(string)] with no radix argument: leading white space, an
    optional sign, an optional [0x]/[0X] prefix selecting radix 16, then
    digits; anything after the digits is ignored. The digits are read as
    an integer, of which the result is the nearest Number, as Node
    computes it from all the digits (the standard lets an implementation
    read the decimal digits after the 20th as zeros); no digit gives
    [NaN], and a zero keeps the sign. *)
Definition parseIntString (input : string) : JsNum :=
  let s := trimStart input in
  let '(sign, s) :=
    match s with
    | String "-" rest => (-1, rest)
    | String "+" rest => (1, rest)
    | _ => (1, s)
    end in
  let '(R, s) :=
    match s with
    | String "0" (String "x" rest) => (16, rest)
    | String "0" (String "X" rest) => (16, rest)
    | _ => (10, s)
    end in
  match parseDigits R s None with
  | None => NaN
  | Some m => if Z.eqb m 0 then S754_zero (Z.ltb sign 0) else of_Z (sign * m)
  end.

(** [parseInt(v)]: [ToString] first, which may throw. *)
Definition parseInt (v : JsValue) : result JsNum :=
  (s <- ToString v ;; Ok (parseIntString s))%js.

(** The string does not start with a decimal digit. *)
Definition stops_digits (s : string) : bool :=
  match s with
  | EmptyString => true
  | String c _ =>
      match digitValue c with
      | Some d => Z.leb 10 d
      | None => true
      end
  end.

(** The string does not start with [x] or [X]. *)
Definition no_hex_mark (s : string) : bool :=
  match s with
  | String "x" _ | String "X" _ => false
  | _ => true
  end.

(** Structural equality of Numbers. *)
Definition num_eqb (a b : JsNum) : bool :=
  match a, b with
  | S754_zero s, S754_zero s' => Bool.eqb s s'
  | S754_infinity s, S754_infinity s' => Bool.eqb s s'
  | S754_nan, S754_nan => true
  | S754_finite s m e, S754_finite s' m' e' => Bool.eqb s s' && Pos.eqb m m' && Z.eqb e e'
  | _, _ => false
  end.

(** The safe integers as doubles. [shl q n] is [q * 2^n]; the double of a
    positive [q] below [2^53] has the mantissa [q] shifted up to 53 bits
    and the matching negative exponent. *)
Definition shl (q : positive) (n : nat) : positive := Nat.iter n xO q.

Definition canon (s : bool) (q : positive) : JsNum :=
  S754_finite s (shl q (Z.to_nat (53 - Zpos (digits2_pos q)))) (Zpos (digits2_pos q) - 53).

Definition exact_record (m : positive) : shr_record :=
  {| shr_m := Zpos m; shr_r := false; shr_s := false |}.

End Js.

Import Js.
Local Open Scope js_scope.

(* ===================================================================== *)
(** ** Field extraction of the [/saweria] handler (both variants)         *)
(* ===================================================================== *)

Module Ingest.

(** [const username = data.donatur_name || ... || 'Anonymous'] *)
Definition username (data : JsValue) : result JsValue :=
  get data "donatur_name" |||
  get data "donator_name" |||
  get data "supporter_name" |||
  get data "supporter" |||
  get data "name" |||
  get data "username" |||
  Ok (JStr "Anonymous").

(** [parseInt(data.k)] *)
Definition parsed (data : JsValue) (k : string) : result JsNum :=
  v <- get data k ;; parseInt v.

(** [const amount = parseInt(data.amount_raw) || ... || 0] *)
Definition amount (data : JsValue) : result JsNum :=
  parsed data "amount_raw" |||
  parsed data "amount" |||
  parsed data "nominal" |||
  parsed data "donation" |||
  Ok (of_Z 0).

(** [const message = data.message || ... || ''] *)
Definition message (data : JsValue) : result JsValue :=
  get data "message" |||
  get data "pesan" |||
  get data "note" |||
  get data "comment" |||
  Ok (JStr "").

(** The alias fields of each attribute, in the order the handler reads
    them. *)
Definition username_aliases : list string :=
  ["donatur_name"; "donator_name"; "supporter_name"; "supporter"; "name"; "username"].
Definition amount_aliases : list string :=
  ["amount_raw"; "amount"; "nominal"; "donation"].
Definition message_aliases : list string :=
  ["message"; "pesan"; "note"; "comment"].

(** The three values the handler extracts, in the order it computes them:
    the first exception aborts the rest. *)
Record Fields : Type := {
  f_username : JsValue;
  f_amount : JsNum;
  f_message : JsValue
}.

Definition extract (data : JsValue) : result Fields :=
  u <- username data ;;
  a <- amount data ;;
  m <- message data ;;
  Ok {| f_username := u; f_amount := a; f_message := m |}.

(** A chain [x1 || x2 || ... || fallback] over a list of operands. *)
Fixpoint first_truthy {A : Type} `{Truthy A} (xs : list (result A)) (fallback : result A)
  : result A :=
  match xs with
  | [] => fallback
  | x :: rest => or_else x (first_truthy rest fallback)
  end.

(** The three attributes side by side, so that one statement can speak of
    all of them. [read attr data k] is the operand that alias [k]
    contributes to the chain of [attr]; [extracted attr data] is the value
    of the whole chain. The amount is shown as a [JsValue] here. *)
Inductive Attribute : Type := Username | Amount | Message.

Definition aliases (attr : Attribute) : list string :=
  match attr with
  | Username => username_aliases
  | Amount => amount_aliases
  | Message => message_aliases
  end.

Definition fallback (attr : Attribute) : JsValue :=
  match attr with
  | Username => JStr "Anonymous"
  | Amount => JNum (of_Z 0)
  | Message => JStr ""
  end.

Definition read (attr : Attribute) (data : JsValue) (k : string) : result JsValue :=
  match attr with
  | Amount => n <- parsed data k ;; Ok (JNum n)
  | _ => get data k
  end.

Definition extracted (attr : Attribute) (data : JsValue) : result JsValue :=
  match attr with
  | Username => username data
  | Amount => n <- amount data ;; Ok (JNum n)
  | Message => message data
  end.

(** [k in data], for a body that is an object. *)
Definition present (data : JsValue) (k : string) : bool :=
  match data with
  | JObj fields => bool_decide (is_Some (lookup_field k fields))
  | _ => false
  end.

(** The amount as the specification words it: the first amount alias that
    is present, parsed as an integer, a non-numeric value counting as 0;
    0 when none is present. *)
Definition spec_amount (data : JsValue) : result JsNum :=
  match List.find (present data) amount_aliases with
  | Some k => n <- parsed data k ;; Ok (if is_nan n then of_Z 0 else n)
  | None => Ok (of_Z 0)
  end.

(** The amount a body extracts to, 0 standing in when the extraction
    throws; and the integer it stands for, 0 when it is infinite. *)
Definition amount_of (data : JsValue) : JsNum :=
  match amount data with
  | Ok a => a
  | Throw _ => of_Z 0
  end.

Definition amount_value (data : JsValue) : Z :=
  default 0 (integerValue (amount_of data)).

(** A value that is a string, a number or [null] (or missing). *)
Definition plain (v : JsValue) : bool :=
  match v with
  | JUndefined | JNull | JNum _ | JStr _ => true
  | _ => false
  end.

Definition all_aliases : list string :=
  username_aliases ++ amount_aliases ++ message_aliases.

End Ingest.

(* ===================================================================== *)
(** ** HTTP responses                                                      *)
(* ===================================================================== *)

Module Http.

(** [res.json(body)] or [res.status(code).json({error, details})]. *)
Inductive Response (B : Type) : Type :=
| Json (body : B)
| Error (status : Z) (e : JsError).
Arguments Json {B} body.
Arguments Error {B} status e.

Definition is_error {B : Type} (r : Response B) : bool :=
  match r with Json _ => false | Error _ _ => true end.

(** Body of a successful [POST /saweria]. *)
Record SaweriaBody : Type := {
  success : bool;
  donation_id : string;
  queue_size : nat
}.

(** Body of a successful [GET /roblox-check], for donations of type [D].
    Its [top_spenders] and [timestamp] members are left out. *)
Record CheckBody (D : Type) : Type := {
  donation : option D;
  check_queue_size : nat
}.
Arguments donation {D} c.
Arguments check_queue_size {D} c.

(** The body of a response, when it has one. *)
Definition reported_body {B : Type} (r : Response B) : option B :=
  match r with
  | Json b => Some b
  | Error _ _ => None
  end.

(** The [queue_size] a poll reports, when it reports one. *)
Definition reported_queue_size {D : Type} (r : Response (CheckBody D)) : option nat :=
  match r with
  | Json b => Some (check_queue_size b)
  | Error _ _ => None
  end.

(** A request to [POST /saweria], with what the environment answers
    while it is handled: the generated id, the ISO time and the clock. *)
Record Post : Type := {
  p_body : JsValue;
  p_id : string;
  p_iso : string;
  p_now : Z
}.

(** The integers the amounts of some requests stand for, and the sum of
    their magnitudes. *)
Definition amounts (posts : list Post) : list Z :=
  List.map (fun p => Ingest.amount_value (p_body p)) posts.

Definition volume (posts : list Post) : Z :=
  foldr Z.add 0 (List.map Z.abs (amounts posts)).

(** [o] is what a poll owes its client for the queue [q]: an undelivered
    donation of [q] whose [received_at] is least among the undelivered
    ones, or nothing when [q] has none. *)
Definition oldest_undelivered {D : Type} (received_at : D -> Z) (undelivered : D -> bool)
    (q : list D) (o : option D) : Prop :=
  match o with
  | Some d =>
      In d q /\ undelivered d = true /\
      forall d', In d' q -> undelivered d' = true -> received_at d <= received_at d'
  | None => forall d', In d' q -> undelivered d' = false
  end.

(** [o] is the first undelivered element of [q] in the order of [q]. *)
Definition first_undelivered {D : Type} (undelivered : D -> bool) (q : list D) (o : option D)
  : Prop :=
  match o with
  | Some d =>
      exists pre post, q = pre ++ d :: post /\ undelivered d = true /\
                       Forall (fun x => undelivered x = false) pre
  | None => Forall (fun x => undelivered x = false) q
  end.

End Http.

Import Http.

(* ===================================================================== *)
(** ** The in-memory server                                                *)
(* ===================================================================== *)

Module Memory.

Record Donation : Type := {
  id : string;
  username : JsValue;
  display_name : JsValue;
  amount : JsNum;
  message : JsValue;
  timestamp : string;
  received_at : Z;
  delivered : bool;
  avatar_url : JsValue
}.

(** A value of the [topSpenders] object. *)
Record Spender : Type := {
  s_username : JsValue;
  s_display_name : JsValue;
  total_amount : JsNum
}.

(** The module-level variables. [topSpenders] holds the own properties of
    the leaderboard object. [builtinTotals] records the [total_amount]
    property that the handler may write on an object reached through
    [Object.prototype], keyed by the property name that reached it; no
    endpoint reads it back. *)
Record State : Type := {
  donationQueue : list Donation;
  topSpenders : gmap string Spender;
  lastRawData : JsValue;
  builtinTotals : gmap string JsNum
}.

Definition MAX_QUEUE_SIZE : nat := 20.
Definition DONATION_LIFETIME : Z := 120000.

Definition initial : State :=
  {| donationQueue := []; topSpenders := ∅; lastRawData := JNull; builtinTotals := ∅ |}.

Definition set_queue (q : list Donation) (st : State) : State :=
  {| donationQueue := q; topSpenders := topSpenders st;
     lastRawData := lastRawData st; builtinTotals := builtinTotals st |}.

Definition set_delivered (d : Donation) : Donation :=
  {| id := id d; username := username d; display_name := display_name d;
     amount := amount d; message := message d; timestamp := timestamp d;
     received_at := received_at d; delivered := true; avatar_url := avatar_url d |}.

(** The properties every plain object inherits from [Object.prototype];
    each holds a function or an object, hence a truthy value. *)
Definition objectPrototypeKeys : list string :=
  ["constructor"; "__defineGetter__"; "__defineSetter__"; "hasOwnProperty";
   "__lookupGetter__"; "__lookupSetter__"; "isPrototypeOf";
   "propertyIsEnumerable"; "toString"; "valueOf"; "__proto__"; "toLocaleString"].

Definition inherited (key : string) : bool :=
  existsb (String.eqb key) objectPrototypeKeys.

(** [d => !d.delivered] *)
Definition undelivered (d : Donation) : bool := negb (delivered d).

(** [donationQueue.filter(d => !d.delivered).length] *)
Definition undeliveredCount (st : State) : nat :=
  length (List.filter undelivered (donationQueue st)).

(** The filter of [cleanupOldDonations]. *)
Definition keeps (now : Z) (d : Donation) : bool :=
  let age := now - received_at d in
  if Z.ltb DONATION_LIFETIME age then false
  else if delivered d && Z.ltb 30000 age then false
  else true.

Definition cleanupOldDonations (now : Z) (st : State) : State :=
  set_queue (List.filter (keeps now) (donationQueue st)) st.

(** [if (!topSpenders[username]) topSpenders[username] = {..., total_amount: 0};
     topSpenders[username].total_amount += amount;]
    for the property key [key] of [username]. An own entry is an object,
    hence truthy. Without one, an inherited property answers the read: it
    is truthy, no entry is created, and the sum is written on the
    inherited object, whose [total_amount] was [undefined] or [NaN]. *)
Definition updateTopSpenders (key : string) (user : JsValue) (amt : JsNum) (st : State)
  : State :=
  match topSpenders st !! key with
  | Some e =>
      {| donationQueue := donationQueue st;
         topSpenders :=
           <[key := {| s_username := s_username e; s_display_name := s_display_name e;
                       total_amount := add (total_amount e) amt |}]> (topSpenders st);
         lastRawData := lastRawData st; builtinTotals := builtinTotals st |}
  | None =>
      if inherited key then
        {| donationQueue := donationQueue st; topSpenders := topSpenders st;
           lastRawData := lastRawData st;
           builtinTotals :=
             <[key := add (default NaN (builtinTotals st !! key)) amt]> (builtinTotals st) |}
      else
        {| donationQueue := donationQueue st;
           topSpenders :=
             <[key := {| s_username := user; s_display_name := user;
                         total_amount := add (of_Z 0) amt |}]> (topSpenders st);
           lastRawData := lastRawData st; builtinTotals := builtinTotals st |}
  end.

(** The donation object the handler builds. *)
Definition makeDonation (f : Ingest.Fields) (donationId isoNow : string) (now : Z)
  : Donation :=
  {| id := donationId;
     username := Ingest.f_username f;
     display_name := Ingest.f_username f;
     amount := Ingest.f_amount f;
     message := Ingest.f_message f;
     timestamp := isoNow;
     received_at := now;
     delivered := false;
     avatar_url := JNull |}.

(** [donationQueue.push(donation);
     if (donationQueue.length > MAX_QUEUE_SIZE) donationQueue.shift();] *)
Definition enqueue (d : Donation) (q : list Donation) : list Donation :=
  let q1 := q ++ [d] in
  if Nat.ltb MAX_QUEUE_SIZE (length q1) then tail q1 else q1.

(** [app.post('/saweria')]. Everything runs inside one [try]: an exception
    ends the handler with status 400 and leaves the variables as the
    statements before it set them. The leaderboard is indexed by
    [username], whose conversion to a property key is the only step after
    the extraction that can throw. *)
Definition saweria (body : JsValue) (donationId isoNow : string) (now : Z) (st : State)
  : State * Response SaweriaBody :=
  match Ingest.extract body with
  | Throw e => (st, Error 400 e)
  | Ok f =>
      let d := makeDonation f donationId isoNow now in
      let st1 := set_queue (enqueue d (donationQueue st)) st in
      match ToString (Ingest.f_username f) with
      | Throw e => (st1, Error 400 e)
      | Ok key =>
          let st2 := updateTopSpenders key (Ingest.f_username f) (Ingest.f_amount f) st1 in
          (st2, Json {| success := true; donation_id := donationId;
                        queue_size := undeliveredCount st2 |})
      end
  end.

(** [d.id === confirmId] *)
Definition idIs (confirmId : JsValue) (d : Donation) : bool :=
  match confirmId with
  | JStr s => String.eqb (id d) s
  | _ => false
  end.

(** [const donation = donationQueue.find(d => d.id === confirmId);
     if (donation) donation.delivered = true;]
    The found object is the one the queue holds: the first donation with
    that id becomes delivered in place. *)
Fixpoint confirmDelivery (confirmId : JsValue) (q : list Donation) : list Donation :=
  match q with
  | [] => []
  | d :: rest =>
      if idIs confirmId d then set_delivered d :: rest
      else d :: confirmDelivery confirmId rest
  end.

(** [app.get('/roblox-check')] with [req.query.confirm = confirmId]
    ([JUndefined] when the parameter is absent). *)
Definition robloxCheck (confirmId : JsValue) (st : State)
  : State * Response (CheckBody Donation) :=
  let st1 :=
    if truthy confirmId
    then set_queue (confirmDelivery confirmId (donationQueue st)) st
    else st in
  (st1, Json {| donation := List.find undelivered (donationQueue st1);
                check_queue_size := undeliveredCount st1 |}).

(** [app.post('/clear')] *)
Definition clear (st : State) : State :=
  {| donationQueue := []; topSpenders := ∅; lastRawData := JNull;
     builtinTotals := builtinTotals st |}.

(** What the server is asked to do: a request, or a tick of the
    30-second timer. The read-only endpoints change nothing. *)
Inductive Event : Type :=
| PostSaweria (body : JsValue) (donationId isoNow : string)
| GetRobloxCheck (confirmId : JsValue)
| TimerCleanup
| PostClear
| ReadOnly.

(** One event, handled at clock reading [now]. *)
Definition handle (now : Z) (ev : Event) (st : State) : State :=
  match ev with
  | PostSaweria body donationId isoNow => fst (saweria body donationId isoNow now st)
  | GetRobloxCheck confirmId => fst (robloxCheck confirmId st)
  | TimerCleanup => cleanupOldDonations now st
  | PostClear => clear st
  | ReadOnly => st
  end.

(** A run of the server: the events in order, each with the clock reading
    at which it is handled, from the state at start-up. *)
Definition run_from (st : State) (trace : list (Z * Event)) : State :=
  fold_left (fun s e => handle (fst e) (snd e) s) trace st.

Definition run (trace : list (Z * Event)) : State := run_from initial trace.

(** Several requests to [/saweria] in a row. *)
Definition ingests (posts : list Post) (st : State) : State :=
  fold_left (fun s p => fst (saweria (p_body p) (p_id p) (p_iso p) (p_now p) s)) posts st.

(** [ORDER BY received_at], as a relation on donations. *)
Definition by_received_at (a b : Donation) : Prop := received_at a <= received_at b.

(** The queue is ordered by [received_at], and nothing in it arrived
    after clock reading [t]. *)
Definition arrival_order (t : Z) (st : State) : Prop :=
  StronglySorted by_received_at (donationQueue st) /\
  Forall (fun d => received_at d <= t) (donationQueue st).

(** The clock never goes back during the run. *)
Definition monotone (trace : list (Z * Event)) : Prop :=
  Sorted Z.le (List.map fst trace).

(** Body of [GET /stats], without its [top_spenders] member. *)
Record StatsBody : Type := {
  total_donations : nat;
  delivered_donations : nat;
  pending_donations : nat;
  stats_total_amount : JsNum;
  unique_donors : nat
}.

(** [app.get('/stats')] *)
Definition stats (st : State) : StatsBody :=
  {| total_donations := length (donationQueue st);
     delivered_donations := length (List.filter delivered (donationQueue st));
     pending_donations := length (List.filter undelivered (donationQueue st));
     stats_total_amount :=
       fold_left (fun sum d => add sum (amount d)) (donationQueue st) (of_Z 0);
     unique_donors := size (topSpenders st) |}.

(** The counts in the body of [GET /]. *)
Record HealthBody : Type := {
  queue_undelivered : nat;
  queue_total : nat
}.

(** [app.get('/')] *)
Definition health (st : State) : HealthBody :=
  {| queue_undelivered := length (List.filter undelivered (donationQueue st));
     queue_total := length (donationQueue st) |}.

(** What the ingests of a run have brought in under the property key
    [key] since the last [/clear]: nothing, or their extracted amounts
    added up from 0 in the order of the requests. [credit] accounts for
    one event. *)
Definition credit (key : string) (acc : option JsNum) (ev : Event) : option JsNum :=
  match ev with
  | PostSaweria body _ _ =>
      match Ingest.extract body with
      | Ok f =>
          match ToString (Ingest.f_username f) with
          | Ok k =>
              if String.eqb k key
              then Some (add (default (of_Z 0) acc) (Ingest.f_amount f))
              else acc
          | Throw _ => acc
          end
      | Throw _ => acc
      end
  | PostClear => None
  | _ => acc
  end.

Definition received_for (key : string) (trace : list (Z * Event)) : option JsNum :=
  fold_left (credit key) (List.map snd trace) None.

(** The donation a request to [/saweria] queues, when its body extracts. *)
Definition donationOf (p : Post) : option Donation :=
  match Ingest.extract (p_body p) with
  | Ok f => Some (makeDonation f (p_id p) (p_iso p) (p_now p))
  | Throw _ => None
  end.

(** The last [n] elements of a list ([slice(-n)]). *)
Definition lastn {A : Type} (n : nat) (l : list A) : list A :=
  drop (length l - n) l.

(** The shape every state of a run has: the amount of a donation is a
    Number other than [NaN], its [display_name] is its [username], which
    is truthy, and a leaderboard entry sits under the property key of its
    [username], which no plain object inherits. *)
Definition well_formed (st : State) : Prop :=
  Forall (fun d => is_nan (amount d) = false /\ display_name d = username d /\
                   truthy (username d) = true /\ avatar_url d = JNull)
         (donationQueue st) /\
  (forall key e, topSpenders st !! key = Some e ->
     s_display_name e = s_username e /\
     ToString (s_username e) = Ok key /\
     inherited key = false).

End Memory.

(* ===================================================================== *)
(** ** The SQLite-backed server ([src/server.js])                          *)
(* ===================================================================== *)

Module Durable.

(** A REAL: a double other than [NaN], which SQLite does not store. *)
Inductive SqlReal : Type :=
| RealZero (s : bool)
| RealInfinity (s : bool)
| RealFinite (s : bool) (m : positive) (e : Z).

Definition to_double (r : SqlReal) : JsNum :=
  match r with
  | RealZero s => S754_zero s
  | RealInfinity s => S754_infinity s
  | RealFinite s m e => S754_finite s m e
  end.

(** The REAL for a double; [NaN] has none and stands for NULL. [as_real]
    is meant for doubles other than [NaN]. *)
Definition as_real (d : JsNum) : SqlReal :=
  match d with
  | S754_zero s => RealZero s
  | S754_infinity s => RealInfinity s
  | S754_finite s m e => RealFinite s m e
  | S754_nan => RealZero false
  end.

Definition of_double (d : JsNum) : option SqlReal :=
  if is_nan d then None else Some (as_real d).

(** A number as SQLite holds it: a 64-bit INTEGER or a REAL. *)
Inductive SqlNumber : Type :=
| NumInteger (z : Z)
| NumReal (r : SqlReal).

(** A value bound to a statement parameter or stored in a column. The
    conversions SQLite applies between text and numbers, when a number is
    stored in a TEXT column or a text in an INTEGER column, are not
    modelled: such a value stays as it was bound. *)
Inductive SqlValue : Type :=
| SqlNull
| SqlNum (n : SqlNumber)
| SqlText (s : string).

Definition is_null (v : SqlValue) : bool :=
  match v with SqlNull => true | _ => false end.

(** [a = b] between a stored and a bound value of the same kind; NULL
    equals nothing. *)
Definition sql_eqb (a b : SqlValue) : bool :=
  match a, b with
  | SqlNum (NumInteger x), SqlNum (NumInteger y) => Z.eqb x y
  | SqlNum (NumReal x), SqlNum (NumReal y) => num_eqb (to_double x) (to_double y)
  | SqlText x, SqlText y => String.eqb x y
  | _, _ => false
  end.

(** A number on its way into a column of INTEGER affinity: a REAL that is
    integral and strictly between [-2^63] and [2^63] becomes that
    INTEGER. *)
Definition integer_affinity (n : SqlNumber) : SqlNumber :=
  match n with
  | NumReal r =>
      match integerValue (to_double r) with
      | Some z => if Z.ltb (- 2 ^ 63) z && Z.ltb z (2 ^ 63) then NumInteger z else n
      | None => n
      end
  | NumInteger _ => n
  end.

Definition store_integer (v : SqlValue) : SqlValue :=
  match v with
  | SqlNum n => SqlNum (integer_affinity n)
  | _ => v
  end.

(** A number as a REAL: an INTEGER becomes the nearest double. *)
Definition to_real (n : SqlNumber) : JsNum :=
  match n with
  | NumInteger z => of_Z z
  | NumReal r => to_double r
  end.

(** [a + b] on numbers: two INTEGERs add exactly when the sum fits 64
    bits; otherwise both operands are added as REALs, and a sum that is
    not a number is NULL ([None]). *)
Definition sql_add (a b : SqlNumber) : option SqlNumber :=
  match a, b with
  | NumInteger x, NumInteger y =>
      if Z.leb (- 2 ^ 63) (x + y) && Z.ltb (x + y) (2 ^ 63)
      then Some (NumInteger (x + y))
      else NumReal <$> of_double (add (of_Z x) (of_Z y))
  | _, _ => NumReal <$> of_double (add (to_real a) (to_real b))
  end.

(** A row of [donations]; [delivered] is the 0/1 column. The [id],
    [timestamp] and [received_at] columns only ever receive the string,
    string and clock reading the handler passes for them. The
    [created_at] column, which no statement reads, is left out. *)
Record DonationRow : Type := {
  id : string;
  username : SqlValue;
  display_name : SqlValue;
  amount : SqlValue;
  message : SqlValue;
  timestamp : string;
  received_at : Z;
  delivered : bool
}.

(** A row of [top_spenders], without its [updated_at] column. The
    [total_amount] column only ever receives numbers. *)
Record SpenderRow : Type := {
  s_username : SqlValue;
  s_display_name : SqlValue;
  total_amount : SqlNumber
}.

(** The database: each table is the list of its rows, oldest first. *)
Record Db : Type := {
  donations : list DonationRow;
  top_spenders : list SpenderRow
}.

Definition empty : Db := {| donations := []; top_spenders := [] |}.

Definition set_delivered (r : DonationRow) : DonationRow :=
  {| id := id r; username := username r; display_name := display_name r;
     amount := amount r; message := message r; timestamp := timestamp r;
     received_at := received_at r; delivered := true |}.

(** What the driver binds for one JavaScript value: numbers, strings and
    [null]; anything else is a [TypeError]. A number is bound as a REAL,
    and SQLite takes [NaN] for NULL. *)
Definition bindValue (v : JsValue) : result SqlValue :=
  match v with
  | JNum n => Ok (from_option (fun r => SqlNum (NumReal r)) SqlNull (of_double n))
  | JStr s => Ok (SqlText s)
  | JNull => Ok SqlNull
  | _ => Throw TypeError
  end.

Fixpoint bindArray (items : list JsValue) : result (list SqlValue) :=
  match items with
  | [] => Ok []
  | x :: rest => v <- bindValue x ;; vs <- bindArray rest ;; Ok (v :: vs)
  end.

(** The arguments of [stmt.run(...)], bound to the anonymous parameters in
    order. An array argument spreads: each of its elements takes one
    parameter. A plain-object argument names parameters; the statements
    here have none, so it fills nothing, and a second one is a
    [TypeError]. [bound_object] tells whether one was seen. *)
Fixpoint bindArgs (args : list JsValue) (bound_object : bool) : result (list SqlValue) :=
  match args with
  | [] => Ok []
  | JArr items :: rest =>
      vs <- bindArray items ;; ws <- bindArgs rest bound_object ;; Ok (vs ++ ws)
  | JObj _ :: rest =>
      if bound_object then Throw TypeError else bindArgs rest true
  | v :: rest =>
      x <- bindValue v ;; ws <- bindArgs rest bound_object ;; Ok (x :: ws)
  end.

(** [insertDonation.run(donationId, username, username, amount, message,
    timestamp, receivedAt)]: seven parameters; [id] is the primary key and
    [username], [display_name] and [amount] are NOT NULL, as are
    [timestamp] and [received_at], which always get the string and the
    clock reading passed last; the row keeps the clock reading as the
    integer it is. The [amount] column has INTEGER affinity. A wrong
    number of bound values is a [RangeError]. *)
Definition insertDonation_run (donationId : string) (user display : JsValue)
    (amt : JsNum) (msg : JsValue) (isoNow : string) (receivedAt : Z) (db : Db)
  : result Db :=
  vals <- bindArgs [JStr donationId; user; display; JNum amt; msg;
                    JStr isoNow; JNum (of_Z receivedAt)] false ;;
  match vals with
  | [SqlText i; u; d; a; m; SqlText t; SqlNum _] =>
      if is_null u || is_null d || is_null a then Throw SqliteError
      else if existsb (fun row => String.eqb (id row) i) (donations db)
      then Throw SqliteError
      else Ok {| donations :=
                   donations db ++
                   [{| id := i; username := u; display_name := d;
                       amount := store_integer a;
                       message := m; timestamp := t; received_at := receivedAt;
                       delivered := false |}];
                 top_spenders := top_spenders db |}
  | _ => Throw RangeError
  end.

(** [INSERT ... ON CONFLICT(username) DO UPDATE SET
      total_amount = total_amount + excluded.total_amount,
      display_name = excluded.display_name] on the rows of the table,
    for the number [a] as the column holds it. The sum of the update must
    not be NULL. *)
Fixpoint upsert (u d : SqlValue) (a : SqlNumber) (rows : list SpenderRow)
  : result (list SpenderRow) :=
  match rows with
  | [] => Ok [{| s_username := u; s_display_name := d; total_amount := a |}]
  | row :: rest =>
      if sql_eqb (s_username row) u
      then match sql_add (total_amount row) a with
           | Some t =>
               Ok ({| s_username := s_username row; s_display_name := d;
                      total_amount := integer_affinity t |} :: rest)
           | None => Throw SqliteError
           end
      else rest' <- upsert u d a rest ;; Ok (row :: rest')
  end.

(** [updateTopSpender.run(username, username, amount)]: three parameters;
    [display_name] and [total_amount] are NOT NULL, and [total_amount]
    has INTEGER affinity. *)
Definition updateTopSpender_run (user display : JsValue) (amt : JsNum) (db : Db)
  : result Db :=
  vals <- bindArgs [user; display; JNum amt] false ;;
  match vals with
  | [u; d; SqlNum a] =>
      if is_null u || is_null d then Throw SqliteError
      else rows <- upsert u d (integer_affinity a) (top_spenders db) ;;
           Ok {| donations := donations db; top_spenders := rows |}
  | [_; _; SqlNull] => Throw SqliteError
  | _ => Throw RangeError
  end.

(** [markDelivered.run(confirmId)]:
    [UPDATE donations SET delivered = 1 WHERE id = ?]. *)
Definition markDelivered_run (confirmId : JsValue) (db : Db) : result Db :=
  vals <- bindArgs [confirmId] false ;;
  match vals with
  | [v] =>
      Ok {| donations :=
              List.map (fun row => if sql_eqb (SqlText (id row)) v
                                   then set_delivered row else row)
                       (donations db);
            top_spenders := top_spenders db |}
  | _ => Throw RangeError
  end.

(** [WHERE delivered = 0] *)
Definition undelivered (r : DonationRow) : bool := negb (delivered r).

(** [ORDER BY received_at ASC] *)
Definition by_received_at (a b : DonationRow) : Prop := received_at a <= received_at b.

#[global] Instance by_received_at_dec (a b : DonationRow) : Decision (by_received_at a b).
Proof. unfold by_received_at. apply _. Defined.

(** [getUndeliveredDonation.get()]:
    [SELECT * FROM donations WHERE delivered = 0
     ORDER BY received_at ASC LIMIT 1]; [None] is [undefined]. *)
Definition getUndeliveredDonation_get (db : Db) : option DonationRow :=
  head (merge_sort by_received_at (List.filter undelivered (donations db))).

(** [SELECT COUNT( * ) as count FROM donations WHERE delivered = 0] *)
Definition undeliveredCount (db : Db) : nat :=
  length (List.filter undelivered (donations db)).

(** [cleanOldDonations.run(deliveredThreshold, undeliveredThreshold)]:
    [DELETE FROM donations WHERE (delivered = 1 AND received_at < ?)
     OR (received_at < ?)]. *)
Definition cleanOldDonations_run (deliveredThreshold undeliveredThreshold : Z) (db : Db)
  : Db :=
  {| donations :=
       List.filter
         (fun r => negb ((delivered r && Z.ltb (received_at r) deliveredThreshold)
                         || Z.ltb (received_at r) undeliveredThreshold))
         (donations db);
     top_spenders := top_spenders db |}.

Definition cleanupOldDonations (now : Z) (db : Db) : Db :=
  let deliveredThreshold := now - 60000 in
  let undeliveredThreshold := now - 300000 in
  cleanOldDonations_run deliveredThreshold undeliveredThreshold db.

(** [app.post('/saweria')]: the two statements run one after the other,
    each committed on its own; an exception ends the handler with status
    400. *)
Definition saweria (body : JsValue) (donationId isoNow : string) (now : Z) (db : Db)
  : Db * Response SaweriaBody :=
  match Ingest.extract body with
  | Throw e => (db, Error 400 e)
  | Ok f =>
      let user := Ingest.f_username f in
      match insertDonation_run donationId user user (Ingest.f_amount f)
                               (Ingest.f_message f) isoNow now db with
      | Throw e => (db, Error 400 e)
      | Ok db1 =>
          match updateTopSpender_run user user (Ingest.f_amount f) db1 with
          | Throw e => (db1, Error 400 e)
          | Ok db2 =>
              (db2, Json {| success := true; donation_id := donationId;
                            queue_size := undeliveredCount db2 |})
          end
      end
  end.

(** [app.get('/roblox-check')]; an exception gives status 500. *)
Definition robloxCheck (confirmId : JsValue) (db : Db)
  : Db * Response (CheckBody DonationRow) :=
  match (if truthy confirmId then markDelivered_run confirmId db else Ok db) with
  | Throw e => (db, Error 500 e)
  | Ok db1 =>
      (db1, Json {| donation := getUndeliveredDonation_get db1;
                    check_queue_size := undeliveredCount db1 |})
  end.

(** [app.post('/clear')] *)
Definition clear (db : Db) : Db := empty.

(** Several requests to [/saweria] in a row, and whether all of them are
    answered with success. *)
Definition ingests (posts : list Post) (db : Db) : Db :=
  fold_left (fun s p => fst (saweria (p_body p) (p_id p) (p_iso p) (p_now p) s)) posts db.

Fixpoint all_succeed (posts : list Post) (db : Db) : bool :=
  match posts with
  | [] => true
  | p :: rest =>
      let res := saweria (p_body p) (p_id p) (p_iso p) (p_now p) db in
      negb (is_error (snd res)) && all_succeed rest (fst res)
  end.

(** [u] binds exactly the one value [x], wherever it stands among the
    arguments of a statement. *)
Definition binds_one (u : JsValue) (x : SqlValue) : Prop :=
  forall rest b,
    bindArgs (u :: rest) b = (ws <- bindArgs rest b ;; Ok (x :: ws)).

(** The total the leaderboard holds for a username, if it has a row. *)
Definition total_of (u : SqlValue) (db : Db) : option SqlNumber :=
  total_amount <$> List.find (fun row => sql_eqb (s_username row) u) (top_spenders db).

(** The place of a number in [ORDER BY]: its value times [2^1074], which
    is an integer for every double, with the infinities beyond every
    finite value. *)
Definition rank (n : SqlNumber) : Z :=
  match n with
  | NumInteger z => z * 2 ^ 1074
  | NumReal (RealFinite s m e) => cond_Zopp s (Z.shiftl (Zpos m) (e + 1074))
  | NumReal (RealInfinity s) => cond_Zopp s (2 ^ 2200)
  | NumReal (RealZero _) => 0
  end.

(** [getTopSpenders.all()]:
    [SELECT username, display_name, total_amount FROM top_spenders
     ORDER BY total_amount DESC LIMIT 10]. SQLite does not fix the order
    of rows with equal totals; here it is the order of the merge sort. *)
Definition by_total_desc (a b : SpenderRow) : Prop :=
  rank (total_amount b) <= rank (total_amount a).

#[global] Instance by_total_desc_dec (a b : SpenderRow) : Decision (by_total_desc a b).
Proof. unfold by_total_desc. apply _. Defined.

Definition getTopSpenders_all (db : Db) : list SpenderRow :=
  take 10 (merge_sort by_total_desc (top_spenders db)).

(** The leaderboard has one row per username, and each row's username is
    not NULL and is also its display name. *)
Definition keyed (rows : list SpenderRow) : Prop :=
  Forall (fun row => is_null (s_username row) = false /\
                     s_display_name row = s_username row) rows /\
  List.NoDup (List.map s_username rows).

(** The three counts in the body of [GET /stats]; its [total_amount],
    [unique_donors] and [top_spenders] members are left out. *)
Record StatsBody : Type := {
  total_donations : nat;
  delivered_donations : nat;
  pending_donations : nat
}.

(** [app.get('/stats')], which always answers here: the queries take no
    parameters. *)
Definition stats (db : Db) : StatsBody :=
  {| total_donations := length (donations db);
     delivered_donations := length (List.filter delivered (donations db));
     pending_donations := length (List.filter undelivered (donations db)) |}.

(** What the server is asked to do, as for the in-memory server. *)
Inductive Event : Type :=
| PostSaweria (body : JsValue) (donationId isoNow : string)
| GetRobloxCheck (confirmId : JsValue)
| TimerCleanup
| PostClear
| ReadOnly.

Definition handle (now : Z) (ev : Event) (db : Db) : Db :=
  match ev with
  | PostSaweria body donationId isoNow => fst (saweria body donationId isoNow now db)
  | GetRobloxCheck confirmId => fst (robloxCheck confirmId db)
  | TimerCleanup => cleanupOldDonations now db
  | PostClear => clear db
  | ReadOnly => db
  end.

(** A run of the server from a database, and from the empty one. *)
Definition run_from (db : Db) (trace : list (Z * Event)) : Db :=
  fold_left (fun s e => handle (fst e) (snd e) s) trace db.

Definition run (trace : list (Z * Event)) : Db := run_from empty trace.

(** Every ingest of the run whose body extracts has a string for its
    username. *)
Definition string_usernames (trace : list (Z * Event)) : Prop :=
  Forall (fun e => match snd e with
                   | PostSaweria body _ _ =>
                       forall f, Ingest.extract body = Ok f ->
                                 exists s, Ingest.f_username f = JStr s
                   | _ => True
                   end) trace.

(** The amount of a request as the [total_amount] column takes it. *)
Definition stored_amount (a : JsNum) : SqlNumber := integer_affinity (NumReal (as_real a)).

(** What the ingests of a run that were answered with success have
    brought in for the username [u] since the last [/clear]: the first
    amount, and each later one added to it by SQLite. [credit] accounts
    for one event, handled at [now] in database [db]. *)
Definition credit (u : string) (now : Z) (db : Db) (acc : option SqlNumber) (ev : Event)
  : option SqlNumber :=
  match ev with
  | PostSaweria body donationId isoNow =>
      if is_error (snd (saweria body donationId isoNow now db)) then acc
      else match Ingest.extract body with
           | Ok f =>
               match Ingest.f_username f with
               | JStr s =>
                   if String.eqb s u
                   then match acc with
                        | Some t =>
                            integer_affinity <$> sql_add t (stored_amount (Ingest.f_amount f))
                        | None => Some (stored_amount (Ingest.f_amount f))
                        end
                   else acc
               | _ => acc
               end
           | Throw _ => acc
           end
  | PostClear => None
  | _ => acc
  end.

Fixpoint received_from (u : string) (trace : list (Z * Event)) (db : Db)
    (acc : option SqlNumber) : option SqlNumber :=
  match trace with
  | [] => acc
  | (now, ev) :: rest =>
      received_from u rest (handle now ev db) (credit u now db acc ev)
  end.

Definition received_for (u : string) (trace : list (Z * Event)) : option SqlNumber :=
  received_from u trace empty None.

End Durable.

(* ===================================================================== *)
(** ** Request bodies used in the examples                                 *)
(* ===================================================================== *)

Module Sample.

(** [{"amount_raw": "abc", "amount": "500"}] *)
Definition abc_500 : JsValue :=
  JObj [("amount_raw", JStr "abc"); ("amount", JStr "500")].

(** Every username alias present and empty. *)
Definition empty_names : JsValue :=
  JObj (List.map (fun k => (k, JStr "")) Ingest.username_aliases).

(** [{"donatur_name": "Budi", "amount_raw": "5000", "message": "hi"}] *)
Definition budi_5000 : JsValue :=
  JObj [("donatur_name", JStr "Budi"); ("amount_raw", JStr "5000"); ("message", JStr "hi")].

(** [{"name": "Budi", "amount": "10"}] *)
Definition budi_10 : JsValue :=
  JObj [("name", JStr "Budi"); ("amount", JStr "10")].

(** [{"name": "Budi", "amount": "-5"}] *)
Definition budi_minus_5 : JsValue :=
  JObj [("name", JStr "Budi"); ("amount", JStr "-5")].

(** [{"name": "constructor", "amount": "5"}] *)
Definition constructor_5 : JsValue :=
  JObj [("name", JStr "constructor"); ("amount", JStr "5")].

(** [{"name": {"toString": 0}}] *)
Definition unprintable_name : JsValue :=
  JObj [("name", JObj [("toString", JNum (of_Z 0))])].

(** [{"name": [], "message": ["a", "b", "c"]}] *)
Definition spread_message : JsValue :=
  JObj [("name", JArr []); ("message", JArr [JStr "a"; JStr "b"; JStr "c"])].

(** Twenty-one ingests, one per millisecond. *)
Definition burst : list (Z * Memory.Event) :=
  List.map (fun n => (Z.of_nat n, Memory.PostSaweria budi_10 (pretty n) "t")) (seq 0 21).

(** Two ingests, then a poll that confirms the first. *)
Definition two_then_confirm : list (Z * Memory.Event) :=
  [(1, Memory.PostSaweria budi_10 "1-a" "t");
   (2, Memory.PostSaweria budi_minus_5 "2-b" "t");
   (3, Memory.GetRobloxCheck (JStr "1-a"))].

(** Three donations of Budi: 10, -5 and 10. *)
Definition three_of_budi : list Post :=
  [{| p_body := budi_10; p_id := "1-a"; p_iso := "t"; p_now := 1 |};
   {| p_body := budi_minus_5; p_id := "2-b"; p_iso := "t"; p_now := 2 |};
   {| p_body := budi_10; p_id := "3-c"; p_iso := "t"; p_now := 3 |}].

(** The same, as events for the durable server, with a poll that confirms
    the first. *)
Definition durable_trace : list (Z * Durable.Event) :=
  [(1, Durable.PostSaweria budi_10 "1-a" "t");
   (2, Durable.PostSaweria budi_minus_5 "2-b" "t");
   (3, Durable.GetRobloxCheck (JStr "1-a"))].

(** A string of [n] nines. *)
Fixpoint nines (n : nat) : string :=
  match n with
  | O => ""
  | S n' => String "9" (nines n')
  end.

(** [{"name": "Budi", "amount": "99...9"}] with 310 nines, and the same
    with a minus sign. *)
Definition budi_huge : JsValue :=
  JObj [("name", JStr "Budi"); ("amount", JStr (nines 310))].

Definition budi_minus_huge : JsValue :=
  JObj [("name", JStr "Budi"); ("amount", JStr ("-" +:+ nines 310))].

(** [{"name": "Budi", "amount_raw": 5000}], the amount a JSON number. *)
Definition budi_number_5000 : JsValue :=
  JObj [("name", JStr "Budi"); ("amount_raw", JNum (of_Z 5000))].

(** Two ingests of which the second reads an earlier clock. *)
Definition backward_clock : list (Z * Memory.Event) :=
  [(2, Memory.PostSaweria budi_10 "1-a" "t");
   (1, Memory.PostSaweria budi_10 "2-b" "t")].

End Sample.

(* ===================================================================== *)
(** ** Numbers: rounding and the safe integers                             *)
(* ===================================================================== *)

(** Rounding a non-negative mantissa never gives [NaN]. *)
Lemma iter_pos_invariant {A : Type} (P : A -> Prop) (f : A -> A) :
  (forall x, P x -> P (f x)) -> forall n x, P x -> P (SpecFloat.iter_pos f n x).
Proof.
  intros Hf. induction n as [n IH|n IH|]; intros x Hx; cbn [SpecFloat.iter_pos]; auto.
Qed.

Lemma shr_1_nonneg (mrs : shr_record) : 0 <= shr_m mrs -> 0 <= shr_m (shr_1 mrs).
Proof.
  destruct mrs as [m r s]. cbn [shr_m]. intros Hm.
  destruct m as [|[p|p|]|p]; cbn; lia.
Qed.

Lemma shr_nonneg (mrs : shr_record) (e n : Z) :
  0 <= shr_m mrs -> 0 <= shr_m (fst (shr mrs e n)).
Proof.
  intros Hm. destruct n as [|p|p]; cbn [shr fst]; [exact Hm| |exact Hm].
  apply (iter_pos_invariant (fun x => 0 <= shr_m x)); [apply shr_1_nonneg | exact Hm].
Qed.

Lemma shr_record_of_loc_m (m : Z) (l : location) : shr_m (shr_record_of_loc m l) = m.
Proof. destruct l as [|[]]; reflexivity. Qed.

Lemma shr_fexp_nonneg (m e : Z) (l : location) :
  0 <= m -> 0 <= shr_m (fst (shr_fexp prec emax m e l)).
Proof.
  intros Hm. unfold shr_fexp. apply shr_nonneg. rewrite shr_record_of_loc_m. exact Hm.
Qed.

Lemma round_nearest_even_nonneg (m : Z) (l : location) :
  0 <= m -> 0 <= round_nearest_even m l.
Proof.
  intros Hm. destruct l as [|[]]; cbn [round_nearest_even]; try lia.
  destruct (Z.even m); lia.
Qed.

Lemma binary_round_aux_not_nan (s : bool) (m e : Z) (l : location) :
  0 <= m -> binary_round_aux prec emax s m e l <> S754_nan.
Proof.
  intros Hm. unfold binary_round_aux.
  pose proof (shr_fexp_nonneg m e l Hm) as H1.
  destruct (shr_fexp prec emax m e l) as [mrs' e'] eqn:E1. cbn [fst] in H1.
  pose proof (shr_fexp_nonneg _ e' loc_Exact
                (round_nearest_even_nonneg _ (loc_of_shr_record mrs') H1)) as H2.
  destruct (shr_fexp prec emax _ e' loc_Exact) as [mrs'' e''] eqn:E2. cbn [fst] in H2.
  destruct (shr_m mrs'') as [|p|p]; [discriminate| |lia].
  destruct (Z.leb e'' (emax - prec)); discriminate.
Qed.

Lemma binary_normalize_not_nan (m e : Z) (sz : bool) :
  binary_normalize prec emax m e sz <> S754_nan.
Proof.
  destruct m as [|p|p]; cbn [binary_normalize]; [discriminate| |];
    unfold binary_round; destruct (shl_align _ _ _) as [mz ez];
    apply binary_round_aux_not_nan; lia.
Qed.

Lemma of_Z_not_nan (z : Z) : of_Z z <> NaN.
Proof. apply binary_normalize_not_nan. Qed.

Lemma add_not_nan (a b : JsNum) :
  a <> NaN -> b <> NaN -> is_infinite a && is_infinite b = false -> add a b <> NaN.
Proof.
  intros Ha Hb Hinf. unfold add, SFadd.
  destruct a as [sa|sa| |sa ma ea], b as [sb|sb| |sb mb eb];
    try discriminate; try contradiction; try (destruct sa, sb; discriminate).
  apply binary_normalize_not_nan.
Qed.

(** On the safe integers rounding is exact: [of_Z] gives the canonical
    form, which addition preserves. *)
Lemma Pos_iter_xO (q k : positive) : Pos.iter xO q k = shl q (Pos.to_nat k).
Proof. unfold shl. rewrite Pos2Nat.inj_iter. reflexivity. Qed.

Lemma shl_add (q : positive) (a b : nat) : shl (shl q a) b = shl q (a + b).
Proof.
  unfold shl. rewrite Nat.add_comm. symmetry. apply Nat.iter_add.
Qed.

Lemma digits_shl (q : positive) (n : nat) :
  Zpos (digits2_pos (shl q n)) = Zpos (digits2_pos q) + Z.of_nat n.
Proof.
  induction n as [|n IH]; [cbn; lia|].
  change (shl q (S n)) with (xO (shl q n)). cbn [digits2_pos]. lia.
Qed.

Lemma Zpos_shl (q : positive) (n : nat) : Zpos (shl q n) = Zpos q * 2 ^ Z.of_nat n.
Proof.
  induction n as [|n IH]; [cbn; lia|].
  change (shl q (S n)) with (xO (shl q n)).
  rewrite Nat2Z.inj_succ, Z.pow_succ_r by lia. lia.
Qed.

Lemma iter_pos_nat {A : Type} (f : A -> A) (n : positive) (x : A) :
  SpecFloat.iter_pos f n x = Nat.iter (Pos.to_nat n) f x.
Proof.
  revert x. induction n as [n IH|n IH|]; intros x; cbn [SpecFloat.iter_pos].
  - rewrite !IH, Pos2Nat.inj_xI.
    replace (S (2 * Pos.to_nat n)) with (Pos.to_nat n + (Pos.to_nat n + 1))%nat by lia.
    rewrite !Nat.iter_add. reflexivity.
  - rewrite !IH, Pos2Nat.inj_xO.
    replace (2 * Pos.to_nat n)%nat with (Pos.to_nat n + Pos.to_nat n)%nat by lia.
    rewrite Nat.iter_add. reflexivity.
  - reflexivity.
Qed.

Lemma shr_iter (n r : nat) (q : positive) :
  Nat.iter n shr_1 (exact_record (shl q (n + r))) = exact_record (shl q r).
Proof.
  revert r. induction n as [|n IH]; intros r; [reflexivity|].
  rewrite Nat.iter_succ. replace (S n + r)%nat with (n + S r)%nat by lia. rewrite IH.
  reflexivity.
Qed.

Lemma digits2_pos_bounds (q : positive) :
  2 ^ (Zpos (digits2_pos q) - 1) <= Zpos q < 2 ^ Zpos (digits2_pos q).
Proof.
  induction q as [q IH|q IH|]; cbn [digits2_pos]; [| |cbn; lia];
    rewrite Pos2Z.inj_succ;
    replace (Z.succ (Zpos (digits2_pos q)) - 1) with (Z.succ (Zpos (digits2_pos q) - 1)) by lia;
    rewrite !Z.pow_succ_r by lia; lia.
Qed.

Lemma digits2_pos_safe (q : positive) : Zpos q < 2 ^ 53 -> Zpos (digits2_pos q) <= 53.
Proof.
  intros Hq. pose proof (digits2_pos_bounds q) as [Hlo _].
  destruct (Z.le_gt_cases (Zpos (digits2_pos q)) 53) as [H|H]; [exact H|].
  assert (2 ^ 53 <= 2 ^ (Zpos (digits2_pos q) - 1)) by (apply Z.pow_le_mono_r; lia).
  lia.
Qed.

Lemma fexp_small (d : Z) : 1 <= d -> fexp prec emax d = d - 53.
Proof. intros Hd. unfold fexp, emin, prec, emax. lia. Qed.

Lemma binary_round_aux_exact (s : bool) (q : positive) (j : nat) :
  Zpos (digits2_pos q) <= 53 ->
  53 - Zpos (digits2_pos q) <= Z.of_nat j ->
  binary_round_aux prec emax s (Zpos (shl q j)) (- Z.of_nat j) loc_Exact = canon s q.
Proof.
  intros Hd Hj. set (d := Zpos (digits2_pos q)) in *.
  assert (Hd1 : 1 <= d) by (unfold d; lia).
  set (r := Z.to_nat (53 - d)).
  assert (Hr : Z.of_nat r = 53 - d) by (unfold r; lia).
  unfold binary_round_aux.
  assert (E1 : shr_fexp prec emax (Zpos (shl q j)) (- Z.of_nat j) loc_Exact =
               (exact_record (shl q r), - Z.of_nat r)).
  { unfold shr_fexp. cbn [Zdigits2 shr_record_of_loc]. rewrite digits_shl. fold d.
    rewrite fexp_small by lia.
    destruct (d + Z.of_nat j + - Z.of_nat j - 53 - - Z.of_nat j) as [|p|p] eqn:En.
    - cbn [shr]. assert (j = r) as -> by lia. reflexivity.
    - cbn [shr]. rewrite iter_pos_nat.
      replace j with (Pos.to_nat p + r)%nat by lia.
      fold (exact_record (shl q (Pos.to_nat p + r))). rewrite shr_iter.
      f_equal. lia.
    - lia. }
  rewrite E1. cbn [exact_record shr_m loc_of_shr_record round_nearest_even].
  assert (E2 : shr_fexp prec emax (Zpos (shl q r)) (- Z.of_nat r) loc_Exact =
               (exact_record (shl q r), - Z.of_nat r)).
  { unfold shr_fexp. cbn [Zdigits2 shr_record_of_loc]. rewrite digits_shl. fold d.
    rewrite fexp_small by lia.
    replace (d + Z.of_nat r + - Z.of_nat r - 53 - - Z.of_nat r) with 0 by lia.
    reflexivity. }
  rewrite E2. cbn [exact_record shr_m].
  replace (Z.leb (- Z.of_nat r) (emax - prec)) with true
    by (symmetry; apply Z.leb_le; unfold emax, prec; lia).
  unfold canon. fold d. fold r. f_equal. lia.
Qed.

Lemma binary_round_exact (s : bool) (q : positive) (k : nat) :
  Zpos (digits2_pos q) <= 53 ->
  binary_round prec emax s (shl q k) (- Z.of_nat k) = canon s q.
Proof.
  intros Hd. unfold binary_round. rewrite digits_shl.
  set (d := Zpos (digits2_pos q)) in *.
  assert (Hd1 : 1 <= d) by (unfold d; lia).
  rewrite fexp_small by lia. unfold shl_align.
  destruct (d + Z.of_nat k + - Z.of_nat k - 53 - - Z.of_nat k) as [|p|p] eqn:En.
  - apply binary_round_aux_exact; fold d; lia.
  - apply binary_round_aux_exact; fold d; lia.
  - rewrite Pos_iter_xO, shl_add.
    replace (d + Z.of_nat k + - Z.of_nat k - 53) with (- Z.of_nat (k + Pos.to_nat p)) by lia.
    apply binary_round_aux_exact; fold d; lia.
Qed.

Lemma of_Z_pos (q : positive) : Zpos q < 2 ^ 53 -> of_Z (Zpos q) = canon false q.
Proof. intros Hq. apply (binary_round_exact false q 0), digits2_pos_safe, Hq. Qed.

Lemma of_Z_neg (q : positive) : Zpos q < 2 ^ 53 -> of_Z (Zneg q) = canon true q.
Proof. intros Hq. apply (binary_round_exact true q 0), digits2_pos_safe, Hq. Qed.

Lemma integerValue_canon (s : bool) (q : positive) :
  Zpos (digits2_pos q) <= 53 ->
  integerValue (canon s q) = Some ((if s then -1 else 1) * Zpos q).
Proof.
  intros Hd. unfold canon, integerValue. set (d := Zpos (digits2_pos q)) in *.
  rewrite Zpos_shl. rewrite Z2Nat.id by lia.
  destruct (Z.leb_spec 0 (d - 53)) as [H0|H0].
  - replace (53 - d) with 0 by lia. replace (d - 53) with 0 by lia.
    do 2 f_equal. lia.
  - replace (- (d - 53)) with (53 - d) by lia.
    rewrite Z.mod_mul by lia. cbn [Z.eqb].
    rewrite Z.div_mul by lia. reflexivity.
Qed.

Lemma integerValue_of_Z (z : Z) : safe z -> integerValue (of_Z z) = Some z.
Proof.
  unfold safe. intros Hz. destruct z as [|q|q]; [reflexivity| |].
  - rewrite of_Z_pos by lia. rewrite integerValue_canon by (apply digits2_pos_safe; lia).
    reflexivity.
  - rewrite of_Z_neg by lia. rewrite integerValue_canon by (apply digits2_pos_safe; lia).
    reflexivity.
Qed.

Lemma of_Z_inj (a b : Z) : safe a -> safe b -> of_Z a = of_Z b -> a = b.
Proof.
  intros Ha Hb Hab. apply (f_equal integerValue) in Hab.
  rewrite !integerValue_of_Z in Hab by assumption. congruence.
Qed.

Lemma shl_align_canon (q : positive) (ez : Z) :
  Zpos (digits2_pos q) <= 53 ->
  ez <= Zpos (digits2_pos q) - 53 ->
  fst (shl_align (shl q (Z.to_nat (53 - Zpos (digits2_pos q))))
                 (Zpos (digits2_pos q) - 53) ez) = shl q (Z.to_nat (- ez)).
Proof.
  intros Hd Hez. set (d := Zpos (digits2_pos q)) in *. unfold shl_align.
  destruct (ez - (d - 53)) as [|p|p] eqn:En; cbn [fst].
  - f_equal. lia.
  - lia.
  - rewrite Pos_iter_xO, shl_add. f_equal. lia.
Qed.

Lemma normalize_exact (c : Z) (K : nat) :
  safe c -> binary_normalize prec emax (c * 2 ^ Z.of_nat K) (- Z.of_nat K) false = of_Z c.
Proof.
  unfold safe. intros Hc. destruct c as [|q|q].
  - reflexivity.
  - rewrite of_Z_pos by lia. rewrite <- Zpos_shl. cbn [binary_normalize].
    apply binary_round_exact, digits2_pos_safe. lia.
  - rewrite of_Z_neg by lia.
    replace (Z.neg q * 2 ^ Z.of_nat K) with (Z.neg (shl q K))
      by (rewrite <- !Pos2Z.opp_pos, Zpos_shl; lia).
    cbn [binary_normalize]. apply binary_round_exact, digits2_pos_safe. lia.
Qed.

Lemma add_canon (sa sb : bool) (qa qb : positive) :
  Zpos qa < 2 ^ 53 -> Zpos qb < 2 ^ 53 ->
  safe (cond_Zopp sa (Zpos qa) + cond_Zopp sb (Zpos qb)) ->
  add (canon sa qa) (canon sb qb) = of_Z (cond_Zopp sa (Zpos qa) + cond_Zopp sb (Zpos qb)).
Proof.
  intros Ha Hb Hsum.
  pose proof (digits2_pos_safe qa Ha) as Hda. pose proof (digits2_pos_safe qb Hb) as Hdb.
  unfold add, canon, SFadd. cbv zeta.
  set (ez := Z.min (Zpos (digits2_pos qa) - 53) (Zpos (digits2_pos qb) - 53)).
  rewrite (shl_align_canon qa ez Hda) by (unfold ez; lia).
  rewrite (shl_align_canon qb ez Hdb) by (unfold ez; lia).
  set (K := Z.to_nat (- ez)).
  assert (HK : ez = - Z.of_nat K) by (unfold K, ez; lia).
  rewrite HK, <- (normalize_exact _ K Hsum). f_equal.
  rewrite !Zpos_shl. destruct sa, sb; cbn [cond_Zopp]; lia.
Qed.

Lemma of_Z_cases (z : Z) :
  safe z ->
  match z with
  | Z0 => of_Z z = S754_zero false
  | Zpos q => of_Z z = canon false q
  | Zneg q => of_Z z = canon true q
  end.
Proof.
  unfold safe. intros Hz. destruct z; [reflexivity | apply of_Z_pos; lia | apply of_Z_neg; lia].
Qed.

Lemma add_of_Z (a b : Z) :
  safe a -> safe b -> safe (a + b) -> add (of_Z a) (of_Z b) = of_Z (a + b).
Proof.
  intros Ha Hb Hab.
  pose proof (of_Z_cases a Ha) as Ea. pose proof (of_Z_cases b Hb) as Eb.
  unfold safe in Ha, Hb.
  destruct a as [|qa|qa], b as [|qb|qb]; rewrite ?Z.add_0_l, ?Z.add_0_r, ?Ea, ?Eb;
    try reflexivity.
  - apply (add_canon false false); [lia | lia | exact Hab].
  - apply (add_canon false true); [lia | lia | exact Hab].
  - apply (add_canon true false); [lia | lia | exact Hab].
  - apply (add_canon true true); [lia | lia | exact Hab].
Qed.

(* ===================================================================== *)
(** ** Properties of the field extraction                                  *)
(* ===================================================================== *)

Section Chains.

Context {A : Type} `{Truthy A}.

Lemma or_else_assoc (a b c : result A) :
  or_else (or_else a b) c = or_else a (or_else b c).
Proof.
  destruct a as [v|e]; simpl; [|reflexivity].
  destruct (truthy v) eqn:Hv; simpl; [rewrite Hv|]; reflexivity.
Qed.

Lemma or_else_falsy (x y : result A) : falsy x -> or_else x y = y.
Proof. intros (v & -> & Hv). simpl. rewrite Hv. reflexivity. Qed.

Lemma first_truthy_app_falsy (pre rest : list (result A)) (fb : result A) :
  Forall falsy pre ->
  Ingest.first_truthy (pre ++ rest) fb = Ingest.first_truthy rest fb.
Proof.
  induction 1 as [|x pre Hx _ IH]; simpl; [reflexivity|].
  rewrite or_else_falsy by assumption. exact IH.
Qed.

Lemma first_truthy_skip (pre post : list (result A)) (x fb : result A) :
  falsy x ->
  Ingest.first_truthy (pre ++ x :: post) fb = Ingest.first_truthy (pre ++ post) fb.
Proof.
  intros Hx. induction pre as [|y pre IH]; simpl.
  - apply or_else_falsy, Hx.
  - rewrite IH. reflexivity.
Qed.

Lemma first_truthy_hit (pre post : list (result A)) (v : A) (fb : result A) :
  Forall falsy pre -> truthy v = true ->
  Ingest.first_truthy (pre ++ Ok v :: post) fb = Ok v.
Proof.
  intros Hpre Hv. rewrite first_truthy_app_falsy by assumption.
  simpl. rewrite Hv. reflexivity.
Qed.

Lemma first_truthy_none (xs : list (result A)) (fb : result A) :
  Forall falsy xs -> Ingest.first_truthy xs fb = fb.
Proof.
  intros Hxs. rewrite <- (app_nil_r xs). apply first_truthy_app_falsy, Hxs.
Qed.

End Chains.

Lemma truthy_JNum (n : JsNum) : truthy (JNum n) = truthy n.
Proof. reflexivity. Qed.

Lemma truthy_num_false (n : JsNum) :
  truthy n = false <-> n = NaN \/ exists s, n = S754_zero s.
Proof.
  destruct n as [s|s| |s m e]; unfold truthy, truthy_num; split; eauto;
    try discriminate; intros [H|[s' H]]; discriminate H.
Qed.

Lemma truthy_not_nan (n : JsNum) : truthy n = true -> is_nan n = false.
Proof. destruct n; [discriminate | reflexivity | discriminate | reflexivity]. Qed.

Lemma of_Z_nan (z : Z) : is_nan (of_Z z) = false.
Proof.
  pose proof (of_Z_not_nan z) as H. destruct (of_Z z); try reflexivity.
  destruct H. reflexivity.
Qed.






(** What [parseInt] returns: [NaN], a zero, or the Number nearest to a
    non-zero integer. *)
Lemma parseIntString_shape (input : string) :
  parseIntString input = NaN \/
  (exists s, parseIntString input = S754_zero s) \/
  (exists z, z <> 0 /\ parseIntString input = of_Z z).
Proof.
  unfold parseIntString.
  destruct (match trimStart input with
            | String "-" rest => (-1, rest)
            | String "+" rest => (1, rest)
            | _ => (1, trimStart input)
            end) as [sign s1].
  destruct (match s1 with
            | String "0" (String "x" rest) => (16, rest)
            | String "0" (String "X" rest) => (16, rest)
            | _ => (10, s1)
            end) as [R s2].
  destruct (parseDigits R s2 None) as [m|]; [|left; reflexivity].
  destruct (Z.eqb_spec m 0) as [->|Hm]; [right; left; eauto|].
  assert (Hsign : sign = -1 \/ sign = 1 \/ sign * m <> 0 \/ sign * m = 0) by lia.
  destruct (Z.eq_dec (sign * m) 0) as [H0|H0].
  - right; left. exists false. rewrite H0. reflexivity.
  - right; right. exists (sign * m). auto.
Qed.

Lemma parsed_shape (data : JsValue) (k : string) (a : JsNum) :
  Ingest.parsed data k = Ok a ->
  a = NaN \/ (exists s, a = S754_zero s) \/ (exists z, z <> 0 /\ a = of_Z z).
Proof.
  unfold Ingest.parsed, parseInt.
  destruct (get data k) as [v|e]; cbn [bind]; [|discriminate].
  destruct (ToString v) as [s|e]; cbn [bind]; [|discriminate].
  intros [= <-]. apply parseIntString_shape.
Qed.

Lemma lift_or_else (a b : result JsNum) :
  bind (or_else a b) (fun n => Ok (JNum n)) =
  or_else (bind a (fun n => Ok (JNum n))) (bind b (fun n => Ok (JNum n))).
Proof.
  destruct a as [n|e]; simpl; [|reflexivity].
  rewrite truthy_JNum. destruct (truthy n); reflexivity.
Qed.

(** Each chain of the handler is the first truthy operand of its alias
    list, read in the listed order. *)
Lemma extracted_chain (attr : Ingest.Attribute) (data : JsValue) :
  Ingest.extracted attr data =
  Ingest.first_truthy (List.map (Ingest.read attr data) (Ingest.aliases attr))
                      (Ok (Ingest.fallback attr)).
Proof.
  destruct attr; simpl.
  - unfold Ingest.username. rewrite !or_else_assoc. reflexivity.
  - unfold Ingest.amount. rewrite !lift_or_else, !or_else_assoc. reflexivity.
  - unfold Ingest.message. rewrite !or_else_assoc. reflexivity.
Qed.

Lemma amount_chain (data : JsValue) :
  Ingest.amount data =
  Ingest.first_truthy (List.map (Ingest.parsed data) Ingest.amount_aliases) (Ok (of_Z 0)).
Proof. unfold Ingest.amount. rewrite !or_else_assoc. reflexivity. Qed.

Lemma first_truthy_inv {A : Type} `{Truthy A} (xs : list (result A)) (fb : result A) (a : A) :
  Ingest.first_truthy xs fb = Ok a ->
  fb = Ok a \/ (In (Ok a) xs /\ truthy a = true).
Proof.
  induction xs as [|x xs IH]; simpl; [auto|].
  destruct x as [v|e]; simpl; [|discriminate].
  destruct (truthy v) eqn:Hv.
  - intros [= ->]. right. auto.
  - intros Hfb. destruct (IH Hfb) as [?|[? ?]]; auto.
Qed.

(** The extracted amount is the fallback 0 or the truthy [parseInt] of
    one of the amount aliases. *)
Lemma amount_inv (data : JsValue) (a : JsNum) :
  Ingest.amount data = Ok a ->
  a = of_Z 0 \/
  (truthy a = true /\
   exists k, In k Ingest.amount_aliases /\ Ingest.parsed data k = Ok a).
Proof.
  rewrite amount_chain. intros Ha.
  destruct (first_truthy_inv _ _ _ Ha) as [[= <-]|[Hin Ht]].
  - left. reflexivity.
  - right. split; [exact Ht|].
    apply in_map_iff in Hin as (k & Hk & Hin). eauto.
Qed.

(** So it is never [NaN]: it is the Number nearest to some integer. *)
Lemma amount_is_rounded (data : JsValue) (a : JsNum) :
  Ingest.amount data = Ok a -> exists z, a = of_Z z.
Proof.
  intros Ha. destruct (amount_inv _ _ Ha) as [->|(Ht & k & _ & Hk)]; [exists 0; reflexivity|].
  destruct (parsed_shape _ _ _ Hk) as [->|[[s ->]|(z & _ & ->)]];
    [discriminate Ht | discriminate Ht | eauto].
Qed.

Lemma amount_not_nan (data : JsValue) (a : JsNum) :
  Ingest.amount data = Ok a -> is_nan a = false.
Proof. intros Ha. destruct (amount_is_rounded _ _ Ha) as [z ->]. apply of_Z_nan. Qed.

Lemma extract_inv (data : JsValue) (f : Ingest.Fields) :
  Ingest.extract data = Ok f ->
  Ingest.username data = Ok (Ingest.f_username f) /\
  Ingest.amount data = Ok (Ingest.f_amount f) /\
  Ingest.message data = Ok (Ingest.f_message f).
Proof.
  unfold Ingest.extract.
  destruct (Ingest.username data); simpl; [|discriminate].
  destruct (Ingest.amount data); simpl; [|discriminate].
  destruct (Ingest.message data); simpl; [|discriminate].
  intros [= <-]. auto.
Qed.

Lemma missing_alias_falsy (attr : Ingest.Attribute) (data : JsValue) (k : string) :
  get data k = Ok JUndefined -> falsy (Ingest.read attr data k).
Proof.
  intros Hk. destruct attr; simpl; unfold Ingest.parsed; rewrite Hk.
  - exists JUndefined. auto.
  - exists (JNum NaN). auto.
  - exists JUndefined. auto.
Qed.

(** With every alias of an attribute missing, its chain ends at the
    fallback. *)
Lemma extracted_fallback (attr : Ingest.Attribute) (data : JsValue) :
  (forall k, In k (Ingest.aliases attr) -> get data k = Ok JUndefined) ->
  Ingest.extracted attr data = Ok (Ingest.fallback attr).
Proof.
  intros Hmiss. rewrite extracted_chain. apply first_truthy_none.
  apply List.Forall_forall. intros x Hx.
  apply in_map_iff in Hx as (k & <- & Hk).
  apply missing_alias_falsy, Hmiss, Hk.
Qed.

Lemma extract_missing (data : JsValue) :
  (forall k, In k Ingest.all_aliases -> get data k = Ok JUndefined) ->
  Ingest.extract data =
  Ok {| Ingest.f_username := JStr "Anonymous"; Ingest.f_amount := of_Z 0;
        Ingest.f_message := JStr "" |}.
Proof.
  intros Hmiss.
  assert (Hall : forall attr k, In k (Ingest.aliases attr) -> get data k = Ok JUndefined).
  { intros attr k Hk. apply Hmiss. unfold Ingest.all_aliases.
    apply in_app_iff. destruct attr; simpl in Hk; [left; exact Hk | right | right];
      apply in_app_iff; [left | right]; exact Hk. }
  assert (Hu := extracted_fallback Ingest.Username data (Hall _)).
  assert (Ha := extracted_fallback Ingest.Amount data (Hall _)).
  assert (Hm := extracted_fallback Ingest.Message data (Hall _)).
  cbn [Ingest.extracted Ingest.fallback] in Hu, Ha, Hm. unfold Ingest.extract.
  rewrite Hu, Hm.
  destruct (Ingest.amount data) as [n|e]; simpl in *; [|discriminate].
  injection Ha as ->. reflexivity.
Qed.

(* ===================================================================== *)
(** ** The in-memory queue                                                 *)
(* ===================================================================== *)

Lemma enqueue_spec (d : Memory.Donation) (q : list Memory.Donation) :
  Memory.enqueue d q =
  (if Nat.leb Memory.MAX_QUEUE_SIZE (length q) then tail q else q) ++ [d].
Proof.
  unfold Memory.enqueue. rewrite length_app. simpl length.
  destruct (Nat.ltb_spec Memory.MAX_QUEUE_SIZE (length q + 1)) as [Hlt|Hge];
    destruct (Nat.leb_spec Memory.MAX_QUEUE_SIZE (length q)) as [Hle|Hgt];
    try lia; try reflexivity.
  destruct q as [|x q]; [|reflexivity].
  unfold Memory.MAX_QUEUE_SIZE in Hle. simpl in Hle. lia.
Qed.

Lemma enqueue_last (d : Memory.Donation) (q : list Memory.Donation) :
  last (Memory.enqueue d q) = Some d.
Proof. rewrite enqueue_spec. apply last_snoc. Qed.

Lemma enqueue_length (d : Memory.Donation) (q : list Memory.Donation) :
  (length q <= Memory.MAX_QUEUE_SIZE)%nat ->
  (length (Memory.enqueue d q) <= Memory.MAX_QUEUE_SIZE)%nat.
Proof.
  intros Hq. rewrite enqueue_spec, length_app.
  destruct (Nat.leb_spec Memory.MAX_QUEUE_SIZE (length q)) as [Hle|Hgt];
    cbn [length]; [|lia].
  unfold Memory.MAX_QUEUE_SIZE in *. destruct q; cbn [length tail] in *; lia.
Qed.

Lemma updateTopSpenders_queue (key : string) (u : JsValue) (a : JsNum) (st : Memory.State) :
  Memory.donationQueue (Memory.updateTopSpenders key u a st) = Memory.donationQueue st.
Proof.
  unfold Memory.updateTopSpenders.
  destruct (Memory.topSpenders st !! key); [reflexivity|].
  destruct (Memory.inherited key); reflexivity.
Qed.

(** An ingest whose extraction throws changes nothing. *)
Lemma memory_saweria_extract_throws (body : JsValue) (donationId isoNow : string) (now : Z)
    (st : Memory.State) (e : JsError) :
  Ingest.extract body = Throw e ->
  Memory.saweria body donationId isoNow now st = (st, Error 400 e).
Proof. intros He. unfold Memory.saweria. rewrite He. reflexivity. Qed.

(** Past the extraction, the donation is in the queue whatever happens
    next. *)
Lemma memory_saweria_queue (body : JsValue) (donationId isoNow : string) (now : Z)
    (st : Memory.State) (f : Ingest.Fields) :
  Ingest.extract body = Ok f ->
  Memory.donationQueue (fst (Memory.saweria body donationId isoNow now st)) =
  Memory.enqueue (Memory.makeDonation f donationId isoNow now) (Memory.donationQueue st).
Proof.
  intros He. unfold Memory.saweria. rewrite He.
  destruct (ToString (Ingest.f_username f)); simpl; [|reflexivity].
  apply updateTopSpenders_queue.
Qed.

(** The leaderboard object after an ingest: untouched, or updated at the
    property key of the extracted username. *)
Lemma memory_saweria_topSpenders (body : JsValue) (donationId isoNow : string) (now : Z)
    (st : Memory.State) :
  let st' := fst (Memory.saweria body donationId isoNow now st) in
  Memory.topSpenders st' = Memory.topSpenders st \/
  exists f key,
    Ingest.extract body = Ok f /\ ToString (Ingest.f_username f) = Ok key /\
    Memory.topSpenders st' =
    Memory.topSpenders
      (Memory.updateTopSpenders key (Ingest.f_username f) (Ingest.f_amount f) st).
Proof.
  unfold Memory.saweria.
  destruct (Ingest.extract body) as [f|e] eqn:He; simpl; [|auto].
  destruct (ToString (Ingest.f_username f)) as [key|e] eqn:Hk; simpl; [|auto].
  right. exists f, key. split; [reflexivity|]. split; [exact Hk|].
  unfold Memory.updateTopSpenders, Memory.set_queue; simpl.
  destruct (Memory.topSpenders st !! key); [reflexivity|].
  destruct (Memory.inherited key); reflexivity.
Qed.

(** An own entry survives an update, with the same total or with the
    amount added to it. *)
Lemma updateTopSpenders_entry (key k : string) (u : JsValue) (a : JsNum) (st : Memory.State)
    (e : Memory.Spender) :
  Memory.topSpenders st !! k = Some e ->
  exists e',
    Memory.topSpenders (Memory.updateTopSpenders key u a st) !! k = Some e' /\
    Memory.total_amount e' =
      (if decide (key = k) then add (Memory.total_amount e) a else Memory.total_amount e).
Proof.
  intros Hk. unfold Memory.updateTopSpenders.
  destruct (decide (key = k)) as [->|Hne].
  - rewrite Hk. simpl. rewrite lookup_insert_eq. eexists; split; reflexivity.
  - destruct (Memory.topSpenders st !! key) as [e0|]; simpl.
    + rewrite lookup_insert_ne by assumption. eauto.
    + destruct (Memory.inherited key); simpl.
      * eauto.
      * rewrite lookup_insert_ne by assumption. eauto.
Qed.

(** For a key that no plain object inherits, the update creates the entry
    with the amount, or adds the amount to it. *)
Lemma updateTopSpenders_total (key : string) (u : JsValue) (a : JsNum) (st : Memory.State) :
  Memory.inherited key = false ->
  Memory.total_amount <$> Memory.topSpenders (Memory.updateTopSpenders key u a st) !! key =
  Some (add (default (of_Z 0) (Memory.total_amount <$> Memory.topSpenders st !! key)) a).
Proof.
  intros Hin. unfold Memory.updateTopSpenders.
  destruct (Memory.topSpenders st !! key) as [e|] eqn:Hk; simpl.
  - rewrite lookup_insert_eq. reflexivity.
  - rewrite Hin. simpl. rewrite lookup_insert_eq. reflexivity.
Qed.

(** For an inherited key the leaderboard object gets no entry. *)
Lemma updateTopSpenders_inherited (key : string) (u : JsValue) (a : JsNum) (st : Memory.State) :
  Memory.inherited key = true ->
  Memory.topSpenders st !! key = None ->
  Memory.topSpenders (Memory.updateTopSpenders key u a st) = Memory.topSpenders st.
Proof.
  intros Hin Hk. unfold Memory.updateTopSpenders. rewrite Hk, Hin. reflexivity.
Qed.

(* ===================================================================== *)
(** ** The statements of the durable server                                *)
(* ===================================================================== *)

Lemma num_eqb_eq (a b : JsNum) : num_eqb a b = true -> a = b.
Proof.
  destruct a as [s|s| |s m e], b as [s'|s'| |s' m' e']; cbn [num_eqb]; try discriminate.
  - intros ->%Bool.eqb_prop. reflexivity.
  - intros ->%Bool.eqb_prop. reflexivity.
  - reflexivity.
  - intros H. apply andb_true_iff in H as [H He]. apply andb_true_iff in H as [Hs Hm].
    apply Bool.eqb_prop in Hs. apply Pos.eqb_eq in Hm. apply Z.eqb_eq in He.
    subst. reflexivity.
Qed.

Lemma num_eqb_refl (a : JsNum) : num_eqb a a = true.
Proof.
  destruct a as [s|s| |s m e]; cbn [num_eqb];
    rewrite ?Bool.eqb_reflx, ?Pos.eqb_refl, ?Z.eqb_refl; reflexivity.
Qed.

Lemma sql_eqb_eq (a b : Durable.SqlValue) : Durable.sql_eqb a b = true -> a = b.
Proof.
  destruct a as [|[x|x]|x], b as [|[y|y]|y]; simpl; try discriminate.
  - intros ->%Z.eqb_eq. reflexivity.
  - intros H%num_eqb_eq. do 2 f_equal. destruct x, y; cbn in H; congruence.
  - intros ->%String.eqb_eq. reflexivity.
Qed.

Lemma sql_eqb_refl (a : Durable.SqlValue) :
  Durable.is_null a = false -> Durable.sql_eqb a a = true.
Proof.
  destruct a as [|[x|x]|x]; simpl;
    [discriminate | intros _; apply Z.eqb_refl | intros _; apply num_eqb_refl
     | intros _; apply String.eqb_refl].
Qed.

Lemma binds_one_scalar (u : JsValue) (x : Durable.SqlValue) :
  Durable.bindValue u = Ok x -> Durable.binds_one u x.
Proof.
  intros Hu rest b. destruct u as [| | | | |items|fields]; try discriminate;
    cbn [Durable.bindArgs]; rewrite Hu; reflexivity.
Qed.

Lemma binds_one_array (items : list JsValue) (x : Durable.SqlValue) :
  Durable.bindArray items = Ok [x] -> Durable.binds_one (JArr items) x.
Proof.
  intros Hu rest b. cbn [Durable.bindArgs]. rewrite Hu. simpl.
  destruct (Durable.bindArgs rest b); reflexivity.
Qed.

Lemma binds_one_str (s : string) : Durable.binds_one (JStr s) (Durable.SqlText s).
Proof. apply binds_one_scalar. reflexivity. Qed.

(** A Number other than [NaN] binds as that REAL. *)
Lemma binds_one_num (a : JsNum) :
  is_nan a = false ->
  Durable.binds_one (JNum a) (Durable.SqlNum (Durable.NumReal (Durable.as_real a))).
Proof.
  intros Ha. apply binds_one_scalar. cbn [Durable.bindValue]. unfold Durable.of_double.
  rewrite Ha. reflexivity.
Qed.

Lemma binds_one_clock (z : Z) :
  Durable.binds_one (JNum (of_Z z)) (Durable.SqlNum (Durable.NumReal (Durable.as_real (of_Z z)))).
Proof. apply binds_one_num, of_Z_nan. Qed.

Lemma to_double_as_real (a : JsNum) : is_nan a = false -> Durable.to_double (Durable.as_real a) = a.
Proof. destruct a; [reflexivity | reflexivity | discriminate | reflexivity]. Qed.

Lemma to_double_not_nan (r : Durable.SqlReal) : is_nan (Durable.to_double r) = false.
Proof. destruct r; reflexivity. Qed.

(** What one value binds in a statement whose other arguments are
    scalars. *)
Lemma bindArgs_single (u : JsValue) (b : bool) (vs : list Durable.SqlValue) :
  Durable.bindArgs [u] b = Ok vs ->
  match u with
  | JArr items => Durable.bindArray items = Ok vs
  | JObj _ => b = false /\ vs = []
  | _ => exists x, Durable.bindValue u = Ok x /\ vs = [x]
  end.
Proof.
  destruct u as [| |c|n|s|items|fields]; cbn [Durable.bindArgs Durable.bindValue bind];
    try discriminate.
  - intros [= <-]. eauto.
  - intros [= <-]. eauto.
  - intros [= <-]. eauto.
  - destruct (Durable.bindArray items) as [ws|e]; cbn [bind]; [|discriminate].
    rewrite app_nil_r. auto.
  - destruct b; [discriminate|]. intros [= <-]. auto.
Qed.

Lemma bound_number (a : JsNum) (n : Durable.SqlNumber) :
  from_option (fun r => Durable.SqlNum (Durable.NumReal r)) Durable.SqlNull
              (Durable.of_double a) = Durable.SqlNum n ->
  is_nan a = false /\ n = Durable.NumReal (Durable.as_real a).
Proof.
  unfold Durable.of_double. destruct (is_nan a); [discriminate|]. intros [= <-]. auto.
Qed.

(** The username of an upsert whose three parameters are filled binds
    exactly one value. *)
Lemma upsert_binds_one (u : JsValue) (a : JsNum) (x d : Durable.SqlValue)
    (n : Durable.SqlNumber) :
  Durable.bindArgs [u; u; JNum a] false = Ok [x; d; Durable.SqlNum n] ->
  Durable.binds_one u x /\ d = x /\ is_nan a = false /\
  n = Durable.NumReal (Durable.as_real a).
Proof.
  destruct u as [| |c|m|s|items|fields]; cbn [Durable.bindArgs Durable.bindValue bind];
    try discriminate.
  - intros [= <- <- H]. apply bound_number in H as [Ha ->].
    split; [apply binds_one_scalar; reflexivity | auto].
  - intros [= <- <- H]. apply bound_number in H as [Ha ->].
    split; [apply binds_one_scalar; reflexivity | auto].
  - intros [= <- <- H]. apply bound_number in H as [Ha ->].
    split; [apply binds_one_str | auto].
  - destruct (Durable.bindArray items) as [vs|e] eqn:Hvs; cbn [bind]; [|discriminate].
    intros [= H]. pose proof (f_equal (@length _) H) as Hlen.
    rewrite !length_app in Hlen. cbn [length] in Hlen.
    destruct vs as [|v [|w vs']]; cbn [length] in Hlen; try lia.
    cbn [app] in H. injection H as <- <- H. apply bound_number in H as [Ha ->].
    split; [apply binds_one_array; exact Hvs | auto].
Qed.

(** A successful upsert: the username bound one value, not NULL, the
    amount was not [NaN], and the table took it. *)
Lemma updateTopSpender_inv (u : JsValue) (a : JsNum) (db db' : Durable.Db) :
  Durable.updateTopSpender_run u u a db = Ok db' ->
  exists x rows,
    Durable.binds_one u x /\ is_nan a = false /\ Durable.is_null x = false /\
    Durable.upsert x x (Durable.stored_amount a) (Durable.top_spenders db) = Ok rows /\
    db' = {| Durable.donations := Durable.donations db; Durable.top_spenders := rows |}.
Proof.
  unfold Durable.updateTopSpender_run, Durable.stored_amount.
  destruct (Durable.bindArgs [u; u; JNum a] false) as [vals|e] eqn:Hb; cbn [bind];
    [|discriminate].
  destruct vals as [|x [|d [|[|n|t] [|]]]]; try discriminate.
  apply upsert_binds_one in Hb as (Hx & -> & Ha & ->).
  destruct (Durable.is_null x) eqn:Hnull; [discriminate|]. cbn [orb].
  destruct (Durable.upsert x x _ _) as [rows|e] eqn:Hup; cbn [bind]; [|discriminate].
  intros [= <-]. exists x, rows. auto.
Qed.

(** A successful insert appends one undelivered row with the given id and
    leaves the leaderboard alone. *)
Lemma insertDonation_inv (donationId : string) (u d : JsValue) (a : JsNum) (m : JsValue)
    (isoNow : string) (now : Z) (db db' : Durable.Db) :
  Durable.insertDonation_run donationId u d a m isoNow now db = Ok db' ->
  existsb (fun row => String.eqb (Durable.id row) donationId) (Durable.donations db) = false /\
  exists row,
    db' = {| Durable.donations := Durable.donations db ++ [row];
             Durable.top_spenders := Durable.top_spenders db |} /\
    Durable.id row = donationId /\ Durable.delivered row = false.
Proof.
  unfold Durable.insertDonation_run. rewrite (binds_one_str donationId).
  destruct (Durable.bindArgs _ false) as [ws|e]; cbn [bind]; [|discriminate].
  destruct ws as [|x1 [|x2 [|x3 [|x4 [|[| |t] [|[|n|] [|]]]]]]]; try discriminate.
  destruct (Durable.is_null x1 || Durable.is_null x2 || Durable.is_null x3);
    [discriminate|].
  destruct (existsb _ (Durable.donations db)); [discriminate|].
  intros [= <-]. split; [reflexivity|]. eexists. split; [reflexivity|]. auto.
Qed.

(** When the username binds one value and the message is a scalar, the
    columns of the inserted row are the arguments in their order. *)
Lemma insertDonation_aligned (donationId : string) (u : JsValue) (x : Durable.SqlValue)
    (a : JsNum) (m : JsValue) (isoNow : string) (now : Z) (db db' : Durable.Db) :
  Durable.binds_one u x -> is_nan a = false ->
  Durable.insertDonation_run donationId u u a m isoNow now db = Ok db' ->
  exists row,
    db' = {| Durable.donations := Durable.donations db ++ [row];
             Durable.top_spenders := Durable.top_spenders db |} /\
    Durable.id row = donationId /\ Durable.username row = x /\
    Durable.display_name row = x /\
    Durable.amount row = Durable.SqlNum (Durable.stored_amount a) /\
    Durable.received_at row = now /\
    Durable.delivered row = false.
Proof.
  intros Hu Ha. unfold Durable.insertDonation_run.
  rewrite (binds_one_str donationId), !Hu, (binds_one_num a Ha).
  destruct (Durable.bindArgs _ false) as [ws|e]; cbn [bind]; [|discriminate].
  destruct ws as [|x4 [|[| |t] [|[|n|] [|]]]]; try discriminate.
  destruct (Durable.is_null x || Durable.is_null x || _); [discriminate|].
  destruct (existsb _ (Durable.donations db)); [discriminate|].
  intros [= <-]. eexists. split; [reflexivity|]. simpl. auto 10.
Qed.

(** What a request to [/saweria] does to the database: nothing; or the
    insert alone; or the insert and the upsert, with the columns of the
    new row in the order of the arguments. *)
Lemma durable_saweria_inv (body : JsValue) (donationId isoNow : string) (now : Z)
    (db db' : Durable.Db) (r : Response SaweriaBody) :
  Durable.saweria body donationId isoNow now db = (db', r) ->
  (db' = db /\ is_error r = true) \/
  (exists row,
     db' = {| Durable.donations := Durable.donations db ++ [row];
              Durable.top_spenders := Durable.top_spenders db |} /\
     Durable.id row = donationId /\ Durable.delivered row = false /\
     is_error r = true) \/
  (exists f x rows row,
     Ingest.extract body = Ok f /\ Durable.binds_one (Ingest.f_username f) x /\
     Durable.is_null x = false /\
     Durable.upsert x x (Durable.stored_amount (Ingest.f_amount f))
       (Durable.top_spenders db) = Ok rows /\
     db' = {| Durable.donations := Durable.donations db ++ [row];
              Durable.top_spenders := rows |} /\
     Durable.id row = donationId /\ Durable.username row = x /\
     Durable.display_name row = x /\
     Durable.amount row = Durable.SqlNum (Durable.stored_amount (Ingest.f_amount f)) /\
     Durable.received_at row = now /\
     Durable.delivered row = false /\
     r = Json {| success := true; donation_id := donationId;
                 queue_size := Durable.undeliveredCount db' |}).
Proof.
  unfold Durable.saweria.
  destruct (Ingest.extract body) as [f|e] eqn:He; [|intros [= <- <-]; auto].
  destruct (Durable.insertDonation_run _ _ _ _ _ _ _ db) as [db1|e] eqn:Hins;
    [|intros [= <- <-]; auto].
  destruct (Durable.updateTopSpender_run _ _ _ db1) as [db2|e] eqn:Hup.
  - intros [= <- <-]. right; right.
    apply updateTopSpender_inv in Hup as (x & rows & Hx & Ha & Hnull & Hrows & Hdb2).
    apply (insertDonation_aligned _ _ x) in Hins as (row & Hdb1 & ?); [|exact Hx|exact Ha].
    subst db1. cbn [Durable.top_spenders Durable.donations] in *.
    exists f, x, rows, row. rewrite Hdb2. intuition.
  - intros [= <- <-]. right; left.
    apply insertDonation_inv in Hins as (_ & row & Hdb1 & ? & ?).
    subst db1. exists row. auto.
Qed.

(** With a string for username and message, a durable ingest under a
    fresh id inserts its row and runs the upsert. *)
Lemma durable_saweria_strings (body : JsValue) (u m : string) (a : JsNum)
    (donationId isoNow : string) (now : Z) (db : Durable.Db) :
  Ingest.extract body =
    Ok {| Ingest.f_username := JStr u; Ingest.f_amount := a;
          Ingest.f_message := JStr m |} ->
  existsb (fun row => String.eqb (Durable.id row) donationId) (Durable.donations db) = false ->
  let row := {| Durable.id := donationId; Durable.username := Durable.SqlText u;
                Durable.display_name := Durable.SqlText u;
                Durable.amount := Durable.SqlNum (Durable.stored_amount a);
                Durable.message := Durable.SqlText m;
                Durable.timestamp := isoNow; Durable.received_at := now;
                Durable.delivered := false |} in
  Durable.saweria body donationId isoNow now db =
  match Durable.upsert (Durable.SqlText u) (Durable.SqlText u) (Durable.stored_amount a)
                       (Durable.top_spenders db) with
  | Ok rows =>
      let db' := {| Durable.donations := Durable.donations db ++ [row];
                    Durable.top_spenders := rows |} in
      (db', Json {| success := true; donation_id := donationId;
                    queue_size := Durable.undeliveredCount db' |})
  | Throw e =>
      ({| Durable.donations := Durable.donations db ++ [row];
          Durable.top_spenders := Durable.top_spenders db |}, Error 400 e)
  end.
Proof.
  intros He Hfresh. pose proof (extract_inv _ _ He) as (_ & Ha & _).
  cbn [Ingest.f_amount] in Ha. apply amount_not_nan in Ha.
  unfold Durable.saweria. rewrite He. cbn [Ingest.f_username
    Ingest.f_amount Ingest.f_message]. unfold Durable.insertDonation_run.
  rewrite (binds_one_str donationId), !(binds_one_str u), (binds_one_num a Ha),
    (binds_one_str m), (binds_one_str isoNow), (binds_one_clock now).
  cbn [Durable.bindArgs bind Durable.is_null orb]. rewrite Hfresh.
  unfold Durable.updateTopSpender_run.
  rewrite !(binds_one_str u), (binds_one_num a Ha).
  cbn [Durable.bindArgs bind Durable.is_null orb Durable.top_spenders Durable.store_integer].
  unfold Durable.stored_amount.
  destruct (Durable.upsert _ _ _ _) as [rows|e]; reflexivity.
Qed.

(** SQLite's sum is NULL only when both operands are infinite. *)
Lemma to_real_not_nan (n : Durable.SqlNumber) : is_nan (Durable.to_real n) = false.
Proof. destruct n as [z|r]; [apply of_Z_nan | apply to_double_not_nan]. Qed.

Lemma add_is_nan (a b : JsNum) :
  is_nan a = false -> is_nan b = false -> is_infinite a && is_infinite b = false ->
  is_nan (add a b) = false.
Proof.
  intros Ha Hb Hinf.
  assert (H : add a b <> NaN).
  { apply add_not_nan; [intros -> | intros -> | exact Hinf]; discriminate. }
  destruct (add a b); try reflexivity. destruct H. reflexivity.
Qed.

Lemma sql_add_some (t a : Durable.SqlNumber) :
  is_infinite (Durable.to_real t) && is_infinite (Durable.to_real a) = false ->
  exists t', Durable.sql_add t a = Some t'.
Proof.
  intros Hinf.
  assert (Hsum : exists r, Durable.of_double (add (Durable.to_real t) (Durable.to_real a))
                           = Some r).
  { unfold Durable.of_double.
    rewrite add_is_nan by (try apply to_real_not_nan; exact Hinf). eauto. }
  destruct Hsum as [r Hr].
  destruct t as [x|x], a as [y|y]; cbn [Durable.sql_add Durable.to_real] in *;
    rewrite ?Hr; cbn [fmap option_fmap option_map]; eauto.
  destruct (Z.leb _ _ && Z.ltb _ _); eauto.
Qed.

(** An upsert of an amount that is not infinite is never refused. *)
Lemma upsert_finite (u d : Durable.SqlValue) (a : Durable.SqlNumber)
    (rows : list Durable.SpenderRow) :
  is_infinite (Durable.to_real a) = false ->
  exists rows', Durable.upsert u d a rows = Ok rows'.
Proof.
  intros Ha. induction rows as [|row rows [rows' IH]]; cbn [Durable.upsert]; [eauto|].
  destruct (Durable.sql_eqb (Durable.s_username row) u).
  - destruct (sql_add_some (Durable.total_amount row) a) as [t Ht];
      [rewrite Ha; apply andb_false_r|].
    rewrite Ht. eauto.
  - rewrite IH. cbn [bind]. eauto.
Qed.

(* ===================================================================== *)
(** ** Alias resolution                                                    *)
(* ===================================================================== *)

(** C2, as the code has it. For each attribute (username, amount,
    message) the value comes from the first alias, in the listed order,
    whose operand is truthy: a non-empty string or other truthy value for
    username and message, a parse other than 0 and [NaN] for the amount. The
    aliases listed before it are passed over when their operands are falsy
    (missing, empty, zero or not numeric). When every operand is falsy the
    fallback applies: "Anonymous", 0 and "". *)
Theorem first_truthy_alias_wins :
  (forall (attr : Ingest.Attribute) (data : JsValue) (pre post : list string)
          (k : string) (v : JsValue),
      Ingest.aliases attr = pre ++ k :: post ->
      Forall (fun j => falsy (Ingest.read attr data j)) pre ->
      Ingest.read attr data k = Ok v ->
      truthy v = true ->
      Ingest.extracted attr data = Ok v) /\
  (forall (attr : Ingest.Attribute) (data : JsValue),
      Forall (fun j => falsy (Ingest.read attr data j)) (Ingest.aliases attr) ->
      Ingest.extracted attr data = Ok (Ingest.fallback attr)).
Proof.
  split.
  - intros attr data pre post k v Hsplit Hpre Hk Hv.
    rewrite extracted_chain, Hsplit, map_app. cbn [List.map]. rewrite Hk.
    apply first_truthy_hit; [|exact Hv].
    apply List.Forall_map. exact Hpre.
  - intros attr data Hall. rewrite extracted_chain.
    apply first_truthy_none, List.Forall_map, Hall.
Qed.

Lemma first_truthy_alias_wins_witness :
  Ingest.extracted Ingest.Amount Sample.abc_500 = Ok (JNum (of_Z 500)) /\
  Ingest.extracted Ingest.Amount (JObj [("amount", JStr "abc")]) = Ok (JNum (of_Z 0)).
Proof.
  destruct first_truthy_alias_wins as [Hhit Hnone]. split.
  - apply (Hhit Ingest.Amount Sample.abc_500
             ["amount_raw"] ["nominal"; "donation"] "amount").
    + reflexivity.
    + constructor; [|constructor]. exists (JNum NaN). split; reflexivity.
    + reflexivity.
    + reflexivity.
  - apply (Hnone Ingest.Amount (JObj [("amount", JStr "abc")])).
    repeat constructor; exists (JNum NaN); split; reflexivity.
Defined.

(** C2 as worded fails: with a first amount alias that is present but not
    numeric the handler takes the next alias (500), where the wording
    gives 0. *)
Lemma non_numeric_first_alias_falls_through :
  Ingest.amount Sample.abc_500 = Ok (of_Z 500) /\
  Ingest.spec_amount Sample.abc_500 = Ok (of_Z 0) /\
  Ingest.amount Sample.abc_500 <> Ingest.spec_amount Sample.abc_500.
Proof. split; [reflexivity|]. split; [reflexivity|]. discriminate. Qed.

(** C10. Presence of an alias is judged by truthiness. An alias whose
    operand is falsy is skipped in favour of the next alias: when the
    aliases before it are falsy too and the next one is truthy, the next
    one gives the value; when it is the last alias, the fallback does. In
    general the chain reads as if the falsy alias were not listed. For
    username and message the operand is the field itself, so a field that
    is present and empty is falsy; for the amount it is the [parseInt] of
    the field, falsy when that is a zero or [NaN]. A payload whose
    username aliases are all present and empty gets the username
    "Anonymous". *)
Theorem falsy_alias_is_skipped :
  (forall (attr : Ingest.Attribute) (data : JsValue) (pre post : list string)
          (k next : string) (v : JsValue),
      Ingest.aliases attr = pre ++ k :: next :: post ->
      Forall (fun j => falsy (Ingest.read attr data j)) pre ->
      falsy (Ingest.read attr data k) ->
      Ingest.read attr data next = Ok v ->
      truthy v = true ->
      Ingest.extracted attr data = Ok v) /\
  (forall (attr : Ingest.Attribute) (data : JsValue) (pre : list string) (k : string),
      Ingest.aliases attr = pre ++ [k] ->
      Forall (fun j => falsy (Ingest.read attr data j)) pre ->
      falsy (Ingest.read attr data k) ->
      Ingest.extracted attr data = Ok (Ingest.fallback attr)) /\
  (forall (attr : Ingest.Attribute) (data : JsValue) (pre post : list string) (k : string),
      Ingest.aliases attr = pre ++ k :: post ->
      falsy (Ingest.read attr data k) ->
      Ingest.extracted attr data =
      Ingest.first_truthy (List.map (Ingest.read attr data) (pre ++ post))
                          (Ok (Ingest.fallback attr))) /\
  (forall (attr : Ingest.Attribute) (fields : list (string * JsValue)) (k : string)
          (v : JsValue),
      attr <> Ingest.Amount ->
      lookup_field k fields = Some v -> truthy v = false ->
      falsy (Ingest.read attr (JObj fields) k)) /\
  (forall (data : JsValue) (k : string) (n : JsNum),
      Ingest.parsed data k = Ok n ->
      (falsy (Ingest.read Ingest.Amount data k) <-> n = NaN \/ exists s, n = S754_zero s)) /\
  (forall fields : list (string * JsValue),
      (forall k, In k Ingest.username_aliases -> lookup_field k fields = Some (JStr "")) ->
      Ingest.username (JObj fields) = Ok (JStr "Anonymous")).
Proof.
  split; [|split; [|split; [|split; [|split]]]].
  - intros attr data pre post k next v Hsplit Hpre Hk Hnext Hv.
    rewrite extracted_chain, Hsplit.
    change (pre ++ k :: next :: post) with (pre ++ [k] ++ next :: post).
    rewrite app_assoc, map_app. cbn [List.map]. rewrite Hnext.
    apply first_truthy_hit; [|exact Hv].
    apply List.Forall_map, Forall_app. split; [exact Hpre|].
    constructor; [exact Hk | constructor].
  - intros attr data pre k Hsplit Hpre Hk.
    rewrite extracted_chain, Hsplit. apply first_truthy_none.
    apply List.Forall_map, Forall_app. split; [exact Hpre|].
    constructor; [exact Hk | constructor].
  - intros attr data pre post k Hsplit Hk.
    rewrite extracted_chain, Hsplit, !map_app. cbn [List.map].
    apply first_truthy_skip, Hk.
  - intros attr fields k v Hattr Hk Hv. exists v.
    destruct attr; [| contradiction |]; simpl; rewrite Hk; auto.
  - intros data k n Hn. unfold falsy. cbn [Ingest.read]. rewrite Hn. cbn [bind].
    rewrite <- truthy_num_false. split.
    + intros (v & [= <-] & Hv). exact Hv.
    + intros Hv. exists (JNum n). auto.
  - intros fields Hall.
    change (Ingest.extracted Ingest.Username (JObj fields) =
            Ok (Ingest.fallback Ingest.Username)).
    rewrite extracted_chain. apply first_truthy_none.
    apply List.Forall_forall. intros x Hx.
    apply in_map_iff in Hx as (k & <- & Hk).
    exists (JStr ""). simpl. rewrite (Hall k Hk). auto.
Qed.

Lemma falsy_alias_is_skipped_witness :
  Ingest.extracted Ingest.Amount Sample.abc_500 = Ok (JNum (of_Z 500)) /\
  Ingest.username Sample.empty_names = Ok (JStr "Anonymous").
Proof.
  destruct falsy_alias_is_skipped as (Hnext & _ & _ & _ & _ & Hnames). split.
  - apply (Hnext Ingest.Amount Sample.abc_500 [] ["nominal"; "donation"]
             "amount_raw" "amount").
    + reflexivity.
    + constructor.
    + exists (JNum NaN). split; reflexivity.
    + reflexivity.
    + reflexivity.
  - apply Hnames. intros k Hk. simpl in Hk.
    repeat (destruct Hk as [<-|Hk]; [reflexivity|]). contradiction.
Defined.

(** C9. When every alias field of every attribute is missing, the
    extraction gives username "Anonymous", amount 0 and message "", and
    these are the fields of the donation that either server creates: the
    object pushed on the queue, or the row inserted under a fresh id. *)
Theorem missing_aliases_give_defaults (data : JsValue) :
  (forall k, In k Ingest.all_aliases -> get data k = Ok JUndefined) ->
  Ingest.extract data =
    Ok {| Ingest.f_username := JStr "Anonymous"; Ingest.f_amount := of_Z 0;
          Ingest.f_message := JStr "" |} /\
  (forall (donationId isoNow : string) (now : Z) (st : Memory.State),
      exists st' r d,
        Memory.saweria data donationId isoNow now st = (st', Json r) /\
        last (Memory.donationQueue st') = Some d /\
        Memory.username d = JStr "Anonymous" /\ Memory.amount d = of_Z 0 /\
        Memory.message d = JStr "") /\
  (forall (donationId isoNow : string) (now : Z) (db : Durable.Db),
      existsb (fun row => String.eqb (Durable.id row) donationId) (Durable.donations db)
        = false ->
      exists db' r row,
        Durable.saweria data donationId isoNow now db = (db', Json r) /\
        last (Durable.donations db') = Some row /\
        Durable.username row = Durable.SqlText "Anonymous" /\
        Durable.amount row = Durable.SqlNum (Durable.NumInteger 0) /\
        Durable.message row = Durable.SqlText "").
Proof.
  intros Hmiss. pose proof (extract_missing data Hmiss) as He.
  split; [exact He|]. split.
  - intros donationId isoNow now st.
    pose proof (memory_saweria_queue data donationId isoNow now st _ He) as Hq.
    unfold Memory.saweria in *. rewrite He in *. cbn [Ingest.f_username ToString] in *.
    eexists _, _, _. split; [reflexivity|]. cbn [fst] in Hq. rewrite Hq, enqueue_last.
    split; [reflexivity|]. auto.
  - intros donationId isoNow now db Hfresh.
    rewrite (durable_saweria_strings data _ _ _ donationId isoNow now db He Hfresh).
    destruct (upsert_finite (Durable.SqlText "Anonymous") (Durable.SqlText "Anonymous")
                (Durable.stored_amount (of_Z 0)) (Durable.top_spenders db) eq_refl)
      as [rows ->].
    eexists _, _, _. split; [reflexivity|]. cbn [Durable.donations].
    rewrite last_snoc. split; [reflexivity|]. auto.
Qed.

Lemma missing_aliases_give_defaults_witness :
  Ingest.extract (JObj [("unrelated", JStr "x")]) =
    Ok {| Ingest.f_username := JStr "Anonymous"; Ingest.f_amount := of_Z 0;
          Ingest.f_message := JStr "" |}.
Proof.
  apply (missing_aliases_give_defaults (JObj [("unrelated", JStr "x")])).
  intros k Hk. simpl in Hk.
  repeat (destruct Hk as [<-|Hk]; [reflexivity|]). contradiction.
Defined.

(* ===================================================================== *)
(** ** The stored amount                                                   *)
(* ===================================================================== *)

(** A safe integer is stored as that INTEGER. *)
Lemma stored_amount_safe (z : Z) :
  safe z -> Durable.stored_amount (of_Z z) = Durable.NumInteger z.
Proof.
  intros Hz. unfold Durable.stored_amount, Durable.integer_affinity.
  rewrite to_double_as_real by apply of_Z_nan. rewrite (integerValue_of_Z z Hz).
  unfold safe in Hz. assert (H63 : 2 ^ 53 < 2 ^ 63) by reflexivity.
  replace (Z.ltb (- 2 ^ 63) z) with true by (symmetry; apply Z.ltb_lt; lia).
  replace (Z.ltb z (2 ^ 63)) with true by (symmetry; apply Z.ltb_lt; lia).
  reflexivity.
Qed.

(** An integral amount within 64 bits is stored as that INTEGER. *)
Lemma stored_amount_integral (a : JsNum) (v : Z) :
  integerValue a = Some v -> - 2 ^ 63 < v < 2 ^ 63 ->
  Durable.stored_amount a = Durable.NumInteger v.
Proof.
  intros Hv [Hlo Hhi]. unfold Durable.stored_amount, Durable.integer_affinity.
  rewrite to_double_as_real by (destruct a; [reflexivity | | discriminate | ]; reflexivity).
  rewrite Hv.
  replace (Z.ltb (- 2 ^ 63) v) with true by (symmetry; apply Z.ltb_lt; exact Hlo).
  replace (Z.ltb v (2 ^ 63)) with true by (symmetry; apply Z.ltb_lt; exact Hhi).
  reflexivity.
Qed.





(** Beyond the doubles the amount is an infinity: a string of 310 nines
    is stored as [Infinity] by both servers, the durable one as a
    REAL. *)
Example huge_amount_is_infinite :
  Ingest.amount Sample.budi_huge = Ok (S754_infinity false) /\
  Memory.amount <$>
    last (Memory.donationQueue
            (fst (Memory.saweria Sample.budi_huge "1-a" "t" 1 Memory.initial)))
    = Some (S754_infinity false) /\
  Durable.amount <$>
    last (Durable.donations
            (fst (Durable.saweria Sample.budi_huge "1-a" "t" 1 Durable.empty)))
    = Some (Durable.SqlNum (Durable.NumReal (Durable.RealInfinity false))).
Proof. repeat split; vm_compute; reflexivity. Qed.

(** Above [2^53] the amount is rounded: [parseInt("9007199254740993")] is
    9007199254740992. *)
Example large_amount_is_rounded :
  parseInt (JStr "9007199254740993") = Ok (of_Z 9007199254740992) /\
  integerValue (of_Z 9007199254740993) = Some 9007199254740992.
Proof. split; vm_compute; reflexivity. Qed.

(** An amount given as a JSON number is printed before it is parsed:
    5000 reads back as 5000, 5000.75 as 5000, and 1e21, which prints as
    "1e+21", as 1. *)
Example number_amounts :
  Ingest.amount Sample.budi_number_5000 = Ok (of_Z 5000) /\
  ToString (JNum (S754_finite false 5498382772600832 (-40))) = Ok "5000.75" /\
  parseInt (JNum (S754_finite false 5498382772600832 (-40))) = Ok (of_Z 5000) /\
  ToString (JNum (of_Z (10 ^ 21))) = Ok "1e+21" /\
  parseInt (JNum (of_Z (10 ^ 21))) = Ok (of_Z 1).
Proof. repeat split; vm_compute; reflexivity. Qed.

(* ===================================================================== *)
(** ** The leaderboard totals                                              *)
(* ===================================================================== *)

Lemma sql_eqb_sym (a b : Durable.SqlValue) : Durable.sql_eqb a b = Durable.sql_eqb b a.
Proof.
  destruct (Durable.sql_eqb a b) eqn:Hab.
  - apply sql_eqb_eq in Hab as Heq. subst b. symmetry. exact Hab.
  - destruct (Durable.sql_eqb b a) eqn:Hba; [|reflexivity].
    apply sql_eqb_eq in Hba as Heq. subst b. congruence.
Qed.

(** The total of a username after an upsert of [a] under key [x]. *)
Lemma total_of_upsert (u x d : Durable.SqlValue) (a : Durable.SqlNumber) (db : Durable.Db)
    (rows' : list Durable.SpenderRow) :
  Durable.upsert x d a (Durable.top_spenders db) = Ok rows' ->
  Durable.total_of u
    {| Durable.donations := Durable.donations db; Durable.top_spenders := rows' |} =
  match Durable.total_of u db with
  | Some t =>
      if Durable.sql_eqb x u
      then Durable.integer_affinity <$> Durable.sql_add t a
      else Some t
  | None => if Durable.sql_eqb x u then Some a else None
  end.
Proof.
  unfold Durable.total_of. cbn [Durable.top_spenders]. revert rows'.
  induction (Durable.top_spenders db) as [|row rows IH]; intros rows';
    cbn [Durable.upsert List.find].
  - intros [= <-]. cbn [List.find Durable.s_username].
    destruct (Durable.sql_eqb x u); reflexivity.
  - destruct (Durable.sql_eqb (Durable.s_username row) x) eqn:Hx.
    + destruct (Durable.sql_add (Durable.total_amount row) a) as [t|] eqn:Ht;
        [|discriminate].
      intros [= <-]. cbn [List.find Durable.s_username].
      apply sql_eqb_eq in Hx as <-.
      destruct (Durable.sql_eqb (Durable.s_username row) u) eqn:Hu.
      * cbn [fmap option_fmap option_map Durable.total_amount]. rewrite Ht. reflexivity.
      * destruct (List.find _ rows); reflexivity.
    + destruct (Durable.upsert x d a rows) as [rest|e]; cbn [bind]; [|discriminate].
      intros [= <-]. cbn [List.find].
      destruct (Durable.sql_eqb (Durable.s_username row) u) eqn:Hu.
      * apply sql_eqb_eq in Hu as <-. rewrite sql_eqb_sym, Hx. reflexivity.
      * exact (IH rest eq_refl).
Qed.

(** An upsert that goes through has found the sum of its conflict, if it
    had one. *)
Lemma upsert_sum (x d : Durable.SqlValue) (a : Durable.SqlNumber) (db : Durable.Db)
    (rows' : list Durable.SpenderRow) (t : Durable.SqlNumber) :
  Durable.upsert x d a (Durable.top_spenders db) = Ok rows' ->
  Durable.total_of x db = Some t ->
  exists t1, Durable.sql_add t a = Some t1.
Proof.
  unfold Durable.total_of. revert rows'.
  induction (Durable.top_spenders db) as [|row rows IH]; intros rows';
    cbn [Durable.upsert List.find]; [discriminate 2|].
  destruct (Durable.sql_eqb (Durable.s_username row) x) eqn:Hx.
  - destruct (Durable.sql_add (Durable.total_amount row) a) as [t1|] eqn:Ht1;
      [|discriminate].
    intros _ [= <-]. eauto.
  - destruct (Durable.upsert x d a rows) as [rest|e]; cbn [bind]; [|discriminate].
    intros _. exact (IH rest eq_refl).
Qed.

Lemma memory_saweria_entry (body : JsValue) (donationId isoNow : string) (now : Z)
    (st : Memory.State) (k : string) (e : Memory.Spender) :
  Memory.topSpenders st !! k = Some e ->
  exists e',
    Memory.topSpenders (fst (Memory.saweria body donationId isoNow now st)) !! k = Some e' /\
    (Memory.total_amount e' = Memory.total_amount e \/
     exists f, Ingest.extract body = Ok f /\
               Memory.total_amount e' = add (Memory.total_amount e) (Ingest.f_amount f)).
Proof.
  intros Hk.
  destruct (memory_saweria_topSpenders body donationId isoNow now st)
    as [->|(f & key & He & Hkey & ->)]; [eauto|].
  destruct (updateTopSpenders_entry key k (Ingest.f_username f) (Ingest.f_amount f) st e Hk)
    as (e' & He' & Ht').
  exists e'. split; [exact He'|].
  destruct (decide (key = k)); [right; eauto | left; exact Ht'].
Qed.

Lemma durable_saweria_total (body : JsValue) (donationId isoNow : string) (now : Z)
    (db : Durable.Db) (u : Durable.SqlValue) (t : Durable.SqlNumber) :
  Durable.total_of u db = Some t ->
  exists t',
    Durable.total_of u (fst (Durable.saweria body donationId isoNow now db)) = Some t' /\
    (t' = t \/
     exists f, Ingest.extract body = Ok f /\
               Durable.integer_affinity <$>
                 Durable.sql_add t (Durable.stored_amount (Ingest.f_amount f)) = Some t').
Proof.
  intros Ht.
  destruct (Durable.saweria body donationId isoNow now db) as [db' r] eqn:Hrun.
  apply durable_saweria_inv in Hrun
    as [[-> _]|[(row & -> & _)|(f & x & rows & row & He & _ & _ & Hrows & -> & _)]];
    cbn [fst].
  - eauto.
  - exists t. split; [exact Ht | auto].
  - change (Durable.total_of u
              {| Durable.donations := Durable.donations db ++ [row];
                 Durable.top_spenders := rows |})
      with (Durable.total_of u
              {| Durable.donations := Durable.donations db;
                 Durable.top_spenders := rows |}).
    rewrite (total_of_upsert u x x _ db rows Hrows), Ht.
    destruct (Durable.sql_eqb x u) eqn:Hxu; [|eauto].
    apply sql_eqb_eq in Hxu as ->.
    destruct (upsert_sum u u _ db rows t Hrows Ht) as [t1 Ht1].
    rewrite Ht1. cbn [fmap option_fmap option_map]. eexists. split; [reflexivity|].
    right. exists f. rewrite Ht1. auto.
Qed.

(** Within the INTEGERs of 64 bits SQLite adds exactly. *)
Lemma sql_add_integers (x y : Z) :
  - 2 ^ 63 <= x + y < 2 ^ 63 ->
  Durable.integer_affinity <$> Durable.sql_add (Durable.NumInteger x) (Durable.NumInteger y)
  = Some (Durable.NumInteger (x + y)).
Proof.
  intros [Hlo Hhi]. cbn [Durable.sql_add].
  replace (Z.leb (- 2 ^ 63) (x + y)) with true by (symmetry; apply Z.leb_le; exact Hlo).
  replace (Z.ltb (x + y) (2 ^ 63)) with true by (symmetry; apply Z.ltb_lt; exact Hhi).
  reflexivity.
Qed.

(** C4, as the code has it. Poll/confirm and cleanup leave the
    leaderboard as it is. An ingest leaves the total of an existing entry
    as it is or adds the extracted amount to it: in double arithmetic for
    the in-memory server, in SQLite's for the durable one. Where that
    addition is exact (safe integers in memory, INTEGERs of 64 bits in
    SQLite) the new total is the old one or the old one plus the amount,
    so it does not go down under an ingest whose extracted amount is
    non-negative. *)
Theorem totals_move_only_by_the_ingested_amount :
  (forall (confirmId : JsValue) (st : Memory.State),
      Memory.topSpenders (fst (Memory.robloxCheck confirmId st)) = Memory.topSpenders st) /\
  (forall (now : Z) (st : Memory.State),
      Memory.topSpenders (Memory.cleanupOldDonations now st) = Memory.topSpenders st) /\
  (forall (body : JsValue) (donationId isoNow : string) (now : Z) (st : Memory.State)
          (k : string) (e : Memory.Spender),
      Memory.topSpenders st !! k = Some e ->
      exists e',
        Memory.topSpenders (fst (Memory.saweria body donationId isoNow now st)) !! k
          = Some e' /\
        (Memory.total_amount e' = Memory.total_amount e \/
         exists f, Ingest.extract body = Ok f /\
                   Memory.total_amount e' = add (Memory.total_amount e) (Ingest.f_amount f)) /\
        (forall t z : Z,
            Memory.total_amount e = of_Z t ->
            (forall f, Ingest.extract body = Ok f -> Ingest.f_amount f = of_Z z) ->
            safe t -> safe z -> safe (t + z) ->
            exists t', Memory.total_amount e' = of_Z t' /\
                       (t' = t \/ t' = t + z) /\ (0 <= z -> t <= t'))) /\
  (forall (confirmId : JsValue) (db : Durable.Db),
      Durable.top_spenders (fst (Durable.robloxCheck confirmId db)) = Durable.top_spenders db) /\
  (forall (now : Z) (db : Durable.Db),
      Durable.top_spenders (Durable.cleanupOldDonations now db) = Durable.top_spenders db) /\
  (forall (body : JsValue) (donationId isoNow : string) (now : Z) (db : Durable.Db)
          (u : Durable.SqlValue) (t : Durable.SqlNumber),
      Durable.total_of u db = Some t ->
      exists t',
        Durable.total_of u (fst (Durable.saweria body donationId isoNow now db)) = Some t' /\
        (t' = t \/
         exists f, Ingest.extract body = Ok f /\
                   Durable.integer_affinity <$>
                     Durable.sql_add t (Durable.stored_amount (Ingest.f_amount f)) = Some t') /\
        (forall tz z : Z,
            t = Durable.NumInteger tz ->
            (forall f, Ingest.extract body = Ok f -> Ingest.f_amount f = of_Z z) ->
            safe z -> - 2 ^ 63 <= tz + z < 2 ^ 63 ->
            exists tz', t' = Durable.NumInteger tz' /\
                        (tz' = tz \/ tz' = tz + z) /\ (0 <= z -> tz <= tz'))).
Proof.
  repeat apply conj.
  - intros confirmId st. unfold Memory.robloxCheck. destruct (truthy confirmId); reflexivity.
  - reflexivity.
  - intros body donationId isoNow now st k e Hk.
    destruct (memory_saweria_entry body donationId isoNow now st k e Hk)
      as (e' & He' & Hcases).
    exists e'. split; [exact He'|]. split; [exact Hcases|].
    intros t z Ht Hz St Sz Stz.
    destruct Hcases as [Hsame|(f & He & Hsum)].
    + exists t. split; [congruence|]. split; [left; reflexivity | intros _; lia].
    + exists (t + z). rewrite Hsum, Ht, (Hz f He), (add_of_Z t z St Sz Stz).
      split; [reflexivity|]. split; [right; reflexivity | intros Hpos; lia].
  - intros confirmId db. unfold Durable.robloxCheck.
    destruct (truthy confirmId); [|reflexivity].
    unfold Durable.markDelivered_run.
    destruct (Durable.bindArgs [confirmId] false) as [[|v [|]]|]; reflexivity.
  - reflexivity.
  - intros body donationId isoNow now db u t Ht.
    destruct (durable_saweria_total body donationId isoNow now db u t Ht)
      as (t' & Ht' & Hcases).
    exists t'. split; [exact Ht'|]. split; [exact Hcases|].
    intros tz z -> Hz Sz Hrange.
    destruct Hcases as [->|(f & He & Hsum)].
    + exists tz. split; [reflexivity|]. split; [left; reflexivity | intros _; lia].
    + exists (tz + z). rewrite (Hz f He), (stored_amount_safe z Sz) in Hsum.
      rewrite (sql_add_integers tz z Hrange) in Hsum. injection Hsum as <-.
      split; [reflexivity|]. split; [right; reflexivity | intros Hpos; lia].
Qed.

Lemma totals_move_only_by_the_ingested_amount_witness :
  exists e' t',
    Memory.topSpenders
      (fst (Memory.saweria Sample.budi_10 "2-b" "t" 2
              (fst (Memory.saweria Sample.budi_10 "1-a" "t" 1 Memory.initial)))) !! "Budi"
      = Some e' /\
    Memory.total_amount e' = of_Z t' /\ 10 <= t'.
Proof.
  destruct totals_move_only_by_the_ingested_amount as (_ & _ & Hingest & _).
  destruct (Hingest Sample.budi_10 "2-b" "t" 2
              (fst (Memory.saweria Sample.budi_10 "1-a" "t" 1 Memory.initial))
              "Budi"
              {| Memory.s_username := JStr "Budi"; Memory.s_display_name := JStr "Budi";
                 Memory.total_amount := of_Z 10 |}
              eq_refl)
    as (e' & He' & _ & Hexact).
  destruct (Hexact 10 10 eq_refl) as (t' & Ht' & _ & Hmono).
  - intros f Hf. vm_compute in Hf. injection Hf as <-. reflexivity.
  - reflexivity.
  - reflexivity.
  - reflexivity.
  - exists e', t'. split; [exact He'|]. split; [exact Ht'|]. apply Hmono. lia.
Defined.

(** C4 as worded fails: an ingest with a negative amount lowers the total
    of its username, in both servers. *)
Lemma negative_ingest_lowers_total :
  (let st1 := fst (Memory.saweria Sample.budi_10 "1-a" "t" 1 Memory.initial) in
   let st2 := fst (Memory.saweria Sample.budi_minus_5 "2-b" "t" 2 st1) in
   Memory.total_amount <$> Memory.topSpenders st1 !! "Budi" = Some (of_Z 10) /\
   Memory.total_amount <$> Memory.topSpenders st2 !! "Budi" = Some (of_Z 5)) /\
  (let db1 := fst (Durable.saweria Sample.budi_10 "1-a" "t" 1 Durable.empty) in
   let db2 := fst (Durable.saweria Sample.budi_minus_5 "2-b" "t" 2 db1) in
   Durable.total_of (Durable.SqlText "Budi") db1 = Some (Durable.NumInteger 10) /\
   Durable.total_of (Durable.SqlText "Budi") db2 = Some (Durable.NumInteger 5)).
Proof. repeat split; vm_compute; reflexivity. Qed.

(** Outside the safe range the sums are those of doubles. After an
    amount of 310 nines the total is [Infinity] in both servers; the
    same amount with a minus sign then makes the in-memory total [NaN],
    while SQLite refuses the sum, which would be NULL: the durable server
    answers 400 with the donation inserted and the leaderboard as it
    was. *)
Example infinite_amounts_cancel :
  (let st1 := fst (Memory.saweria Sample.budi_huge "1-a" "t" 1 Memory.initial) in
   let st2 := fst (Memory.saweria Sample.budi_minus_huge "2-b" "t" 2 st1) in
   Memory.total_amount <$> Memory.topSpenders st1 !! "Budi" = Some (S754_infinity false) /\
   Memory.total_amount <$> Memory.topSpenders st2 !! "Budi" = Some NaN /\
   Memory.stats_total_amount (Memory.stats st2) = NaN) /\
  (let db1 := fst (Durable.saweria Sample.budi_huge "1-a" "t" 1 Durable.empty) in
   let res := Durable.saweria Sample.budi_minus_huge "2-b" "t" 2 db1 in
   snd res = Error 400 SqliteError /\
   length (Durable.donations (fst res)) = 2%nat /\
   Durable.total_of (Durable.SqlText "Budi") (fst res) =
     Some (Durable.NumReal (Durable.RealInfinity false))).
Proof. repeat split; vm_compute; reflexivity. Qed.

(* ===================================================================== *)
(** ** Ingest is not all-or-nothing                                        *)
(* ===================================================================== *)

(** C1, at a failing input of the in-memory server. The body
    [{"name": {"toString": 0}}] extracts: the username is the object. The
    donation is pushed; indexing the leaderboard by that username then
    throws, as the object cannot be converted to a property key. The
    handler answers 400 with the donation in the queue and no leaderboard
    entry. *)
Theorem memory_ingest_raises_after_push :
  let res := Memory.saweria Sample.unprintable_name "1-a" "t" 1 Memory.initial in
  snd res = Error 400 TypeError /\
  length (Memory.donationQueue (fst res)) = 1%nat /\
  Memory.topSpenders (fst res) = ∅ /\
  fst res <> Memory.initial.
Proof.
  split; [reflexivity|]. split; [reflexivity|]. split; [reflexivity|].
  intros Heq. apply (f_equal (fun st => length (Memory.donationQueue st))) in Heq.
  discriminate Heq.
Qed.

(** The durable server has its own such input: with
    [{"name": [], "message": ["a", "b", "c"]}] the empty array binds
    nothing and the message binds three values, so the insert fills its
    seven parameters and commits a row, while the upsert finds one value
    for its three parameters and throws. *)
Lemma durable_ingest_raises_after_insert :
  let res := Durable.saweria Sample.spread_message "1-a" "t" 1 Durable.empty in
  snd res = Error 400 RangeError /\
  length (Durable.donations (fst res)) = 1%nat /\
  Durable.top_spenders (fst res) = [].
Proof. repeat split. Qed.

(** An ingest of the durable server that answers with an error has left
    the leaderboard alone, and one that answers with success has run both
    statements. *)
Lemma durable_ingest_outcomes (body : JsValue) (donationId isoNow : string) (now : Z)
    (db : Durable.Db) :
  let res := Durable.saweria body donationId isoNow now db in
  if is_error (snd res)
  then Durable.top_spenders (fst res) = Durable.top_spenders db
  else exists row x f,
      Ingest.extract body = Ok f /\
      Durable.donations (fst res) = Durable.donations db ++ [row] /\
      Durable.upsert x x (Durable.stored_amount (Ingest.f_amount f))
        (Durable.top_spenders db) = Ok (Durable.top_spenders (fst res)).
Proof.
  cbn zeta.
  destruct (Durable.saweria body donationId isoNow now db) as [db' r] eqn:Hrun.
  cbn [fst snd].
  apply durable_saweria_inv in Hrun
    as [[-> ->]|[(row & -> & _ & _ & ->)|(f & x & rows & row & He & _ & _ & Hrows & -> & Hrow)]];
    try reflexivity.
  destruct Hrow as (_ & _ & _ & _ & _ & _ & ->). cbn [is_error]. eauto 10.
Qed.

(* ===================================================================== *)
(** ** Totals per username                                                 *)
(* ===================================================================== *)

(** An in-memory ingest whose username has the property key [key], not an
    inherited one, adds the extracted amount to the total of [key], or
    starts it from 0. *)
Lemma memory_saweria_total (p : Post) (key : string) (st : Memory.State) (f : Ingest.Fields) :
  Ingest.extract (p_body p) = Ok f ->
  ToString (Ingest.f_username f) = Ok key ->
  Memory.inherited key = false ->
  Memory.total_amount <$>
    Memory.topSpenders (fst (Memory.saweria (p_body p) (p_id p) (p_iso p) (p_now p) st)) !! key
  = Some (add (default (of_Z 0) (Memory.total_amount <$> Memory.topSpenders st !! key))
              (Ingest.f_amount f)).
Proof.
  intros He Hkey Hin. unfold Memory.saweria. rewrite He, Hkey. cbn [fst].
  apply (updateTopSpenders_total key (Ingest.f_username f) (Ingest.f_amount f)
           (Memory.set_queue _ st) Hin).
Qed.

Lemma amount_value_extract (data : JsValue) (f : Ingest.Fields) :
  Ingest.extract data = Ok f ->
  Ingest.amount_value data = default 0 (integerValue (Ingest.f_amount f)).
Proof.
  intros He. destruct (extract_inv _ _ He) as (_ & Ha & _).
  unfold Ingest.amount_value, Ingest.amount_of. rewrite Ha. reflexivity.
Qed.

Lemma volume_cons (p : Post) (posts : list Post) :
  volume (p :: posts) = Z.abs (Ingest.amount_value (p_body p)) + volume posts.
Proof. reflexivity. Qed.

Lemma volume_nonneg (posts : list Post) : 0 <= volume posts.
Proof. induction posts as [|p posts IH]; [reflexivity|]. rewrite volume_cons. lia. Qed.

Lemma memory_total_accumulates (key : string) (posts : list Post) :
  Memory.inherited key = false ->
  Forall (fun p => exists f, Ingest.extract (p_body p) = Ok f /\
                              ToString (Ingest.f_username f) = Ok key /\
                              Ingest.f_amount f = of_Z (Ingest.amount_value (p_body p)))
         posts ->
  forall (st : Memory.State) (t : Z),
    Z.abs t + volume posts < 2 ^ 53 ->
    Memory.total_amount <$> Memory.topSpenders st !! key = Some (of_Z t) ->
    Memory.total_amount <$> Memory.topSpenders (Memory.ingests posts st) !! key =
    Some (of_Z (t + foldr Z.add 0 (amounts posts))).
Proof.
  intros Hin Hposts.
  induction Hposts as [|p posts (f & He & Hkey & Hamt) _ IH]; intros st t Hvol Ht.
  - cbn [Memory.ingests fold_left amounts List.map foldr]. rewrite Ht, Z.add_0_r. reflexivity.
  - pose proof (memory_saweria_total p key st f He Hkey Hin) as Hstep.
    rewrite volume_cons in Hvol. pose proof (volume_nonneg posts) as Hpos.
    set (z := Ingest.amount_value (p_body p)) in *.
    rewrite Ht, Hamt in Hstep. cbn [from_option id] in Hstep.
    rewrite (add_of_Z t z) in Hstep by (unfold safe; lia).
    unfold Memory.ingests in *. cbn [fold_left amounts List.map foldr].
    rewrite (IH _ (t + z)); [|lia|exact Hstep].
    fold z. do 2 apply f_equal. unfold amounts. lia.
Qed.

(** In the in-memory server, for a username whose property key is not an
    inherited one: after ingests of that username into a leaderboard that
    has no entry for it, with integer amounts whose magnitudes add up to
    less than [2^53], the entry holds the sum of the amounts. *)
Lemma memory_total_is_sum (posts : list Post) (key : string) (st : Memory.State) :
  posts <> [] ->
  Memory.inherited key = false ->
  Memory.topSpenders st !! key = None ->
  Forall (fun p => exists f, Ingest.extract (p_body p) = Ok f /\
                              ToString (Ingest.f_username f) = Ok key /\
                              Ingest.f_amount f = of_Z (Ingest.amount_value (p_body p)))
         posts ->
  volume posts < 2 ^ 53 ->
  Memory.total_amount <$> Memory.topSpenders (Memory.ingests posts st) !! key =
  Some (of_Z (foldr Z.add 0 (amounts posts))).
Proof.
  intros Hne Hin Hnone Hposts Hvol. destruct posts as [|p posts]; [contradiction|].
  apply List.Forall_cons_iff in Hposts as [(f & He & Hkey & Hamt) Hposts].
  pose proof (memory_saweria_total p key st f He Hkey Hin) as Hstep.
  rewrite volume_cons in Hvol. pose proof (volume_nonneg posts) as Hpos.
  set (z := Ingest.amount_value (p_body p)) in *.
  rewrite Hnone, Hamt in Hstep. cbn [fmap option_fmap option_map from_option id] in Hstep.
  rewrite (add_of_Z 0 z) in Hstep by (unfold safe; lia).
  unfold Memory.ingests. cbn [fold_left amounts List.map foldr].
  pose proof (memory_total_accumulates key posts Hin Hposts
                (fst (Memory.saweria (p_body p) (p_id p) (p_iso p) (p_now p) st)) (0 + z))
    as Hrest.
  unfold Memory.ingests in Hrest. rewrite Hrest; [|lia|exact Hstep].
  fold z. do 2 apply f_equal. unfold amounts. lia.
Qed.

Lemma binds_one_unique (u : JsValue) (x y : Durable.SqlValue) :
  Durable.binds_one u x -> Durable.binds_one u y -> x = y.
Proof.
  intros Hx Hy. specialize (Hx [] false). rewrite (Hy [] false) in Hx.
  cbn in Hx. congruence.
Qed.

Lemma total_of_donations (u : Durable.SqlValue) (rows rows' : list Durable.DonationRow)
    (spenders : list Durable.SpenderRow) :
  Durable.total_of u {| Durable.donations := rows; Durable.top_spenders := spenders |} =
  Durable.total_of u {| Durable.donations := rows'; Durable.top_spenders := spenders |}.
Proof. reflexivity. Qed.

(** A durable ingest of the string username [u] that answers with success
    puts the stored amount in the total of [u], or adds it there. *)
Lemma durable_saweria_total_string (p : Post) (u : string) (db : Durable.Db)
    (f : Ingest.Fields) :
  Ingest.extract (p_body p) = Ok f ->
  Ingest.f_username f = JStr u ->
  is_error (snd (Durable.saweria (p_body p) (p_id p) (p_iso p) (p_now p) db)) = false ->
  Durable.total_of (Durable.SqlText u)
    (fst (Durable.saweria (p_body p) (p_id p) (p_iso p) (p_now p) db)) =
  match Durable.total_of (Durable.SqlText u) db with
  | Some t =>
      Durable.integer_affinity <$>
        Durable.sql_add t (Durable.stored_amount (Ingest.f_amount f))
  | None => Some (Durable.stored_amount (Ingest.f_amount f))
  end.
Proof.
  intros He Hu Hok.
  destruct (Durable.saweria (p_body p) (p_id p) (p_iso p) (p_now p) db) as [db' r] eqn:Hrun.
  cbn [fst snd] in *.
  apply durable_saweria_inv in Hrun
    as [[_ Herr]|[(row & _ & _ & _ & Herr)|(f' & x & rows & row & He' & Hx & _ & Hrows & -> & _)]];
    try congruence.
  rewrite He in He'. injection He' as <-.
  rewrite Hu in Hx. pose proof (binds_one_unique _ _ _ Hx (binds_one_str u)) as ->.
  rewrite (total_of_donations _ _ (Durable.donations db)).
  rewrite (total_of_upsert _ _ _ _ db rows Hrows).
  rewrite sql_eqb_refl by reflexivity. reflexivity.
Qed.

Lemma durable_total_accumulates (u : string) (posts : list Post) :
  Forall (fun p => exists f, Ingest.extract (p_body p) = Ok f /\
                              Ingest.f_username f = JStr u /\
                              is_Some (integerValue (Ingest.f_amount f))) posts ->
  forall (db : Durable.Db) (t : Z),
    Durable.all_succeed posts db = true ->
    Z.abs t + volume posts < 2 ^ 63 ->
    Durable.total_of (Durable.SqlText u) db = Some (Durable.NumInteger t) ->
    Durable.total_of (Durable.SqlText u) (Durable.ingests posts db) =
    Some (Durable.NumInteger (t + foldr Z.add 0 (amounts posts))).
Proof.
  induction 1 as [|p posts (f & He & Hu & [v Hv]) _ IH]; intros db t Hok Hvol Ht.
  - cbn [Durable.ingests fold_left amounts List.map foldr]. rewrite Ht, Z.add_0_r.
    reflexivity.
  - cbn [Durable.all_succeed] in Hok. apply andb_true_iff in Hok as [Hp Hrest].
    apply negb_true_iff in Hp.
    pose proof (durable_saweria_total_string p u db f He Hu Hp) as Hstep.
    rewrite volume_cons in Hvol. pose proof (volume_nonneg posts) as Hpos.
    rewrite (amount_value_extract _ _ He), Hv in Hvol. cbn [from_option id] in Hvol.
    rewrite Ht, (stored_amount_integral _ v Hv) in Hstep by lia.
    rewrite (sql_add_integers t v) in Hstep by lia.
    unfold Durable.ingests in *. cbn [fold_left amounts List.map foldr].
    rewrite (IH _ (t + v) Hrest); [|lia|exact Hstep].
    rewrite (amount_value_extract _ _ He), Hv. cbn [from_option id].
    do 2 apply f_equal. unfold amounts. lia.
Qed.

(** In the durable server: after ingests of one string username that all
    answer with success, into a leaderboard that has no row for it, with
    integer amounts whose magnitudes add up to less than [2^63], the row
    holds the sum of the amounts, as an INTEGER. *)
Lemma durable_total_is_sum (posts : list Post) (u : string) (db : Durable.Db) :
  posts <> [] ->
  Durable.total_of (Durable.SqlText u) db = None ->
  Forall (fun p => exists f, Ingest.extract (p_body p) = Ok f /\
                              Ingest.f_username f = JStr u /\
                              is_Some (integerValue (Ingest.f_amount f))) posts ->
  volume posts < 2 ^ 63 ->
  Durable.all_succeed posts db = true ->
  Durable.total_of (Durable.SqlText u) (Durable.ingests posts db) =
  Some (Durable.NumInteger (foldr Z.add 0 (amounts posts))).
Proof.
  intros Hne Hnone Hposts Hvol Hok.
  destruct posts as [|p posts]; [contradiction|].
  apply List.Forall_cons_iff in Hposts as [(f & He & Hu & [v Hv]) Hposts].
  cbn [Durable.all_succeed] in Hok. apply andb_true_iff in Hok as [Hp Hrest].
  apply negb_true_iff in Hp.
  pose proof (durable_saweria_total_string p u db f He Hu Hp) as Hstep.
  rewrite volume_cons in Hvol. pose proof (volume_nonneg posts) as Hpos.
  rewrite (amount_value_extract _ _ He), Hv in Hvol. cbn [from_option id] in Hvol.
  rewrite Hnone, (stored_amount_integral _ v Hv) in Hstep by lia.
  unfold Durable.ingests. cbn [fold_left amounts List.map foldr].
  pose proof (durable_total_accumulates u posts Hposts
                (fst (Durable.saweria (p_body p) (p_id p) (p_iso p) (p_now p) db)) v Hrest)
    as Hall.
  unfold Durable.ingests in Hall. rewrite Hall; [|lia|exact Hstep].
  rewrite (amount_value_extract _ _ He), Hv. reflexivity.
Qed.

(** Budi gives 10, -5 and 10: both servers hold 15 for him. *)
Example budi_total_memory :
  Memory.total_amount <$>
    Memory.topSpenders (Memory.ingests Sample.three_of_budi Memory.initial) !! "Budi"
  = Some (of_Z 15).
Proof.
  apply (memory_total_is_sum Sample.three_of_budi "Budi" Memory.initial);
    [discriminate | reflexivity | reflexivity | | reflexivity].
  repeat constructor; eexists; repeat split; reflexivity.
Qed.

Example budi_total_durable :
  Durable.total_of (Durable.SqlText "Budi")
    (Durable.ingests Sample.three_of_budi Durable.empty) = Some (Durable.NumInteger 15).
Proof.
  apply (durable_total_is_sum Sample.three_of_budi "Budi" Durable.empty);
    [discriminate | reflexivity | | reflexivity | reflexivity].
  repeat constructor; eexists; repeat split; try reflexivity; eexists; reflexivity.
Qed.

(** C5, at a failing input of the in-memory server. A donor named
    "constructor" is ingested with amount 5 and the handler answers with
    success, but the leaderboard object gets no entry: the lookup finds
    the inherited [Object.prototype.constructor], which is truthy, so no
    entry is created and the sum is written on that function ([NaN]).
    The durable server gives the same request the total 5. *)
Theorem inherited_username_gets_no_total :
  let res := Memory.saweria Sample.constructor_5 "1-a" "t" 1 Memory.initial in
  is_error (snd res) = false /\
  length (Memory.donationQueue (fst res)) = 1%nat /\
  Memory.topSpenders (fst res) !! "constructor" = None /\
  Memory.builtinTotals (fst res) !! "constructor" = Some NaN /\
  Durable.total_of (Durable.SqlText "constructor")
    (fst (Durable.saweria Sample.constructor_5 "1-a" "t" 1 Durable.empty))
    = Some (Durable.NumInteger 5).
Proof. repeat split. Qed.

(* ===================================================================== *)
(** ** Confirming a delivery                                               *)
(* ===================================================================== *)

Lemma set_queue_same (st : Memory.State) :
  Memory.set_queue (Memory.donationQueue st) st = st.
Proof. destruct st; reflexivity. Qed.

Lemma idIs_set_delivered (c : JsValue) (d : Memory.Donation) :
  Memory.idIs c (Memory.set_delivered d) = Memory.idIs c d.
Proof. destruct c; reflexivity. Qed.

Lemma confirmDelivery_idem (c : JsValue) (q : list Memory.Donation) :
  Memory.confirmDelivery c (Memory.confirmDelivery c q) = Memory.confirmDelivery c q.
Proof.
  induction q as [|d q IH]; simpl; [reflexivity|].
  destruct (Memory.idIs c d) eqn:Hd; simpl.
  - rewrite idIs_set_delivered, Hd. reflexivity.
  - rewrite Hd, IH. reflexivity.
Qed.

Lemma confirmDelivery_unknown (c : JsValue) (q : list Memory.Donation) :
  (forall d, In d q -> Memory.idIs c d = false) -> Memory.confirmDelivery c q = q.
Proof.
  induction q as [|d q IH]; simpl; [reflexivity|]. intros Hq.
  rewrite (Hq d) by auto. rewrite IH by auto. reflexivity.
Qed.

Lemma confirmDelivery_length (c : JsValue) (q : list Memory.Donation) :
  length (Memory.confirmDelivery c q) = length q.
Proof.
  induction q as [|d q IH]; simpl; [reflexivity|].
  destruct (Memory.idIs c d); simpl; congruence.
Qed.

Lemma confirmDelivery_received_at (c : JsValue) (q : list Memory.Donation) :
  List.map Memory.received_at (Memory.confirmDelivery c q) = List.map Memory.received_at q.
Proof.
  induction q as [|d q IH]; simpl; [reflexivity|].
  destruct (Memory.idIs c d); simpl; congruence.
Qed.

(** The [UPDATE] of [markDelivered], for a bound value [v]. *)
Lemma mark_idem (v : Durable.SqlValue) (r : Durable.DonationRow) :
  let mark := fun row => if Durable.sql_eqb (Durable.SqlText (Durable.id row)) v
                         then Durable.set_delivered row else row in
  mark (mark r) = mark r.
Proof.
  cbv beta zeta. destruct (Durable.sql_eqb (Durable.SqlText (Durable.id r)) v) eqn:Hr.
  - change (Durable.id (Durable.set_delivered r)) with (Durable.id r).
    rewrite Hr. reflexivity.
  - rewrite Hr. reflexivity.
Qed.

Lemma durable_confirm_string (s : string) (db : Durable.Db) :
  Durable.markDelivered_run (JStr s) db =
  Ok {| Durable.donations :=
          List.map (fun row => if Durable.sql_eqb (Durable.SqlText (Durable.id row))
                                                  (Durable.SqlText s)
                               then Durable.set_delivered row else row)
                   (Durable.donations db);
        Durable.top_spenders := Durable.top_spenders db |}.
Proof. reflexivity. Qed.

(** C7. Confirming an id a second time, or an id that no stored donation
    has, is answered like any poll, never with an error; the second
    confirmation changes nothing and reports the queue size the first one
    reported; an unknown id changes nothing and the reported queue size is
    the number of undelivered donations there were. This holds in both
    servers. *)
Theorem confirm_again_or_unknown_is_harmless :
  (forall (confirmId : string) (st : Memory.State),
      let first := Memory.robloxCheck (JStr confirmId) st in
      let second := Memory.robloxCheck (JStr confirmId) (fst first) in
      is_error (snd second) = false /\
      fst second = fst first /\
      reported_queue_size (snd second) = reported_queue_size (snd first)) /\
  (forall (confirmId : string) (st : Memory.State),
      (forall d, In d (Memory.donationQueue st) -> Memory.id d <> confirmId) ->
      let res := Memory.robloxCheck (JStr confirmId) st in
      is_error (snd res) = false /\
      fst res = st /\
      reported_queue_size (snd res) = Some (Memory.undeliveredCount st)) /\
  (forall (confirmId : string) (db : Durable.Db),
      let first := Durable.robloxCheck (JStr confirmId) db in
      let second := Durable.robloxCheck (JStr confirmId) (fst first) in
      is_error (snd second) = false /\
      fst second = fst first /\
      reported_queue_size (snd second) = reported_queue_size (snd first)) /\
  (forall (confirmId : string) (db : Durable.Db),
      (forall row, In row (Durable.donations db) -> Durable.id row <> confirmId) ->
      let res := Durable.robloxCheck (JStr confirmId) db in
      is_error (snd res) = false /\
      fst res = db /\
      reported_queue_size (snd res) = Some (Durable.undeliveredCount db)).
Proof.
  repeat apply conj.
  - intros confirmId st. cbn zeta. unfold Memory.robloxCheck.
    destruct (truthy (JStr confirmId)); cbn [fst snd is_error reported_queue_size].
    + split; [reflexivity|].
      assert (Hst : Memory.set_queue
                (Memory.confirmDelivery (JStr confirmId)
                   (Memory.donationQueue
                      (Memory.set_queue
                         (Memory.confirmDelivery (JStr confirmId) (Memory.donationQueue st)) st)))
                (Memory.set_queue
                   (Memory.confirmDelivery (JStr confirmId) (Memory.donationQueue st)) st)
              = Memory.set_queue
                  (Memory.confirmDelivery (JStr confirmId) (Memory.donationQueue st)) st).
      { unfold Memory.set_queue. cbn [Memory.donationQueue Memory.topSpenders
          Memory.lastRawData Memory.builtinTotals]. rewrite confirmDelivery_idem. reflexivity. }
      rewrite Hst. split; reflexivity.
    + repeat split.
  - intros confirmId st Hunknown. cbn zeta. unfold Memory.robloxCheck.
    assert (Hq : Memory.confirmDelivery (JStr confirmId) (Memory.donationQueue st)
                 = Memory.donationQueue st).
    { apply confirmDelivery_unknown. intros d Hd. simpl.
      apply String.eqb_neq, Hunknown, Hd. }
    rewrite Hq, set_queue_same. destruct (truthy (JStr confirmId)); repeat split.
  - intros confirmId db. cbn zeta. unfold Durable.robloxCheck.
    destruct (truthy (JStr confirmId)); cbn [fst snd is_error reported_queue_size].
    + rewrite !durable_confirm_string. cbn [fst snd is_error reported_queue_size
        Durable.donations Durable.top_spenders].
      rewrite List.map_map.
      rewrite (List.map_ext _ _ (mark_idem (Durable.SqlText confirmId))).
      repeat split.
    + repeat split.
  - intros confirmId db Hunknown. cbn zeta. unfold Durable.robloxCheck.
    destruct (truthy (JStr confirmId)); [|repeat split].
    rewrite durable_confirm_string.
    assert (Hq : List.map
                   (fun row => if Durable.sql_eqb (Durable.SqlText (Durable.id row))
                                                  (Durable.SqlText confirmId)
                               then Durable.set_delivered row else row)
                   (Durable.donations db) = Durable.donations db).
    { rewrite <- (List.map_id (Durable.donations db)) at 2.
      apply List.map_ext_in. intros row Hrow. simpl.
      destruct (String.eqb_spec (Durable.id row) confirmId) as [Heq|Hne]; [|reflexivity].
      destruct (Hunknown row Hrow Heq). }
    rewrite Hq. destruct db; repeat split.
Qed.

Lemma confirm_again_or_unknown_is_harmless_witness :
  let st := fst (Memory.saweria Sample.budi_10 "1-a" "t" 1 Memory.initial) in
  let res := Memory.robloxCheck (JStr "9-z") st in
  is_error (snd res) = false /\ fst res = st /\
  reported_queue_size (snd res) = Some 1%nat.
Proof.
  destruct confirm_again_or_unknown_is_harmless as (_ & Hunknown & _).
  apply (Hunknown "9-z" (fst (Memory.saweria Sample.budi_10 "1-a" "t" 1 Memory.initial))).
  intros d [<-|[]]. discriminate.
Defined.

(* ===================================================================== *)
(** ** The bound on the in-memory queue                                    *)
(* ===================================================================== *)

Lemma handle_length (now : Z) (ev : Memory.Event) (st : Memory.State) :
  (length (Memory.donationQueue st) <= Memory.MAX_QUEUE_SIZE)%nat ->
  (length (Memory.donationQueue (Memory.handle now ev st)) <= Memory.MAX_QUEUE_SIZE)%nat.
Proof.
  intros Hst. destruct ev as [body donationId isoNow|confirmId| | |]; cbn [Memory.handle].
  - destruct (Ingest.extract body) as [f|e] eqn:He.
    + rewrite (memory_saweria_queue _ _ _ _ _ _ He). apply enqueue_length, Hst.
    + rewrite (memory_saweria_extract_throws _ _ _ _ _ _ He). exact Hst.
  - unfold Memory.robloxCheck. destruct (truthy confirmId); cbn [fst]; [|exact Hst].
    cbn [Memory.set_queue Memory.donationQueue]. rewrite confirmDelivery_length. exact Hst.
  - cbn [Memory.cleanupOldDonations Memory.set_queue Memory.donationQueue].
    etransitivity; [apply List.filter_length_le | exact Hst].
  - cbn [Memory.clear Memory.donationQueue length]. lia.
  - exact Hst.
Qed.

Lemma run_from_length (trace : list (Z * Memory.Event)) (st : Memory.State) :
  (length (Memory.donationQueue st) <= Memory.MAX_QUEUE_SIZE)%nat ->
  (length (Memory.donationQueue (Memory.run_from st trace)) <= Memory.MAX_QUEUE_SIZE)%nat.
Proof.
  revert st. induction trace as [|[now ev] trace IH]; intros st Hst; [exact Hst|].
  cbn [Memory.run_from fold_left fst snd]. apply IH, handle_length, Hst.
Qed.

(** C8. The in-memory queue never holds more than 20 donations, in any
    state the server reaches. An ingest into a queue of 20 drops the
    donation at the front, whatever its delivered flag, and appends the new
    one; an ingest into a shorter queue only appends. *)
Theorem queue_is_capped_at_twenty :
  (forall trace : list (Z * Memory.Event),
      (length (Memory.donationQueue (Memory.run trace)) <= 20)%nat) /\
  (forall (st : Memory.State) (body : JsValue) (donationId isoNow : string) (now : Z)
          (f : Ingest.Fields),
      Ingest.extract body = Ok f ->
      length (Memory.donationQueue st) = 20%nat ->
      exists oldest rest,
        Memory.donationQueue st = oldest :: rest /\
        Memory.donationQueue (fst (Memory.saweria body donationId isoNow now st)) =
        rest ++ [Memory.makeDonation f donationId isoNow now]) /\
  (forall (st : Memory.State) (body : JsValue) (donationId isoNow : string) (now : Z)
          (f : Ingest.Fields),
      Ingest.extract body = Ok f ->
      (length (Memory.donationQueue st) < 20)%nat ->
      Memory.donationQueue (fst (Memory.saweria body donationId isoNow now st)) =
      Memory.donationQueue st ++ [Memory.makeDonation f donationId isoNow now]).
Proof.
  repeat apply conj.
  - intros trace. apply (run_from_length trace Memory.initial).
    cbn [Memory.initial Memory.donationQueue length]. unfold Memory.MAX_QUEUE_SIZE. lia.
  - intros st body donationId isoNow now f He Hlen.
    rewrite (memory_saweria_queue _ _ _ _ _ _ He), enqueue_spec, Hlen.
    destruct (Memory.donationQueue st) as [|oldest rest]; [discriminate Hlen|].
    exists oldest, rest. split; reflexivity.
  - intros st body donationId isoNow now f He Hlen.
    rewrite (memory_saweria_queue _ _ _ _ _ _ He), enqueue_spec.
    destruct (Nat.leb_spec Memory.MAX_QUEUE_SIZE (length (Memory.donationQueue st)))
      as [Hle|_]; [|reflexivity].
    unfold Memory.MAX_QUEUE_SIZE in Hle. lia.
Qed.

Lemma queue_is_capped_at_twenty_witness :
  let st := Memory.run (firstn 20 Sample.burst) in
  exists oldest rest,
    Memory.donationQueue st = oldest :: rest /\
    Memory.id oldest = "0" /\
    Memory.donationQueue (fst (Memory.saweria Sample.budi_10 "20" "t" 20 st)) =
    rest ++ [Memory.makeDonation
               {| Ingest.f_username := JStr "Budi"; Ingest.f_amount := of_Z 10;
                  Ingest.f_message := JStr "" |} "20" "t" 20].
Proof.
  destruct queue_is_capped_at_twenty as (_ & Hfull & _).
  destruct (Hfull (Memory.run (firstn 20 Sample.burst)) Sample.budi_10 "20" "t" 20
              {| Ingest.f_username := JStr "Budi"; Ingest.f_amount := of_Z 10;
                 Ingest.f_message := JStr "" |} eq_refl eq_refl)
    as (oldest & rest & Hq & Hafter).
  exists oldest, rest. split; [exact Hq|]. split; [|exact Hafter].
  vm_compute in Hq. injection Hq as <- _. reflexivity.
Defined.

(* ===================================================================== *)
(** ** What a poll returns                                                 *)
(* ===================================================================== *)

#[local] Instance durable_by_received_at_trans : Transitive Durable.by_received_at.
Proof. intros a b c. unfold Durable.by_received_at. lia. Qed.

#[local] Instance durable_by_received_at_total : Total Durable.by_received_at.
Proof. intros a b. unfold Durable.by_received_at. lia. Qed.

(** The row that [getUndeliveredDonation] selects. *)
Lemma getUndeliveredDonation_oldest (db : Durable.Db) :
  oldest_undelivered Durable.received_at Durable.undelivered (Durable.donations db)
                     (Durable.getUndeliveredDonation_get db).
Proof.
  unfold Durable.getUndeliveredDonation_get.
  set (l := List.filter Durable.undelivered (Durable.donations db)).
  pose proof (merge_sort_Permutation Durable.by_received_at l) as Hperm.
  pose proof (StronglySorted_merge_sort Durable.by_received_at l) as Hsorted.
  destruct (merge_sort Durable.by_received_at l) as [|d s]; cbn [head oldest_undelivered].
  - intros d' Hd'. apply Permutation_nil in Hperm.
    destruct (Durable.undelivered d') eqn:Hu; [|reflexivity].
    assert (Hin : In d' l) by (apply filter_In; auto).
    rewrite Hperm in Hin. destruct Hin.
  - assert (Hd : In d l).
    { apply list_elem_of_In. rewrite <- Hperm. left. }
    apply filter_In in Hd as [Hd Hu]. split; [exact Hd|]. split; [exact Hu|].
    intros d' Hd' Hu'.
    assert (Hin : d' ∈ d :: s).
    { rewrite Hperm. apply list_elem_of_In, filter_In. auto. }
    apply StronglySorted_cons in Hsorted as [Hall _].
    apply elem_of_cons in Hin as [->|Hin].
    + unfold Durable.by_received_at. lia.
    + rewrite Forall_forall in Hall. apply (Hall d' Hin).
Qed.

Lemma StronglySorted_filter {A : Type} (R : relation A) (p : A -> bool) (l : list A) :
  StronglySorted R l -> StronglySorted R (List.filter p l).
Proof.
  induction 1 as [|x l Hl IH Hx]; cbn [List.filter]; [constructor|].
  destruct (p x); [|exact IH]. constructor; [exact IH|].
  apply List.Forall_forall. intros y Hy. apply filter_In in Hy as [Hy _].
  rewrite List.Forall_forall in Hx. exact (Hx y Hy).
Qed.

(** In a queue ordered by arrival, the first undelivered donation is an
    oldest one. *)
Lemma find_oldest (q : list Memory.Donation) :
  StronglySorted Memory.by_received_at q ->
  oldest_undelivered Memory.received_at Memory.undelivered q
                     (List.find Memory.undelivered q).
Proof.
  induction 1 as [|d q Hq IH Hd]; cbn [List.find].
  - intros d' [].
  - destruct (Memory.undelivered d) eqn:Hu.
    + split; [left; reflexivity|]. split; [exact Hu|].
      intros d' [<-|Hd'] _; [lia|].
      rewrite List.Forall_forall in Hd. exact (Hd d' Hd').
    + destruct (List.find Memory.undelivered q) as [d0|]; cbn [oldest_undelivered] in *.
      * destruct IH as (Hin & Hu0 & Hmin). split; [right; exact Hin|].
        split; [exact Hu0|]. intros d' [<-|Hd'] Hu'; [congruence | auto].
      * intros d' [<-|Hd']; [exact Hu | auto].
Qed.

Lemma sorted_by_received_at (q : list Memory.Donation) :
  StronglySorted Memory.by_received_at q <->
  StronglySorted Z.le (List.map Memory.received_at q).
Proof.
  induction q as [|d q IH]; cbn [List.map].
  - split; constructor.
  - rewrite !StronglySorted_cons, IH, List.Forall_map. reflexivity.
Qed.

Lemma arrival_order_ext (t : Z) (st st' : Memory.State) :
  List.map Memory.received_at (Memory.donationQueue st') =
  List.map Memory.received_at (Memory.donationQueue st) ->
  Memory.arrival_order t st -> Memory.arrival_order t st'.
Proof.
  intros Hmap [Hsorted Hbound]. split.
  - apply sorted_by_received_at. rewrite Hmap. apply sorted_by_received_at, Hsorted.
  - apply (proj1 (List.Forall_map Memory.received_at (fun x => x <= t) _)).
    rewrite Hmap.
    apply (proj2 (List.Forall_map Memory.received_at (fun x => x <= t) _)).
    exact Hbound.
Qed.

Lemma arrival_order_later (t now : Z) (st : Memory.State) :
  t <= now -> Memory.arrival_order t st -> Memory.arrival_order now st.
Proof.
  intros Hle [Hsorted Hbound]. split; [exact Hsorted|].
  eapply List.Forall_impl; [|exact Hbound]. cbv beta. intros d Hd. lia.
Qed.

Lemma arrival_order_enqueue (t now : Z) (d : Memory.Donation) (st : Memory.State) :
  t <= now -> Memory.received_at d = now ->
  Memory.arrival_order t st ->
  Memory.arrival_order now (Memory.set_queue (Memory.enqueue d (Memory.donationQueue st)) st).
Proof.
  intros Hle Hd [Hsorted Hbound]. unfold Memory.arrival_order.
  cbn [Memory.set_queue Memory.donationQueue]. rewrite enqueue_spec.
  set (q := if Nat.leb Memory.MAX_QUEUE_SIZE (length (Memory.donationQueue st))
            then tail (Memory.donationQueue st) else Memory.donationQueue st).
  assert (Hq : StronglySorted Memory.by_received_at q /\
               Forall (fun d => Memory.received_at d <= t) q).
  { subst q. destruct (Nat.leb _ _); [|auto].
    destruct (Memory.donationQueue st) as [|x q]; [auto|]. cbn [tail].
    apply StronglySorted_inv in Hsorted as [Hsorted _].
    apply List.Forall_cons_iff in Hbound as [_ Hbound]. auto. }
  destruct Hq as [Hq Hqt]. split.
  - apply StronglySorted_app. split; [|split; [exact Hq | repeat constructor]].
    intros x1 x2 Hx1 Hx2. apply list_elem_of_singleton in Hx2 as ->.
    rewrite Forall_forall in Hqt. specialize (Hqt x1 Hx1).
    unfold Memory.by_received_at. cbv beta in Hqt. lia.
  - apply Forall_app. split.
    + eapply List.Forall_impl; [|exact Hqt]. cbv beta. intros x Hx. lia.
    + repeat constructor. lia.
Qed.

Lemma arrival_order_handle (t now : Z) (ev : Memory.Event) (st : Memory.State) :
  t <= now -> Memory.arrival_order t st ->
  Memory.arrival_order now (Memory.handle now ev st).
Proof.
  intros Hle Hst.
  destruct ev as [body donationId isoNow|confirmId| | |]; cbn [Memory.handle].
  - destruct (Ingest.extract body) as [f|e] eqn:He.
    + apply (arrival_order_ext now
               (Memory.set_queue
                  (Memory.enqueue (Memory.makeDonation f donationId isoNow now)
                                  (Memory.donationQueue st)) st)).
      * rewrite (memory_saweria_queue _ _ _ _ _ _ He). reflexivity.
      * apply (arrival_order_enqueue t); [exact Hle | reflexivity | exact Hst].
    + rewrite (memory_saweria_extract_throws _ _ _ _ _ _ He).
      apply (arrival_order_later t); assumption.
  - apply (arrival_order_ext now st); [|apply (arrival_order_later t); assumption].
    unfold Memory.robloxCheck. destruct (truthy confirmId); cbn [fst]; [|reflexivity].
    cbn [Memory.set_queue Memory.donationQueue]. apply confirmDelivery_received_at.
  - destruct (arrival_order_later t now st Hle Hst) as [Hsorted Hbound]. split;
      cbn [Memory.cleanupOldDonations Memory.set_queue Memory.donationQueue].
    + apply StronglySorted_filter, Hsorted.
    + apply List.Forall_forall. intros d Hd. apply filter_In in Hd as [Hd _].
      rewrite List.Forall_forall in Hbound. exact (Hbound d Hd).
  - split; constructor.
  - apply (arrival_order_later t); assumption.
Qed.

Lemma arrival_order_run_from (trace : list (Z * Memory.Event)) (t : Z) (st : Memory.State) :
  Memory.arrival_order t st ->
  StronglySorted Z.le (t :: List.map fst trace) ->
  exists t', Memory.arrival_order t' (Memory.run_from st trace).
Proof.
  revert t st. induction trace as [|[now ev] trace IH]; intros t st Hst Hclock.
  - exists t. exact Hst.
  - cbn [Memory.run_from fold_left fst snd List.map] in *.
    apply StronglySorted_inv in Hclock as [Hrest Hfirst].
    apply List.Forall_cons_iff in Hfirst as [Hle _].
    apply (IH now); [|exact Hrest].
    apply (arrival_order_handle t); assumption.
Qed.

(** With a clock that never goes back, every state of a run has its queue
    in arrival order. *)
Lemma arrival_order_run (trace : list (Z * Memory.Event)) :
  Memory.monotone trace ->
  exists t, Memory.arrival_order t (Memory.run trace).
Proof.
  intros Hmono. unfold Memory.monotone in Hmono.
  apply Sorted_StronglySorted in Hmono; [|intros a b c; lia].
  destruct trace as [|[now ev] trace].
  - exists 0. split; constructor.
  - apply (arrival_order_run_from _ now); [split; constructor|].
    constructor; [exact Hmono|]. cbn [List.map fst] in *.
    constructor; [lia|]. apply StronglySorted_inv in Hmono as [_ Hall]. exact Hall.
Qed.

(** The queue after a poll: the donations of the queue before, in their
    order, of which only ones with the confirmed id have changed, to
    delivered. *)
Lemma confirmDelivery_marks (c : JsValue) (q : list Memory.Donation) :
  Forall2 (fun d d' => d' = d \/ (Memory.idIs c d = true /\ d' = Memory.set_delivered d))
          q (Memory.confirmDelivery c q).
Proof.
  induction q as [|d q IH]; cbn [Memory.confirmDelivery]; [constructor|].
  destruct (Memory.idIs c d) eqn:Hd.
  - constructor; [right; auto|]. apply Forall2_same_length_lookup. split; [reflexivity|].
    intros i x y Hx Hy. left. congruence.
  - constructor; [left; reflexivity | exact IH].
Qed.

Lemma markDelivered_marks (confirmId : JsValue) (db db' : Durable.Db) :
  Durable.markDelivered_run confirmId db = Ok db' ->
  Durable.top_spenders db' = Durable.top_spenders db /\
  Forall2 (fun r r' => r' = r \/
                       (Durable.bindArgs [confirmId] false = Ok [Durable.SqlText (Durable.id r)] /\
                        r' = Durable.set_delivered r))
          (Durable.donations db) (Durable.donations db').
Proof.
  unfold Durable.markDelivered_run.
  destruct (Durable.bindArgs [confirmId] false) as [[|v [|]]|e]; cbn [bind]; try discriminate.
  intros [= <-]. split; [reflexivity|]. cbn [Durable.donations].
  assert (Hmark : forall r,
            let r' := if Durable.sql_eqb (Durable.SqlText (Durable.id r)) v
                      then Durable.set_delivered r else r in
            r' = r \/ (Ok [v] = Ok [Durable.SqlText (Durable.id r)] /\
                       r' = Durable.set_delivered r)).
  { intros r. cbv zeta.
    destruct (Durable.sql_eqb (Durable.SqlText (Durable.id r)) v) eqn:Hv; [|left; reflexivity].
    apply sql_eqb_eq in Hv as <-. right. auto. }
  induction (Durable.donations db) as [|r rows IH]; cbn [List.map]; constructor;
    [apply (Hmark r) | exact IH].
Qed.

(** What [find] returns. *)
Lemma find_first_undelivered {D : Type} (undelivered : D -> bool) (q : list D) :
  first_undelivered undelivered q (List.find undelivered q).
Proof.
  induction q as [|d q IH]; cbn [List.find first_undelivered]; [constructor|].
  destruct (undelivered d) eqn:Hd.
  - exists [], q. split; [reflexivity|]. split; [exact Hd | constructor].
  - destruct (List.find undelivered q) as [d0|]; cbn [first_undelivered] in *.
    + destruct IH as (pre & post & -> & Hd0 & Hpre).
      exists (d :: pre), post. split; [reflexivity|]. split; [exact Hd0|].
      constructor; assumption.
    + constructor; assumption.
Qed.

(** C6, as the code has it. A poll that confirms nothing leaves the store
    as it is; one that confirms an id leaves the donations in place and
    changes only ones with that id, to delivered. The answer is then read
    off that store. In the durable server it is an undelivered row whose
    [received_at] is least among the undelivered rows, or nothing when
    there is none, in every state of the database; a poll without
    confirmation, or confirming a string, always answers. The in-memory
    server answers with the first undelivered donation in the order of
    the queue, in every state; that donation is one whose [received_at]
    is least in every state of a run whose clock readings never go
    back. *)
Theorem poll_returns_oldest_undelivered :
  (forall (confirmId : JsValue) (db : Durable.Db) (b : CheckBody Durable.DonationRow),
      snd (Durable.robloxCheck confirmId db) = Json b ->
      let db' := fst (Durable.robloxCheck confirmId db) in
      (truthy confirmId = false -> db' = db) /\
      Forall2 (fun r r' =>
                 r' = r \/
                 (Durable.bindArgs [confirmId] false = Ok [Durable.SqlText (Durable.id r)] /\
                  r' = Durable.set_delivered r))
              (Durable.donations db) (Durable.donations db') /\
      oldest_undelivered Durable.received_at Durable.undelivered
        (Durable.donations db') (donation b)) /\
  (forall (confirmId : JsValue) (db : Durable.Db),
      confirmId = JUndefined \/ (exists s, confirmId = JStr s) ->
      is_error (snd (Durable.robloxCheck confirmId db)) = false) /\
  (forall (confirmId : JsValue) (st : Memory.State),
      let st' := fst (Memory.robloxCheck confirmId st) in
      (truthy confirmId = false -> st' = st) /\
      Forall2 (fun d d' =>
                 d' = d \/ (Memory.idIs confirmId d = true /\ d' = Memory.set_delivered d))
              (Memory.donationQueue st) (Memory.donationQueue st') /\
      exists b,
        snd (Memory.robloxCheck confirmId st) = Json b /\
        first_undelivered Memory.undelivered (Memory.donationQueue st') (donation b)) /\
  (forall (trace : list (Z * Memory.Event)) (confirmId : JsValue),
      Memory.monotone trace ->
      exists b,
        snd (Memory.robloxCheck confirmId (Memory.run trace)) = Json b /\
        oldest_undelivered Memory.received_at Memory.undelivered
          (Memory.donationQueue (fst (Memory.robloxCheck confirmId (Memory.run trace))))
          (donation b)).
Proof.
  repeat apply conj.
  - intros confirmId db b. unfold Durable.robloxCheck.
    destruct (truthy confirmId) eqn:Hc.
    + destruct (Durable.markDelivered_run confirmId db) as [db1|e] eqn:Hmark;
        cbn [fst snd]; [|discriminate].
      intros [= <-]. split; [discriminate|].
      split; [exact (proj2 (markDelivered_marks _ _ _ Hmark))|].
      apply getUndeliveredDonation_oldest.
    + cbn [fst snd]. intros [= <-]. split; [reflexivity|]. split.
      * apply Forall2_same_length_lookup. split; [reflexivity|].
        intros i x y Hx Hy. left. congruence.
      * apply getUndeliveredDonation_oldest.
  - intros confirmId db [->|[s ->]]; [reflexivity|].
    unfold Durable.robloxCheck. rewrite durable_confirm_string.
    destruct (truthy (JStr s)); reflexivity.
  - intros confirmId st. cbn zeta. unfold Memory.robloxCheck.
    destruct (truthy confirmId) eqn:Hc; cbn [fst snd].
    + split; [discriminate|]. cbn [Memory.set_queue Memory.donationQueue].
      split; [apply confirmDelivery_marks|].
      eexists. split; [reflexivity|]. apply find_first_undelivered.
    + split; [reflexivity|]. split.
      * apply Forall2_same_length_lookup. split; [reflexivity|].
        intros i x y Hx Hy. left. congruence.
      * eexists. split; [reflexivity|]. apply find_first_undelivered.
  - intros trace confirmId Hmono.
    destruct (arrival_order_run trace Hmono) as [t Hst].
    eexists. split; [reflexivity|]. cbn [donation].
    apply find_oldest.
    assert (Hafter : Memory.arrival_order t (fst (Memory.robloxCheck confirmId (Memory.run trace)))).
    { apply (arrival_order_handle t t (Memory.GetRobloxCheck confirmId)); [lia | exact Hst]. }
    exact (proj1 Hafter).
Qed.

Lemma poll_returns_oldest_undelivered_witness :
  exists b,
    snd (Memory.robloxCheck JUndefined (Memory.run Sample.two_then_confirm)) = Json b /\
    oldest_undelivered Memory.received_at Memory.undelivered
      (Memory.donationQueue
         (fst (Memory.robloxCheck JUndefined (Memory.run Sample.two_then_confirm))))
      (donation b).
Proof.
  destruct poll_returns_oldest_undelivered as (_ & _ & _ & Hmemory).
  apply (Hmemory Sample.two_then_confirm JUndefined).
  unfold Memory.monotone, Sample.two_then_confirm. cbn [List.map fst].
  repeat constructor; lia.
Defined.

(** C6 as worded fails for the in-memory server: when the clock goes
    back between two ingests, the poll returns the donation that arrived
    first, whose [received_at] is not the least. *)
Lemma backward_clock_poll_is_not_oldest :
  let st := Memory.run Sample.backward_clock in
  exists b d d',
    Memory.robloxCheck JUndefined st = (st, Json b) /\
    donation b = Some d /\
    In d' (Memory.donationQueue st) /\ Memory.undelivered d' = true /\
    Memory.received_at d' < Memory.received_at d /\
    ~ oldest_undelivered Memory.received_at Memory.undelivered
        (Memory.donationQueue st) (donation b).
Proof.
  cbn zeta. eexists _, _, _. split; [vm_compute; reflexivity|].
  split; [reflexivity|]. split; [right; left; reflexivity|].
  split; [reflexivity|]. split; [reflexivity|].
  intros (_ & _ & Hmin).
  specialize (Hmin _ (or_intror (or_introl eq_refl)) eq_refl).
  vm_compute in Hmin. apply Hmin. reflexivity.
Qed.

(* ===================================================================== *)
(** ** The worked example of the specification                             *)
(* ===================================================================== *)

(** [{"donatur_name": "Budi", "amount_raw": "5000", "message": "hi"}] is
    queued as Budi, 5000, "hi"; the next poll returns it; confirming it
    empties the queue of undelivered donations. *)
Example budi_is_queued_polled_and_confirmed :
  let st1 := fst (Memory.saweria Sample.budi_5000 "1-a" "t" 1 Memory.initial) in
  let poll := Memory.robloxCheck JUndefined st1 in
  let confirm := Memory.robloxCheck (JStr "1-a") (fst poll) in
  let queued := Memory.makeDonation
                  {| Ingest.f_username := JStr "Budi"; Ingest.f_amount := of_Z 5000;
                     Ingest.f_message := JStr "hi" |} "1-a" "t" 1 in
  Memory.donationQueue st1 = [queued] /\
  snd poll = Json {| donation := Some queued; check_queue_size := 1 |} /\
  snd confirm = Json {| donation := None; check_queue_size := 0 |}.
Proof. repeat split. Qed.

Example budi_is_queued_polled_and_confirmed_durable :
  let db1 := fst (Durable.saweria Sample.budi_5000 "1-a" "t" 1 Durable.empty) in
  let poll := Durable.robloxCheck JUndefined db1 in
  let confirm := Durable.robloxCheck (JStr "1-a") (fst poll) in
  let row := {| Durable.id := "1-a"; Durable.username := Durable.SqlText "Budi";
                Durable.display_name := Durable.SqlText "Budi";
                Durable.amount := Durable.SqlNum (Durable.NumInteger 5000);
                Durable.message := Durable.SqlText "hi";
                Durable.timestamp := "t"; Durable.received_at := 1;
                Durable.delivered := false |} in
  Durable.donations db1 = [row] /\
  snd poll = Json {| donation := Some row; check_queue_size := 1 |} /\
  snd confirm = Json {| donation := None; check_queue_size := 0 |}.
Proof. repeat split. Qed.

(* ===================================================================== *)
(** ** [parseInt] on the decimal form of an integer                        *)
(* ===================================================================== *)

Lemma pretty_N_go_app (x : N) (s1 s2 : string) :
  pretty_N_go x s1 +:+ s2 = pretty_N_go x (s1 +:+ s2).
Proof.
  revert s1. induction (N.lt_wf_0 x) as [x _ IH]; intros s1.
  destruct (decide (x = 0%N)) as [->|Hx]; [reflexivity|].
  rewrite (pretty_N_go_step x s1), (pretty_N_go_step x (s1 +:+ s2)) by lia.
  rewrite IH by (apply N.div_lt; lia). reflexivity.
Qed.

Lemma digitValue_pretty_N_char (d : N) :
  (d < 10)%N -> digitValue (pretty_N_char d) = Some (Z.of_N d).
Proof.
  intros Hd.
  assert (Hcases : (d = 0 \/ d = 1 \/ d = 2 \/ d = 3 \/ d = 4 \/ d = 5 \/ d = 6 \/
                    d = 7 \/ d = 8 \/ d = 9)%N) by lia.
  repeat (destruct Hcases as [->|Hcases]; [reflexivity|]). subst d. reflexivity.
Qed.

(** Reading the digits that [pretty_N_go] puts in front of [s]. *)
Lemma parseDigits_pretty_N_go (x : N) :
  (0 < x)%N ->
  forall (s : string) (acc : option Z),
    default 0 acc = 0 ->
    parseDigits 10 (pretty_N_go x s) acc = parseDigits 10 s (Some (Z.of_N x)).
Proof.
  induction (N.lt_wf_0 x) as [x _ IH]; intros Hx s acc Hacc.
  rewrite pretty_N_go_step by exact Hx.
  assert (Hmod : (x `mod` 10 < 10)%N) by (apply N.mod_lt; lia).
  assert (Hsplit : Z.of_N x = 10 * Z.of_N (x `div` 10) + Z.of_N (x `mod` 10)).
  { rewrite (N.div_mod x 10) at 1 by lia. lia. }
  destruct (decide (x `div` 10 = 0)%N) as [Hq|Hq].
  - rewrite Hq, pretty_N_go_0. cbn [parseDigits].
    rewrite (digitValue_pretty_N_char _ Hmod).
    destruct (Z.ltb_spec (Z.of_N (x `mod` 10)) 10) as [_|Hge]; [|lia].
    rewrite Hacc, Hsplit, Hq. reflexivity.
  - rewrite (IH (x `div` 10)%N) by (try apply N.div_lt; try exact Hacc; lia).
    cbn [parseDigits]. rewrite (digitValue_pretty_N_char _ Hmod).
    destruct (Z.ltb_spec (Z.of_N (x `mod` 10)) 10) as [_|Hge]; [|lia].
    cbn [default]. rewrite Hsplit. reflexivity.
Qed.

(** The decimal form of a positive number starts with a digit from 1 to
    9. *)
Lemma pretty_N_go_head (x : N) (s : string) :
  (0 < x)%N ->
  exists (d : N) (rest : string),
    (0 < d < 10)%N /\ pretty_N_go x s = String (pretty_N_char d) rest.
Proof.
  revert s. induction (N.lt_wf_0 x) as [x _ IH]; intros s Hx.
  rewrite pretty_N_go_step by exact Hx.
  destruct (decide (x `div` 10 = 0)%N) as [Hq|Hq].
  - rewrite Hq, pretty_N_go_0. exists (x `mod` 10)%N, s. split; [|reflexivity].
    assert (Hmod : (x `mod` 10 < 10)%N) by (apply N.mod_lt; lia).
    pose proof (N.div_mod x 10 ltac:(lia)) as Hdm. rewrite Hq in Hdm. lia.
  - apply IH; [apply N.div_lt; lia | apply N.neq_0_lt_0, Hq].
Qed.

(** A string that starts with a digit from 1 to 9 is read in radix 10 from
    its first character. *)
Lemma parseIntString_digit_head (d : N) (rest : string) :
  (0 < d < 10)%N ->
  parseIntString (String (pretty_N_char d) rest) =
  match parseDigits 10 (String (pretty_N_char d) rest) None with
  | None => NaN
  | Some m => if Z.eqb m 0 then S754_zero false else of_Z (1 * m)
  end.
Proof.
  intros Hd.
  assert (Hcases : (d = 1 \/ d = 2 \/ d = 3 \/ d = 4 \/ d = 5 \/ d = 6 \/
                    d = 7 \/ d = 8 \/ d = 9)%N) by lia.
  repeat (destruct Hcases as [->|Hcases]; [reflexivity|]). subst d. reflexivity.
Qed.

Lemma parseDigits_stop (s : string) (acc : option Z) :
  stops_digits s = true -> parseDigits 10 s acc = acc.
Proof.
  destruct s as [|c s]; [reflexivity|]. cbn [stops_digits parseDigits].
  destruct (digitValue c) as [d|]; [|reflexivity].
  intros Hd%Z.leb_le. destruct (Z.ltb_spec d 10); [lia | reflexivity].
Qed.

Lemma parseIntString_positive (p : positive) (s : string) :
  stops_digits s = true ->
  parseIntString (pretty (Z.pos p) +:+ s) = of_Z (Z.pos p).
Proof.
  intros Hs. change (pretty (Z.pos p)) with (pretty (N.pos p)).
  unfold pretty, pretty_N. destruct (decide (N.pos p = 0%N)) as [Hp|_]; [discriminate Hp|].
  rewrite pretty_N_go_app. change ("" +:+ s) with s.
  destruct (pretty_N_go_head (N.pos p) s ltac:(lia)) as (d & rest & Hd & Hhead).
  pose proof (parseDigits_pretty_N_go (N.pos p) ltac:(lia) s None eq_refl) as Hparse.
  rewrite Hhead in *. rewrite (parseIntString_digit_head d rest Hd), Hparse.
  rewrite parseDigits_stop by exact Hs. reflexivity.
Qed.

Lemma parseIntString_minus_digit_head (d : N) (rest : string) :
  (0 < d < 10)%N ->
  parseIntString (String "-" (String (pretty_N_char d) rest)) =
  match parseDigits 10 (String (pretty_N_char d) rest) None with
  | None => NaN
  | Some m => if Z.eqb m 0 then S754_zero true else of_Z (-1 * m)
  end.
Proof.
  intros Hd.
  assert (Hcases : (d = 1 \/ d = 2 \/ d = 3 \/ d = 4 \/ d = 5 \/ d = 6 \/
                    d = 7 \/ d = 8 \/ d = 9)%N) by lia.
  repeat (destruct Hcases as [->|Hcases]; [reflexivity|]). subst d. reflexivity.
Qed.

Lemma parseIntString_negative (p : positive) (s : string) :
  stops_digits s = true ->
  parseIntString (pretty (Z.neg p) +:+ s) = of_Z (Z.neg p).
Proof.
  intros Hs. change (pretty (Z.neg p)) with ("-" +:+ pretty (N.pos p)).
  unfold pretty, pretty_N. destruct (decide (N.pos p = 0%N)) as [Hp|_]; [discriminate Hp|].
  change (("-" +:+ pretty_N_go (N.pos p) "") +:+ s)
    with (String "-" (pretty_N_go (N.pos p) "" +:+ s)).
  rewrite pretty_N_go_app. change ("" +:+ s) with s.
  destruct (pretty_N_go_head (N.pos p) s ltac:(lia)) as (d & rest & Hd & Hhead).
  pose proof (parseDigits_pretty_N_go (N.pos p) ltac:(lia) s None eq_refl) as Hparse.
  rewrite Hhead in *. rewrite (parseIntString_minus_digit_head d rest Hd), Hparse.
  rewrite parseDigits_stop by exact Hs. reflexivity.
Qed.

Lemma parseIntString_zero (s : string) :
  stops_digits s = true -> no_hex_mark s = true ->
  parseIntString ("0" +:+ s) = of_Z 0.
Proof.
  intros Hs Hx. change ("0" +:+ s) with (String "0" s).
  destruct s as [|c s]; [reflexivity|].
  assert (Hhead : parseIntString (String "0" (String c s)) =
                  match parseDigits 10 (String c s) (Some 0) with
                  | None => NaN
                  | Some m => if Z.eqb m 0 then S754_zero false else of_Z (1 * m)
                  end).
  { destruct c as [[] [] [] [] [] [] [] []]; try reflexivity; discriminate Hx. }
  rewrite Hhead, parseDigits_stop by exact Hs. reflexivity.
Qed.

Lemma string_app_empty (s : string) : s +:+ "" = s.
Proof.
  induction s as [|c s IH]; [reflexivity|].
  change (String c (s +:+ "") = String c s). rewrite IH. reflexivity.
Qed.

Lemma truthy_of_Z (z : Z) : safe z -> truthy (of_Z z) = negb (Z.eqb z 0).
Proof.
  intros Hz. pose proof (of_Z_cases z Hz) as Hc.
  destruct z; rewrite Hc; reflexivity.
Qed.

(** [parseInt] reads back the decimal form of any integer, and ignores
    what follows the digits: for an integer [z] and a text [s] that does
    not start with a decimal digit (nor with [x] or [X] after a lone
    "0"), the string made of the digits of [z] and then [s] parses to the
    Number nearest to [z]. For a safe integer that Number stands for [z]
    itself, and it is truthy unless [z] is 0. *)
Theorem parseInt_reads_back_decimal (z : Z) (s : string) :
  stops_digits s = true ->
  (z = 0 -> no_hex_mark s = true) ->
  parseInt (JStr (pretty z +:+ s)) = Ok (of_Z z) /\
  (safe z -> integerValue (of_Z z) = Some z /\ truthy (of_Z z) = negb (Z.eqb z 0)).
Proof.
  intros Hs Hx. unfold parseInt. cbn [ToString bind]. split.
  - f_equal. destruct z as [|p|p].
    + apply parseIntString_zero; auto.
    + apply parseIntString_positive, Hs.
    + apply parseIntString_negative, Hs.
  - intros Hz. split; [apply integerValue_of_Z, Hz | apply truthy_of_Z, Hz].
Qed.

Lemma parseInt_reads_back_decimal_witness :
  parseInt (JStr (pretty 5000 +:+ ".50 IDR")) = Ok (of_Z 5000) /\
  integerValue (of_Z 5000) = Some 5000.
Proof.
  destruct (parseInt_reads_back_decimal 5000 ".50 IDR") as [Hparse Hsafe];
    [reflexivity | intros H; discriminate H |].
  split; [exact Hparse | exact (proj1 (Hsafe eq_refl))].
Defined.

(* ===================================================================== *)
(** ** What the extraction yields, and which bodies are accepted           *)
(* ===================================================================== *)

Lemma extracted_inv (attr : Ingest.Attribute) (data : JsValue) (v : JsValue) :
  Ingest.extracted attr data = Ok v ->
  v = Ingest.fallback attr \/
  (truthy v = true /\ exists k, In k (Ingest.aliases attr) /\ Ingest.read attr data k = Ok v).
Proof.
  rewrite extracted_chain. intros Hv.
  destruct (first_truthy_inv _ _ _ Hv) as [[= <-]|[Hin Ht]]; [left; reflexivity|].
  right. split; [exact Ht|]. apply in_map_iff in Hin as (k & Hk & Hin). eauto.
Qed.

Lemma extract_shape (data : JsValue) (f : Ingest.Fields) :
  Ingest.extract data = Ok f ->
  truthy (Ingest.f_username f) = true /\
  (Ingest.f_username f = JStr "Anonymous" \/
   exists k, In k Ingest.username_aliases /\ get data k = Ok (Ingest.f_username f)) /\
  (Ingest.f_message f = JStr "" \/
   (truthy (Ingest.f_message f) = true /\
    exists k, In k Ingest.message_aliases /\ get data k = Ok (Ingest.f_message f))).
Proof.
  intros He. destruct (extract_inv _ _ He) as (Hu & _ & Hm).
  apply (extracted_inv Ingest.Username) in Hu. apply (extracted_inv Ingest.Message) in Hm.
  cbn [Ingest.fallback Ingest.aliases Ingest.read] in Hu, Hm.
  split; [|split].
  - destruct Hu as [->|[Ht _]]; [reflexivity | exact Ht].
  - destruct Hu as [->|[_ Hk]]; [left; reflexivity | right; exact Hk].
  - destruct Hm as [->|Hk]; [left; reflexivity | right; exact Hk].
Qed.

(** The extracted username is never falsy: it is "Anonymous" or the truthy
    value of one of the username aliases, so never the empty string,
    [null], [false] or 0. The message is the empty string or the truthy
    value of one of the message aliases. *)
Theorem extracted_username_is_truthy (data : JsValue) (f : Ingest.Fields) :
  Ingest.extract data = Ok f ->
  truthy (Ingest.f_username f) = true /\
  (Ingest.f_username f = JStr "Anonymous" \/
   exists k, In k Ingest.username_aliases /\ get data k = Ok (Ingest.f_username f)) /\
  (Ingest.f_message f = JStr "" \/
   (truthy (Ingest.f_message f) = true /\
    exists k, In k Ingest.message_aliases /\ get data k = Ok (Ingest.f_message f))).
Proof. exact (extract_shape data f). Qed.

Lemma extracted_username_is_truthy_witness :
  truthy (JStr "Budi") = true.
Proof.
  exact (proj1 (extracted_username_is_truthy Sample.budi_5000
                  {| Ingest.f_username := JStr "Budi"; Ingest.f_amount := of_Z 5000;
                     Ingest.f_message := JStr "hi" |} eq_refl)).
Defined.

Lemma first_truthy_all_ok {A : Type} `{Truthy A} (P : A -> Prop) (xs : list (result A))
    (fb : A) :
  Forall (fun x => exists v, x = Ok v /\ P v) xs -> P fb ->
  exists v, Ingest.first_truthy xs (Ok fb) = Ok v /\ P v.
Proof.
  intros Hxs Hfb. induction Hxs as [|x xs (v & -> & Hv) _ IH]; cbn [Ingest.first_truthy].
  - eauto.
  - cbn [or_else]. destruct (truthy v); [eauto | exact IH].
Qed.

Lemma plain_prints (v : JsValue) : Ingest.plain v = true -> exists s, ToString v = Ok s.
Proof. destruct v as [| | |n| | |]; try discriminate; cbn; eauto. Qed.

(** The fields extracted from an object whose alias fields are plain. *)
Lemma extract_flat (fields : list (string * JsValue)) :
  (forall k v, In k Ingest.all_aliases -> lookup_field k fields = Some v -> Ingest.plain v = true) ->
  exists f, Ingest.extract (JObj fields) = Ok f /\
            Ingest.plain (Ingest.f_username f) = true /\ Ingest.plain (Ingest.f_message f) = true.
Proof.
  intros Hflat.
  assert (Hget : forall k, In k Ingest.all_aliases ->
                 exists v, get (JObj fields) k = Ok v /\ Ingest.plain v = true).
  { intros k Hk. cbn [get]. destruct (lookup_field k fields) as [v|] eqn:Hv.
    - exists v. split; [reflexivity | exact (Hflat k v Hk Hv)].
    - exists JUndefined. split; reflexivity. }
  assert (Hin : forall attr k, In k (Ingest.aliases attr) -> In k Ingest.all_aliases).
  { intros attr k Hk. unfold Ingest.all_aliases. apply in_app_iff.
    destruct attr; cbn [Ingest.aliases] in Hk; [left; exact Hk | right | right];
      apply in_app_iff; [left | right]; exact Hk. }
  destruct (first_truthy_all_ok (fun v => Ingest.plain v = true)
              (List.map (Ingest.read Ingest.Username (JObj fields))
                        (Ingest.aliases Ingest.Username)) (JStr "Anonymous"))
    as (u & Hu & Hpu); [|reflexivity|].
  { apply List.Forall_forall. intros x Hx. apply in_map_iff in Hx as (k & <- & Hk).
    apply Hget, (Hin Ingest.Username), Hk. }
  destruct (first_truthy_all_ok (fun v => Ingest.plain v = true)
              (List.map (Ingest.read Ingest.Message (JObj fields))
                        (Ingest.aliases Ingest.Message)) (JStr ""))
    as (m & Hm & Hpm); [|reflexivity|].
  { apply List.Forall_forall. intros x Hx. apply in_map_iff in Hx as (k & <- & Hk).
    apply Hget, (Hin Ingest.Message), Hk. }
  destruct (first_truthy_all_ok (fun _ => True)
              (List.map (Ingest.parsed (JObj fields)) Ingest.amount_aliases) (of_Z 0))
    as (a & Ha & _); [|exact I|].
  { apply List.Forall_forall. intros x Hx. apply in_map_iff in Hx as (k & <- & Hk).
    unfold Ingest.parsed.
    destruct (Hget k (Hin Ingest.Amount k Hk)) as (v & -> & Hv). cbn [bind].
    destruct (plain_prints v Hv) as (s & Hs). unfold parseInt. rewrite Hs. cbn. eauto. }
  rewrite <- (extracted_chain Ingest.Username) in Hu.
  rewrite <- (extracted_chain Ingest.Message) in Hm.
  rewrite <- amount_chain in Ha. cbn [Ingest.extracted] in Hu, Hm.
  exists {| Ingest.f_username := u; Ingest.f_amount := a; Ingest.f_message := m |}.
  unfold Ingest.extract. rewrite Hu, Ha, Hm. cbn. auto.
Qed.

(** With arguments that each bind one value, the username not NULL, a
    durable ingest under a fresh id inserts its row and runs the
    upsert. *)
Lemma durable_saweria_scalars (body : JsValue) (f : Ingest.Fields) (x m : Durable.SqlValue)
    (donationId isoNow : string) (now : Z) (db : Durable.Db) :
  Ingest.extract body = Ok f ->
  Durable.bindValue (Ingest.f_username f) = Ok x -> Durable.is_null x = false ->
  Durable.bindValue (Ingest.f_message f) = Ok m ->
  existsb (fun row => String.eqb (Durable.id row) donationId) (Durable.donations db) = false ->
  exists row,
    Durable.id row = donationId /\
    Durable.saweria body donationId isoNow now db =
    match Durable.upsert x x (Durable.stored_amount (Ingest.f_amount f))
                         (Durable.top_spenders db) with
    | Ok rows =>
        let db' := {| Durable.donations := Durable.donations db ++ [row];
                      Durable.top_spenders := rows |} in
        (db', Json {| success := true; donation_id := donationId;
                      queue_size := Durable.undeliveredCount db' |})
    | Throw e =>
        ({| Durable.donations := Durable.donations db ++ [row];
            Durable.top_spenders := Durable.top_spenders db |}, Error 400 e)
    end.
Proof.
  intros He Hx Hnull Hm Hfresh. pose proof (extract_inv _ _ He) as (_ & Ha & _).
  apply amount_not_nan in Ha.
  unfold Durable.saweria. rewrite He.
  unfold Durable.insertDonation_run, Durable.updateTopSpender_run.
  rewrite (binds_one_str donationId), !(binds_one_scalar _ _ Hx), (binds_one_num _ Ha),
    (binds_one_scalar _ _ Hm), (binds_one_str isoNow), (binds_one_clock now).
  cbn [Durable.bindArgs bind]. rewrite Hnull. cbn [orb Durable.is_null].
  rewrite Hfresh. cbn [bind Durable.top_spenders Durable.bindValue].
  unfold Durable.of_double. rewrite Ha. cbn [from_option bind]. rewrite Hnull. cbn [orb].
  unfold Durable.stored_amount. eexists. split; [|
    destruct (Durable.upsert _ _ _ _) as [rows|e]; cbn [bind]; reflexivity].
  reflexivity.
Qed.

Lemma of_Z_finite (z : Z) : safe z -> is_infinite (of_Z z) = false.
Proof.
  intros Hz. pose proof (of_Z_cases z Hz) as Hc. destruct z; rewrite Hc; reflexivity.
Qed.

(** A body that is a flat object is never refused for its shape: when
    every alias field it has holds a string, a number or [null], the
    in-memory server answers the ingest with success; the durable server,
    when the generated id is not yet in its table, inserts the donation,
    and answers with success when the amount is a safe integer. *)
Theorem flat_object_is_accepted (fields : list (string * JsValue)) :
  (forall k v, In k Ingest.all_aliases -> lookup_field k fields = Some v -> Ingest.plain v = true) ->
  (forall (donationId isoNow : string) (now : Z) (st : Memory.State),
      is_error (snd (Memory.saweria (JObj fields) donationId isoNow now st)) = false) /\
  (forall (donationId isoNow : string) (now : Z) (db : Durable.Db),
      existsb (fun row => String.eqb (Durable.id row) donationId) (Durable.donations db)
        = false ->
      let res := Durable.saweria (JObj fields) donationId isoNow now db in
      (exists row, Durable.donations (fst res) = Durable.donations db ++ [row] /\
                   Durable.id row = donationId) /\
      ((forall f, Ingest.extract (JObj fields) = Ok f ->
                  exists z, safe z /\ Ingest.f_amount f = of_Z z) ->
       is_error (snd res) = false)).
Proof.
  intros Hflat. destruct (extract_flat fields Hflat) as (f & He & Hu & Hm). split.
  - intros donationId isoNow now st. unfold Memory.saweria. rewrite He.
    destruct (plain_prints _ Hu) as (key & ->). reflexivity.
  - intros donationId isoNow now db Hfresh.
    destruct (extract_shape _ _ He) as (Htu & _ & Htm).
    assert (Hbu : exists x, Durable.bindValue (Ingest.f_username f) = Ok x /\
                            Durable.is_null x = false).
    { revert Htu Hu. destruct (Ingest.f_username f) as [| | |n| | |];
        intros Htu Hu; try discriminate Htu; try discriminate Hu; cbn; eauto.
      unfold Durable.of_double. rewrite (truthy_not_nan n Htu). cbn. eauto. }
    assert (Hbm : exists y, Durable.bindValue (Ingest.f_message f) = Ok y).
    { revert Hm Htm. destruct (Ingest.f_message f) as [| | |n| | |];
        intros Hm Htm; try discriminate Hm; cbn; eauto.
      destruct Htm as [Hm0|[Hm0 _]]; discriminate Hm0. }
    destruct Hbu as (x & Hx & Hnull). destruct Hbm as (y & Hy).
    destruct (durable_saweria_scalars _ f x y donationId isoNow now db He Hx Hnull Hy Hfresh)
      as (row & Hid & Hrun).
    cbn zeta. rewrite Hrun. split.
    + exists row. destruct (Durable.upsert _ _ _ _); auto.
    + intros Hsafe. destruct (Hsafe f He) as (z & Hz & Hamt).
      destruct (upsert_finite x x (Durable.stored_amount (Ingest.f_amount f))
                  (Durable.top_spenders db)) as [rows ->]; [|reflexivity].
      rewrite Hamt, (stored_amount_safe z Hz). apply of_Z_finite, Hz.
Qed.

Lemma flat_object_is_accepted_witness :
  is_error (snd (Memory.saweria Sample.budi_5000 "1-a" "t" 1 Memory.initial)) = false.
Proof.
  apply (flat_object_is_accepted
           [("donatur_name", JStr "Budi"); ("amount_raw", JStr "5000"); ("message", JStr "hi")]).
  intros k v Hk Hv. cbn in Hk.
  repeat (destruct Hk as [<-|Hk]; [cbn in Hv; try discriminate Hv; injection Hv as <-; reflexivity|]).
  contradiction.
Defined.

(* ===================================================================== *)
(** ** The cleanup sweep                                                   *)
(* ===================================================================== *)

Lemma filter_absorbs {A : Type} (p q : A -> bool) (l : list A) :
  (forall x, q x = true -> p x = true) ->
  List.filter q (List.filter p l) = List.filter q l.
Proof.
  intros Hqp. induction l as [|x l IH]; cbn [List.filter]; [reflexivity|].
  destruct (p x) eqn:Hp; cbn [List.filter].
  - rewrite IH. reflexivity.
  - destruct (q x) eqn:Hq; [|exact IH]. rewrite (Hqp x Hq) in Hp. discriminate Hp.
Qed.

Lemma keeps_iff (now : Z) (d : Memory.Donation) :
  Memory.keeps now d = true <->
  now - Memory.received_at d <= 120000 /\
  (Memory.delivered d = true -> now - Memory.received_at d <= 30000).
Proof.
  unfold Memory.keeps, Memory.DONATION_LIFETIME.
  destruct (Z.ltb_spec 120000 (now - Memory.received_at d)) as [H1|H1].
  - split; [discriminate | intros [H _]; lia].
  - destruct (Memory.delivered d); cbn [andb].
    + destruct (Z.ltb_spec 30000 (now - Memory.received_at d)) as [H2|H2].
      * split; [discriminate | intros [_ H]; specialize (H eq_refl); lia].
      * split; [intros _; split; [lia | intros _; lia] | reflexivity].
    + split; [intros _; split; [lia | discriminate] | reflexivity].
Qed.

(** The in-memory sweep at clock reading [now] keeps exactly the donations
    that are at most 120 s old and, when delivered, at most 30 s old, in
    their order; and a sweep makes every earlier sweep redundant: sweeping
    at [earlier] and then at [now] is sweeping at [now]. *)
Theorem memory_cleanup_lifetimes (now : Z) (st : Memory.State) :
  (forall d, In d (Memory.donationQueue (Memory.cleanupOldDonations now st)) <->
             In d (Memory.donationQueue st) /\
             now - Memory.received_at d <= 120000 /\
             (Memory.delivered d = true -> now - Memory.received_at d <= 30000)) /\
  (forall earlier, earlier <= now ->
     Memory.cleanupOldDonations now (Memory.cleanupOldDonations earlier st) =
     Memory.cleanupOldDonations now st).
Proof.
  split.
  - intros d. cbn [Memory.cleanupOldDonations Memory.set_queue Memory.donationQueue].
    rewrite filter_In, keeps_iff. reflexivity.
  - intros earlier Hle. unfold Memory.cleanupOldDonations, Memory.set_queue.
    cbn [Memory.donationQueue Memory.topSpenders Memory.lastRawData Memory.builtinTotals].
    rewrite filter_absorbs; [reflexivity|].
    intros d. rewrite !keeps_iff. intros [Hage Hdel]. split; [lia|].
    intros Hd. specialize (Hdel Hd). lia.
Qed.

Lemma memory_cleanup_lifetimes_witness :
  Memory.cleanupOldDonations 200000
    (Memory.cleanupOldDonations 100000 (Memory.run Sample.two_then_confirm)) =
  Memory.cleanupOldDonations 200000 (Memory.run Sample.two_then_confirm).
Proof.
  apply (proj2 (memory_cleanup_lifetimes 200000 (Memory.run Sample.two_then_confirm))).
  lia.
Defined.

Lemma durable_survives_iff (now : Z) (r : Durable.DonationRow) :
  negb ((Durable.delivered r && Z.ltb (Durable.received_at r) (now - 60000))
        || Z.ltb (Durable.received_at r) (now - 300000)) = true <->
  now - Durable.received_at r <= 300000 /\
  (Durable.delivered r = true -> now - Durable.received_at r <= 60000).
Proof.
  destruct (Z.ltb_spec (Durable.received_at r) (now - 300000)) as [H1|H1].
  - rewrite orb_true_r. split; [discriminate | intros [H _]; lia].
  - rewrite orb_false_r. destruct (Durable.delivered r); cbn [andb negb].
    + destruct (Z.ltb_spec (Durable.received_at r) (now - 60000)) as [H2|H2]; cbn [negb].
      * split; [discriminate | intros [_ H]; specialize (H eq_refl); lia].
      * split; [intros _; split; [lia | intros _; lia] | reflexivity].
    + split; [intros _; split; [lia | discriminate] | reflexivity].
Qed.

(** The durable sweep at clock reading [now] keeps exactly the rows that
    are at most 300 s old and, when delivered, at most 60 s old; it leaves
    the leaderboard alone; and it makes every earlier sweep redundant. *)
Theorem durable_cleanup_lifetimes (now : Z) (db : Durable.Db) :
  (forall r, In r (Durable.donations (Durable.cleanupOldDonations now db)) <->
             In r (Durable.donations db) /\
             now - Durable.received_at r <= 300000 /\
             (Durable.delivered r = true -> now - Durable.received_at r <= 60000)) /\
  Durable.top_spenders (Durable.cleanupOldDonations now db) = Durable.top_spenders db /\
  (forall earlier, earlier <= now ->
     Durable.cleanupOldDonations now (Durable.cleanupOldDonations earlier db) =
     Durable.cleanupOldDonations now db).
Proof.
  split; [|split].
  - intros r. cbn [Durable.cleanupOldDonations Durable.cleanOldDonations_run Durable.donations].
    rewrite filter_In, durable_survives_iff. reflexivity.
  - reflexivity.
  - intros earlier Hle. unfold Durable.cleanupOldDonations, Durable.cleanOldDonations_run.
    cbn [Durable.donations Durable.top_spenders].
    rewrite filter_absorbs; [reflexivity|].
    intros r. rewrite !durable_survives_iff. intros [Hage Hdel]. split; [lia|].
    intros Hd. specialize (Hdel Hd). lia.
Qed.

Lemma durable_cleanup_lifetimes_witness :
  Durable.cleanupOldDonations 400000
    (Durable.cleanupOldDonations 100000
       (fst (Durable.saweria Sample.budi_10 "1-a" "t" 1 Durable.empty))) =
  Durable.cleanupOldDonations 400000
    (fst (Durable.saweria Sample.budi_10 "1-a" "t" 1 Durable.empty)).
Proof.
  apply (proj2 (proj2 (durable_cleanup_lifetimes 400000
                  (fst (Durable.saweria Sample.budi_10 "1-a" "t" 1 Durable.empty))))).
  lia.
Defined.

(* ===================================================================== *)
(** ** The shape of the in-memory state                                    *)
(* ===================================================================== *)

Lemma updateTopSpenders_lookup_ne (key k : string) (u : JsValue) (a : JsNum)
    (st : Memory.State) :
  key <> k ->
  Memory.topSpenders (Memory.updateTopSpenders key u a st) !! k = Memory.topSpenders st !! k.
Proof.
  intros Hne. unfold Memory.updateTopSpenders.
  destruct (Memory.topSpenders st !! key); cbn [Memory.topSpenders].
  - apply lookup_insert_ne, Hne.
  - destruct (Memory.inherited key); cbn [Memory.topSpenders];
      [reflexivity | apply lookup_insert_ne, Hne].
Qed.

Lemma confirmDelivery_Forall (P : Memory.Donation -> Prop) (c : JsValue)
    (q : list Memory.Donation) :
  (forall d, P d -> P (Memory.set_delivered d)) ->
  Forall P q -> Forall P (Memory.confirmDelivery c q).
Proof.
  intros Hset. induction 1 as [|d q Hd Hq IH]; cbn [Memory.confirmDelivery]; [constructor|].
  destruct (Memory.idIs c d); constructor; auto.
Qed.

Lemma enqueue_Forall (P : Memory.Donation -> Prop) (d : Memory.Donation)
    (q : list Memory.Donation) :
  P d -> Forall P q -> Forall P (Memory.enqueue d q).
Proof.
  intros Hd Hq. rewrite enqueue_spec. apply Forall_app. split; [|repeat constructor; exact Hd].
  destruct (Nat.leb _ _); [|exact Hq].
  destruct q as [|x q]; [constructor|]. cbn [tail].
  apply List.Forall_cons_iff in Hq as [_ Hq]. exact Hq.
Qed.

Lemma well_formed_handle (now : Z) (ev : Memory.Event) (st : Memory.State) :
  Memory.well_formed st -> Memory.well_formed (Memory.handle now ev st).
Proof.
  intros [Hq Hmap].
  destruct ev as [body donationId isoNow|confirmId| | |]; cbn [Memory.handle].
  - unfold Memory.saweria.
    destruct (Ingest.extract body) as [f|e] eqn:He; cbn [fst]; [|split; assumption].
    destruct (extract_inv _ _ He) as (_ & Ha & _).
    destruct (extract_shape _ _ He) as (Hu & _).
    pose proof (amount_not_nan _ _ Ha) as Hnan.
    assert (Hq' : Forall (fun d => is_nan (Memory.amount d) = false /\
                                   Memory.display_name d = Memory.username d /\
                                   truthy (Memory.username d) = true /\
                                   Memory.avatar_url d = JNull)
                    (Memory.enqueue (Memory.makeDonation f donationId isoNow now)
                                    (Memory.donationQueue st))).
    { apply enqueue_Forall; [|exact Hq]. cbn. auto. }
    destruct (ToString (Ingest.f_username f)) as [key|e] eqn:Hkey; cbn [fst].
    + split; [rewrite updateTopSpenders_queue; exact Hq'|].
      intros k e Hk. destruct (decide (key = k)) as [<-|Hne].
      * unfold Memory.updateTopSpenders in Hk.
        cbn [Memory.set_queue Memory.topSpenders] in Hk.
        destruct (Memory.topSpenders st !! key) as [e0|] eqn:He0.
        -- cbn [Memory.topSpenders] in Hk. rewrite lookup_insert_eq in Hk.
           injection Hk as <-. cbn.
           destruct (Hmap key e0 He0) as (Hd & Hs & Hin). auto.
        -- destruct (Memory.inherited key) eqn:Hin; cbn [Memory.topSpenders] in Hk.
           ++ rewrite He0 in Hk. discriminate Hk.
           ++ rewrite lookup_insert_eq in Hk. injection Hk as <-. cbn. auto.
      * rewrite updateTopSpenders_lookup_ne in Hk by exact Hne.
        exact (Hmap k e Hk).
    + split; [exact Hq' | exact Hmap].
  - unfold Memory.robloxCheck. destruct (truthy confirmId); cbn [fst]; [|split; assumption].
    split; [|exact Hmap]. cbn [Memory.set_queue Memory.donationQueue].
    apply confirmDelivery_Forall; [|exact Hq]. intros d Hd. exact Hd.
  - split; [|exact Hmap].
    cbn [Memory.cleanupOldDonations Memory.set_queue Memory.donationQueue].
    apply List.Forall_forall. intros d Hd. apply filter_In in Hd as [Hd _].
    rewrite List.Forall_forall in Hq. exact (Hq d Hd).
  - split; [constructor|]. intros k e Hk. cbn in Hk. rewrite lookup_empty in Hk.
    discriminate Hk.
  - split; assumption.
Qed.

Lemma well_formed_run_from (trace : list (Z * Memory.Event)) (st : Memory.State) :
  Memory.well_formed st -> Memory.well_formed (Memory.run_from st trace).
Proof.
  revert st. induction trace as [|[now ev] trace IH]; intros st Hst; [exact Hst|].
  cbn [Memory.run_from fold_left fst snd]. apply IH, well_formed_handle, Hst.
Qed.

Lemma well_formed_initial : Memory.well_formed Memory.initial.
Proof.
  split; [constructor|]. intros k e Hk. cbn in Hk. rewrite lookup_empty in Hk.
  discriminate Hk.
Qed.

(** In every state the in-memory server reaches, the amount of each queued
    donation is a number other than [NaN] (it may be infinite), its
    [display_name] is its truthy [username] and its [avatar_url] is
    [null]; each leaderboard entry has its username as display name and
    sits under the property key that its username prints as, and that key
    is never one that plain objects inherit.  Nothing is said of the
    totals: two infinite amounts of opposite sign add up to [NaN]. *)
Theorem memory_state_is_well_formed (trace : list (Z * Memory.Event)) :
  Memory.well_formed (Memory.run trace).
Proof. apply well_formed_run_from, well_formed_initial. Qed.

(* ===================================================================== *)
(** ** The counts the endpoints report                                     *)
(* ===================================================================== *)

Lemma filter_partition_length {A : Type} (p : A -> bool) (l : list A) :
  (length (List.filter p l) + length (List.filter (fun x => negb (p x)) l))%nat = length l.
Proof.
  induction l as [|x l IH]; cbn [List.filter length]; [reflexivity|].
  destruct (p x); cbn [negb length]; lia.
Qed.

(** The counts agree across the endpoints of the in-memory server:
    [/stats] reports as many delivered plus pending donations as there are
    in total; its pending count is the undelivered count of [/] and the
    [queue_size] of a poll; its [total_amount] is the queue's amounts
    added up in queue order from 0; in every state of a run the total
    count is at most 20. *)
Theorem memory_stats_add_up :
  (forall st : Memory.State,
      (Memory.delivered_donations (Memory.stats st) +
       Memory.pending_donations (Memory.stats st))%nat
        = Memory.total_donations (Memory.stats st) /\
      Memory.pending_donations (Memory.stats st)
        = Memory.queue_undelivered (Memory.health st) /\
      reported_queue_size (snd (Memory.robloxCheck JUndefined st))
        = Some (Memory.pending_donations (Memory.stats st)) /\
      Memory.stats_total_amount (Memory.stats st)
        = fold_left add (List.map Memory.amount (Memory.donationQueue st)) (of_Z 0)) /\
  (forall trace : list (Z * Memory.Event),
      (Memory.total_donations (Memory.stats (Memory.run trace)) <= 20)%nat).
Proof.
  split.
  - intros st. split; [|split; [reflexivity|split; [reflexivity|]]].
    + cbn [Memory.stats Memory.delivered_donations Memory.pending_donations
           Memory.total_donations].
      apply (filter_partition_length Memory.delivered).
    + cbn [Memory.stats Memory.stats_total_amount].
      generalize (of_Z 0).
      induction (Memory.donationQueue st) as [|d q IH]; intros z;
        cbn [fold_left List.map]; [reflexivity | apply IH].
  - intros trace.
    apply (run_from_length trace Memory.initial).
    cbn [Memory.initial Memory.donationQueue length]. unfold Memory.MAX_QUEUE_SIZE. lia.
Qed.

(** The three counts of the durable [/stats] add up, and its pending count
    is the [queue_size] that a poll and a successful ingest report. *)
Theorem durable_stats_add_up :
  (forall db : Durable.Db,
      (Durable.delivered_donations (Durable.stats db) +
       Durable.pending_donations (Durable.stats db))%nat
        = Durable.total_donations (Durable.stats db) /\
      reported_queue_size (snd (Durable.robloxCheck JUndefined db))
        = Some (Durable.pending_donations (Durable.stats db))) /\
  (forall (body : JsValue) (donationId isoNow : string) (now : Z) (db : Durable.Db)
          (r : SaweriaBody),
      snd (Durable.saweria body donationId isoNow now db) = Json r ->
      queue_size r =
      Durable.pending_donations
        (Durable.stats (fst (Durable.saweria body donationId isoNow now db)))).
Proof.
  split.
  - intros db. split; [|reflexivity].
    cbn [Durable.stats Durable.delivered_donations Durable.pending_donations
         Durable.total_donations].
    apply (filter_partition_length Durable.delivered).
  - intros body donationId isoNow now db r. unfold Durable.saweria.
    destruct (Ingest.extract body) as [f|e]; cbn [fst snd]; [|discriminate].
    destruct (Durable.insertDonation_run _ _ _ _ _ _ _ db) as [db1|e];
      cbn [fst snd]; [|discriminate].
    destruct (Durable.updateTopSpender_run _ _ _ db1) as [db2|e];
      cbn [fst snd]; [|discriminate].
    intros [= <-]. reflexivity.
Qed.

Lemma durable_stats_add_up_witness :
  queue_size {| success := true; donation_id := "1-a"; queue_size := 1 |} =
  Durable.pending_donations
    (Durable.stats (fst (Durable.saweria Sample.budi_10 "1-a" "t" 1 Durable.empty))).
Proof.
  apply (proj2 durable_stats_add_up Sample.budi_10 "1-a" "t" 1 Durable.empty).
  reflexivity.
Defined.

(* ===================================================================== *)
(** ** The leaderboard as a running sum                                    *)
(* ===================================================================== *)

Lemma credit_handle (key : string) (now : Z) (ev : Memory.Event) (st : Memory.State)
    (acc : option JsNum) :
  Memory.inherited key = false ->
  Memory.total_amount <$> Memory.topSpenders st !! key = acc ->
  Memory.total_amount <$> Memory.topSpenders (Memory.handle now ev st) !! key =
  Memory.credit key acc ev.
Proof.
  intros Hin Hst.
  destruct ev as [body donationId isoNow|confirmId| | |];
    cbn [Memory.handle Memory.credit].
  - unfold Memory.saweria.
    destruct (Ingest.extract body) as [f|e] eqn:He; cbn [fst]; [|exact Hst].
    destruct (ToString (Ingest.f_username f)) as [k|e] eqn:Hk; cbn [fst]; [|exact Hst].
    destruct (String.eqb_spec k key) as [->|Hne].
    + rewrite (updateTopSpenders_total key (Ingest.f_username f) (Ingest.f_amount f)
                 (Memory.set_queue _ st) Hin).
      cbn [Memory.set_queue Memory.topSpenders]. rewrite Hst. reflexivity.
    + rewrite updateTopSpenders_lookup_ne by exact Hne. exact Hst.
  - unfold Memory.robloxCheck. destruct (truthy confirmId); exact Hst.
  - exact Hst.
  - subst acc. cbn. rewrite lookup_empty. reflexivity.
  - exact Hst.
Qed.

Lemma credit_run_from (key : string) (trace : list (Z * Memory.Event)) :
  Memory.inherited key = false ->
  forall (st : Memory.State) (acc : option JsNum),
    Memory.total_amount <$> Memory.topSpenders st !! key = acc ->
    Memory.total_amount <$> Memory.topSpenders (Memory.run_from st trace) !! key =
    fold_left (Memory.credit key) (List.map snd trace) acc.
Proof.
  intros Hin. induction trace as [|[now ev] trace IH]; intros st acc Hst; [exact Hst|].
  cbn [Memory.run_from fold_left List.map fst snd].
  apply IH, credit_handle; assumption.
Qed.

(** In the in-memory server, for a username whose property key no plain
    object inherits: after any run, with polls, sweeps and evictions in
    between, the leaderboard holds for that key the extracted amounts of
    its ingests since the last [/clear], added up from 0 as doubles in
    the order of the requests, and no entry when there was none. *)
Theorem memory_total_is_running_sum (key : string) (trace : list (Z * Memory.Event)) :
  Memory.inherited key = false ->
  Memory.total_amount <$> Memory.topSpenders (Memory.run trace) !! key =
  Memory.received_for key trace.
Proof.
  intros Hin. apply (credit_run_from key trace Hin Memory.initial None).
  cbn. rewrite lookup_empty. reflexivity.
Qed.

Lemma memory_total_is_running_sum_witness :
  Memory.total_amount <$> Memory.topSpenders (Memory.run Sample.two_then_confirm) !! "Budi" =
  Some (of_Z 5).
Proof.
  rewrite (memory_total_is_running_sum "Budi" Sample.two_then_confirm eq_refl).
  vm_compute. reflexivity.
Defined.

Lemma durable_robloxCheck_top_spenders (confirmId : JsValue) (db : Durable.Db) :
  Durable.top_spenders (fst (Durable.robloxCheck confirmId db)) = Durable.top_spenders db.
Proof.
  unfold Durable.robloxCheck. destruct (truthy confirmId); [|reflexivity].
  unfold Durable.markDelivered_run.
  destruct (Durable.bindArgs [confirmId] false) as [[|v [|]]|]; reflexivity.
Qed.

Lemma durable_credit_handle (u : string) (now : Z) (ev : Durable.Event) (db : Durable.Db)
    (acc : option Durable.SqlNumber) :
  match ev with
  | Durable.PostSaweria body _ _ =>
      forall f, Ingest.extract body = Ok f -> exists s, Ingest.f_username f = JStr s
  | _ => True
  end ->
  Durable.total_of (Durable.SqlText u) db = acc ->
  Durable.total_of (Durable.SqlText u) (Durable.handle now ev db) =
  Durable.credit u now db acc ev.
Proof.
  intros Hstr Hdb.
  destruct ev as [body donationId isoNow|confirmId| | |];
    cbn [Durable.handle Durable.credit].
  - destruct (Durable.saweria body donationId isoNow now db) as [db' r] eqn:Hrun.
    cbn [fst snd].
    apply durable_saweria_inv in Hrun
      as [[-> ->]|[(row & -> & _ & _ & ->)|(f & x & rows & row & He & Hx & _ & Hup & -> & Hrow)]];
      cbn [is_error]; [exact Hdb | exact Hdb |].
    destruct Hrow as (_ & _ & _ & _ & _ & _ & ->). cbn [is_error].
    destruct (Hstr f He) as (s & Hs).
    rewrite He, Hs. rewrite Hs in Hx.
    pose proof (binds_one_unique _ _ _ Hx (binds_one_str s)) as ->.
    rewrite (total_of_donations _ _ (Durable.donations db)).
    rewrite (total_of_upsert (Durable.SqlText u) _ _ _ db rows Hup), Hdb.
    cbn [Durable.sql_eqb].
    destruct (String.eqb s u); destruct acc; reflexivity.
  - unfold Durable.total_of. rewrite durable_robloxCheck_top_spenders. exact Hdb.
  - exact Hdb.
  - subst acc. reflexivity.
  - exact Hdb.
Qed.

Lemma durable_credit_run_from (u : string) (trace : list (Z * Durable.Event)) :
  Durable.string_usernames trace ->
  forall (db : Durable.Db) (acc : option Durable.SqlNumber),
    Durable.total_of (Durable.SqlText u) db = acc ->
    Durable.total_of (Durable.SqlText u) (Durable.run_from db trace) =
    Durable.received_from u trace db acc.
Proof.
  induction 1 as [|[now ev] trace Hev _ IH]; intros db acc Hdb; [exact Hdb|].
  cbn [Durable.run_from fold_left Durable.received_from fst snd].
  apply IH, durable_credit_handle; [exact Hev | exact Hdb].
Qed.

(** In the durable server, for a run whose ingested usernames are strings:
    the leaderboard row of a username holds what SQLite makes of the
    extracted amounts of its ingests that were answered with success
    since the last [/clear] -- the first one stored with INTEGER affinity,
    each later one added by the upsert and stored again -- and there is no
    row when there was none. *)
Theorem durable_total_is_running_sum (u : string) (trace : list (Z * Durable.Event)) :
  Durable.string_usernames trace ->
  Durable.total_of (Durable.SqlText u) (Durable.run trace) = Durable.received_for u trace.
Proof.
  intros Hstr. exact (durable_credit_run_from u trace Hstr Durable.empty None eq_refl).
Qed.

Lemma durable_total_is_running_sum_witness :
  Durable.total_of (Durable.SqlText "Budi") (Durable.run Sample.durable_trace) =
  Some (Durable.NumInteger 5).
Proof.
  rewrite (durable_total_is_running_sum "Budi" Sample.durable_trace).
  - vm_compute. reflexivity.
  - repeat constructor; cbn; intros f Hf; vm_compute in Hf; injection Hf as <-; cbn; eauto.
Defined.

(* ===================================================================== *)
(** ** Donation ids in the durable server                                  *)
(* ===================================================================== *)

Lemma existsb_id_false (donationId : string) (rows : list Durable.DonationRow) :
  existsb (fun row => String.eqb (Durable.id row) donationId) rows = false ->
  ~ In donationId (List.map Durable.id rows).
Proof.
  intros Hex Hin. apply in_map_iff in Hin as (row & Hid & Hrow).
  assert (Htrue : existsb (fun row => String.eqb (Durable.id row) donationId) rows = true).
  { apply existsb_exists. exists row. split; [exact Hrow|]. apply String.eqb_eq, Hid. }
  rewrite Hex in Htrue. discriminate Htrue.
Qed.

(** The donations after a request to [/saweria]: the same, or one more row
    under the generated id, which was not in the table. *)
Lemma durable_saweria_donations (body : JsValue) (donationId isoNow : string) (now : Z)
    (db : Durable.Db) :
  let db' := fst (Durable.saweria body donationId isoNow now db) in
  Durable.donations db' = Durable.donations db \/
  (exists row,
     Durable.donations db' = Durable.donations db ++ [row] /\
     Durable.id row = donationId /\ Durable.delivered row = false /\
     existsb (fun r => String.eqb (Durable.id r) donationId) (Durable.donations db) = false).
Proof.
  cbn zeta. unfold Durable.saweria.
  destruct (Ingest.extract body) as [f|e]; cbn [fst]; [|auto].
  destruct (Durable.insertDonation_run _ _ _ _ _ _ _ db) as [db1|e] eqn:Hins;
    cbn [fst]; [|auto].
  apply insertDonation_inv in Hins as (Hfresh & row & Hdb1 & Hid & Hdel).
  assert (Hdon : Durable.donations db1 = Durable.donations db ++ [row])
    by (rewrite Hdb1; reflexivity).
  destruct (Durable.updateTopSpender_run _ _ _ db1) as [db2|e] eqn:Hup; cbn [fst].
  - apply updateTopSpender_inv in Hup as (x & rows & _ & _ & _ & _ & ->).
    cbn [Durable.donations]. right. exists row. rewrite Hdon. auto.
  - right. exists row. auto.
Qed.

Lemma durable_robloxCheck_ids (confirmId : JsValue) (db : Durable.Db) :
  List.map Durable.id (Durable.donations (fst (Durable.robloxCheck confirmId db))) =
  List.map Durable.id (Durable.donations db).
Proof.
  unfold Durable.robloxCheck. destruct (truthy confirmId); [|reflexivity].
  unfold Durable.markDelivered_run.
  destruct (Durable.bindArgs [confirmId] false) as [[|v [|]]|]; try reflexivity.
  cbn [bind fst Durable.donations]. rewrite List.map_map. apply List.map_ext.
  intros row. destruct (Durable.sql_eqb _ v); reflexivity.
Qed.

Lemma NoDup_map_filter {A B : Type} (f : A -> B) (p : A -> bool) (l : list A) :
  List.NoDup (List.map f l) -> List.NoDup (List.map f (List.filter p l)).
Proof.
  induction l as [|x l IH]; cbn [List.map List.filter]; [auto|].
  intros Hnd. apply List.NoDup_cons_iff in Hnd as [Hx Hl].
  destruct (p x); cbn [List.map]; [|auto].
  apply List.NoDup_cons; [|auto].
  intros Hin. apply Hx. apply in_map_iff in Hin as (y & Hy & Hin).
  apply filter_In in Hin as [Hin _]. apply in_map_iff. eauto.
Qed.

Lemma ids_unique_handle (now : Z) (ev : Durable.Event) (db : Durable.Db) :
  List.NoDup (List.map Durable.id (Durable.donations db)) ->
  List.NoDup (List.map Durable.id (Durable.donations (Durable.handle now ev db))).
Proof.
  intros Hnd. destruct ev as [body donationId isoNow|confirmId| | |]; cbn [Durable.handle].
  - destruct (durable_saweria_donations body donationId isoNow now db)
      as [->|(row & -> & Hid & _ & Hfresh)]; [exact Hnd|].
    rewrite List.map_app. cbn [List.map]. rewrite Hid.
    apply List.NoDup_app; [exact Hnd | repeat constructor; intros []|].
    intros i Hi [<-|[]]. exact (existsb_id_false _ _ Hfresh Hi).
  - rewrite durable_robloxCheck_ids. exact Hnd.
  - apply NoDup_map_filter, Hnd.
  - constructor.
  - exact Hnd.
Qed.

(** In every state the durable server reaches, no two donations have the
    same id. *)
Theorem durable_ids_are_unique (trace : list (Z * Durable.Event)) :
  List.NoDup (List.map Durable.id (Durable.donations (Durable.run trace))).
Proof.
  unfold Durable.run.
  assert (Hgen : forall db, List.NoDup (List.map Durable.id (Durable.donations db)) ->
                 List.NoDup (List.map Durable.id
                               (Durable.donations (Durable.run_from db trace)))).
  { induction trace as [|[now ev] trace IH]; intros db Hdb; [exact Hdb|].
    cbn [Durable.run_from fold_left fst snd]. apply IH, ids_unique_handle, Hdb. }
  apply Hgen. constructor.
Qed.

(** An ingest whose generated id is already in the table is refused by the
    durable server: it answers 400 and leaves both tables as they
    were. *)
Theorem durable_duplicate_id_is_refused (body : JsValue) (donationId isoNow : string)
    (now : Z) (db : Durable.Db) :
  existsb (fun row => String.eqb (Durable.id row) donationId) (Durable.donations db) = true ->
  exists e, Durable.saweria body donationId isoNow now db = (db, Error 400 e).
Proof.
  intros Hdup. unfold Durable.saweria.
  destruct (Ingest.extract body) as [f|e]; [|eauto].
  destruct (Durable.insertDonation_run _ _ _ _ _ _ _ db) as [db1|e] eqn:Hins; [|eauto].
  apply insertDonation_inv in Hins as (Hfresh & _).
  rewrite Hfresh in Hdup. discriminate Hdup.
Qed.

Lemma durable_duplicate_id_is_refused_witness :
  exists e,
    Durable.saweria Sample.budi_10 "1-a" "t" 2
      (fst (Durable.saweria Sample.budi_10 "1-a" "t" 1 Durable.empty)) =
    (fst (Durable.saweria Sample.budi_10 "1-a" "t" 1 Durable.empty), Error 400 e).
Proof.
  apply (durable_duplicate_id_is_refused Sample.budi_10 "1-a" "t" 2
           (fst (Durable.saweria Sample.budi_10 "1-a" "t" 1 Durable.empty))).
  reflexivity.
Defined.

(* ===================================================================== *)
(** ** Polling and confirming in turn                                      *)
(* ===================================================================== *)

Lemma find_head_filter {A : Type} (p : A -> bool) (l : list A) :
  List.find p l = head (List.filter p l).
Proof.
  induction l as [|x l IH]; cbn [List.find List.filter]; [reflexivity|].
  destruct (p x); [reflexivity | exact IH].
Qed.

Lemma confirm_first_undelivered (q : list Memory.Donation) (d : Memory.Donation) :
  List.find Memory.undelivered q = Some d ->
  (forall d', In d' q -> Memory.id d' = Memory.id d -> d' = d) ->
  List.filter Memory.undelivered (Memory.confirmDelivery (JStr (Memory.id d)) q) =
  tail (List.filter Memory.undelivered q).
Proof.
  induction q as [|x q IH]; cbn [List.find]; [discriminate|].
  intros Hfind Huniq. cbn [Memory.confirmDelivery List.filter].
  destruct (Memory.undelivered x) eqn:Hx.
  - injection Hfind as <-. cbn [Memory.idIs]. rewrite String.eqb_refl.
    cbn [List.filter tail].
    assert (Hdel : Memory.undelivered (Memory.set_delivered x) = false) by reflexivity.
    rewrite Hdel. reflexivity.
  - assert (Hd : Memory.undelivered d = true).
    { apply find_some in Hfind as [_ Hd]. exact Hd. }
    cbn [Memory.idIs]. destruct (String.eqb_spec (Memory.id x) (Memory.id d)) as [Heq|Hne].
    + rewrite (Huniq x (or_introl eq_refl) Heq) in Hx. congruence.
    + cbn [List.filter]. rewrite Hx. apply IH; [exact Hfind|].
      intros d' Hd'. apply Huniq. right. exact Hd'.
Qed.

(** Polling and confirming walks the in-memory queue in order. When a poll
    returns donation [d], whose id is not empty and is the id of no other
    queued donation, then the poll that confirms that id leaves exactly
    the other undelivered donations, in their order, reports one less as
    [queue_size], and returns the next of them. *)
Theorem memory_confirm_advances (st : Memory.State) (d : Memory.Donation) :
  donation <$> reported_body (snd (Memory.robloxCheck JUndefined st)) = Some (Some d) ->
  Memory.id d <> "" ->
  (forall d', In d' (Memory.donationQueue st) -> Memory.id d' = Memory.id d -> d' = d) ->
  let res := Memory.robloxCheck (JStr (Memory.id d)) st in
  List.filter Memory.undelivered (Memory.donationQueue (fst res)) =
    tail (List.filter Memory.undelivered (Memory.donationQueue st)) /\
  reported_queue_size (snd res) = Some (Memory.undeliveredCount st - 1)%nat /\
  donation <$> reported_body (snd res) =
    Some (head (tail (List.filter Memory.undelivered (Memory.donationQueue st)))).
Proof.
  intros Hpoll Hid Huniq. cbn zeta.
  assert (Hfind : List.find Memory.undelivered (Memory.donationQueue st) = Some d).
  { unfold Memory.robloxCheck in Hpoll. cbn in Hpoll. injection Hpoll as Hpoll. exact Hpoll. }
  pose proof (confirm_first_undelivered _ _ Hfind Huniq) as Hq.
  unfold Memory.robloxCheck.
  assert (Ht : truthy (JStr (Memory.id d)) = true).
  { cbn. destruct (String.eqb_spec (Memory.id d) ""); [contradiction | reflexivity]. }
  rewrite Ht. cbn [fst snd reported_queue_size reported_body check_queue_size donation
                   Memory.set_queue Memory.donationQueue Memory.undeliveredCount].
  rewrite find_head_filter, Hq. split; [reflexivity|]. split; [|reflexivity].
  apply f_equal. unfold Memory.undeliveredCount.
  cbn [Memory.set_queue Memory.donationQueue]. rewrite Hq.
  destruct (List.filter Memory.undelivered (Memory.donationQueue st)); cbn [tail length];
    lia.
Qed.

Lemma memory_confirm_advances_witness :
  let st := Memory.run (firstn 2 Sample.two_then_confirm) in
  exists next,
    donation <$> reported_body (snd (Memory.robloxCheck (JStr "1-a") st)) = Some (Some next) /\
    Memory.id next = "2-b".
Proof.
  cbn zeta.
  destruct (memory_confirm_advances (Memory.run (firstn 2 Sample.two_then_confirm))
              (Memory.makeDonation
                 {| Ingest.f_username := JStr "Budi"; Ingest.f_amount := of_Z 10;
                    Ingest.f_message := JStr "" |} "1-a" "t" 1))
    as (_ & _ & Hnext).
  - reflexivity.
  - discriminate.
  - intros d' Hd' Hid. vm_compute in Hd'.
    destruct Hd' as [<-|[<-|[]]]; [reflexivity | discriminate Hid].
  - eexists. split; [exact Hnext | reflexivity].
Defined.

Lemma mark_other_count (s : string) (rows : list Durable.DonationRow) :
  ~ In s (List.map Durable.id rows) ->
  List.map (fun row => if Durable.sql_eqb (Durable.SqlText (Durable.id row)) (Durable.SqlText s)
                       then Durable.set_delivered row else row) rows = rows.
Proof.
  intros Hs. rewrite <- (List.map_id rows) at 2. apply List.map_ext_in.
  intros row Hrow. cbn [Durable.sql_eqb].
  destruct (String.eqb_spec (Durable.id row) s) as [Heq|_]; [|reflexivity].
  destruct Hs. apply in_map_iff. eauto.
Qed.

Lemma mark_one_count (row : Durable.DonationRow) (rows : list Durable.DonationRow) :
  In row rows -> Durable.undelivered row = true ->
  List.NoDup (List.map Durable.id rows) ->
  (length (List.filter Durable.undelivered
             (List.map (fun r => if Durable.sql_eqb (Durable.SqlText (Durable.id r))
                                                    (Durable.SqlText (Durable.id row))
                                 then Durable.set_delivered r else r) rows)) + 1)%nat
  = length (List.filter Durable.undelivered rows).
Proof.
  induction rows as [|x rows IH]; [intros []|].
  intros Hin Hu Hnd. cbn [List.map] in Hnd.
  apply List.NoDup_cons_iff in Hnd as [Hx Hnd].
  cbn [List.map List.filter].
  destruct (Durable.sql_eqb (Durable.SqlText (Durable.id x))
                            (Durable.SqlText (Durable.id row))) eqn:Hmatch.
  - apply sql_eqb_eq in Hmatch. injection Hmatch as Heq.
    assert (Hxrow : x = row).
    { destruct Hin as [Hin|Hin]; [exact Hin|].
      destruct Hx. rewrite Heq. apply in_map_iff. eauto. }
    subst x.
    assert (Hdel : Durable.undelivered (Durable.set_delivered row) = false) by reflexivity.
    rewrite Hdel, Hu. cbn [length].
    rewrite (mark_other_count _ _ Hx). lia.
  - destruct Hin as [Hin|Hin].
    + subst x. cbn [Durable.sql_eqb] in Hmatch. rewrite String.eqb_refl in Hmatch.
      discriminate Hmatch.
    + specialize (IH Hin Hu Hnd).
      destruct (Durable.undelivered x); cbn [length]; lia.
Qed.

(** In the durable server, when a poll returns a row whose id is not
    empty, in a table without duplicate ids, the poll that confirms that
    id reports exactly one less as [queue_size], and the row is delivered
    from then on. *)
Theorem durable_confirm_advances (db : Durable.Db) (row : Durable.DonationRow) :
  Durable.getUndeliveredDonation_get db = Some row ->
  Durable.id row <> "" ->
  List.NoDup (List.map Durable.id (Durable.donations db)) ->
  let res := Durable.robloxCheck (JStr (Durable.id row)) db in
  (exists n, reported_queue_size (snd res) = Some n /\
             (n + 1)%nat = Durable.undeliveredCount db) /\
  (forall r, In r (Durable.donations (fst res)) ->
             Durable.id r = Durable.id row -> Durable.delivered r = true).
Proof.
  intros Hpoll Hid Hnd. cbn zeta.
  pose proof (getUndeliveredDonation_oldest db) as Hold. rewrite Hpoll in Hold.
  destruct Hold as (Hin & Hu & _).
  unfold Durable.robloxCheck.
  assert (Ht : truthy (JStr (Durable.id row)) = true).
  { cbn. destruct (String.eqb_spec (Durable.id row) ""); [contradiction | reflexivity]. }
  rewrite Ht, durable_confirm_string.
  cbn [fst snd reported_queue_size check_queue_size Durable.undeliveredCount
       Durable.donations].
  split.
  - eexists. split; [reflexivity|]. apply mark_one_count; assumption.
  - intros r Hr Hrid. apply in_map_iff in Hr as (r0 & <- & _).
    cbn [Durable.sql_eqb] in *.
    destruct (String.eqb_spec (Durable.id r0) (Durable.id row)) as [_|Hne];
      [reflexivity | contradiction].
Qed.

Lemma durable_confirm_advances_witness :
  let db := Durable.run (firstn 2 Sample.durable_trace) in
  exists n, reported_queue_size (snd (Durable.robloxCheck (JStr "1-a") db)) = Some n /\
            (n + 1)%nat = 2%nat.
Proof.
  cbn zeta.
  destruct (durable_confirm_advances (Durable.run (firstn 2 Sample.durable_trace))
              {| Durable.id := "1-a"; Durable.username := Durable.SqlText "Budi";
                 Durable.display_name := Durable.SqlText "Budi";
                 Durable.amount := Durable.SqlNum (Durable.NumInteger 10);
                 Durable.message := Durable.SqlText "";
                 Durable.timestamp := "t"; Durable.received_at := 1;
                 Durable.delivered := false |})
    as (Hcount & _).
  - reflexivity.
  - discriminate.
  - vm_compute. repeat constructor; cbn; intuition discriminate.
  - exact Hcount.
Defined.

(* ===================================================================== *)
(** ** How the queue size moves                                            *)
(* ===================================================================== *)

Lemma confirmDelivery_undelivered_le (c : JsValue) (q : list Memory.Donation) :
  (length (List.filter Memory.undelivered (Memory.confirmDelivery c q)) <=
   length (List.filter Memory.undelivered q))%nat.
Proof.
  induction q as [|d q IH]; cbn [Memory.confirmDelivery List.filter]; [lia|].
  destruct (Memory.idIs c d); cbn [List.filter].
  - assert (Hdel : Memory.undelivered (Memory.set_delivered d) = false) by reflexivity.
    rewrite Hdel. destruct (Memory.undelivered d); cbn [length]; lia.
  - destruct (Memory.undelivered d); cbn [length]; lia.
Qed.

Lemma filter_filter_le {A : Type} (p q : A -> bool) (l : list A) :
  (length (List.filter p (List.filter q l)) <= length (List.filter p l))%nat.
Proof.
  induction l as [|x l IH]; cbn [List.filter]; [lia|].
  destruct (q x); cbn [List.filter]; destruct (p x); cbn [length]; lia.
Qed.

Lemma enqueue_undelivered (d : Memory.Donation) (q : list Memory.Donation) :
  Memory.undelivered d = true ->
  (1 <= length (List.filter Memory.undelivered (Memory.enqueue d q)) <=
   length (List.filter Memory.undelivered q) + 1)%nat.
Proof.
  intros Hd. rewrite enqueue_spec, List.filter_app, length_app.
  cbn [List.filter]. rewrite Hd. cbn [length].
  destruct (Nat.leb _ _); [|lia].
  destruct q as [|x q]; cbn [tail List.filter]; [lia|].
  destruct (Memory.undelivered x); cbn [length]; lia.
Qed.

Lemma mark_undelivered_le (v : Durable.SqlValue) (rows : list Durable.DonationRow) :
  (length (List.filter Durable.undelivered
             (List.map (fun row => if Durable.sql_eqb (Durable.SqlText (Durable.id row)) v
                                   then Durable.set_delivered row else row) rows)) <=
   length (List.filter Durable.undelivered rows))%nat.
Proof.
  induction rows as [|x rows IH]; cbn [List.map List.filter]; [lia|].
  destruct (Durable.sql_eqb _ v).
  - assert (Hdel : Durable.undelivered (Durable.set_delivered x) = false) by reflexivity.
    rewrite Hdel. destruct (Durable.undelivered x); cbn [length]; lia.
  - destruct (Durable.undelivered x); cbn [length]; lia.
Qed.

(** The number of undelivered donations, which every endpoint reports as
    its queue size, only grows through an ingest, and then by one at most:
    polls, confirmations and sweeps never raise it. This holds in both
    servers. *)
Theorem queue_size_grows_only_by_ingest :
  (forall (now : Z) (ev : Memory.Event) (st : Memory.State),
      (Memory.undeliveredCount (Memory.handle now ev st) <=
       Memory.undeliveredCount st +
       match ev with Memory.PostSaweria _ _ _ => 1 | _ => 0 end)%nat) /\
  (forall (now : Z) (ev : Durable.Event) (db : Durable.Db),
      (Durable.undeliveredCount (Durable.handle now ev db) <=
       Durable.undeliveredCount db +
       match ev with Durable.PostSaweria _ _ _ => 1 | _ => 0 end)%nat).
Proof.
  split.
  - intros now ev st. unfold Memory.undeliveredCount.
    destruct ev as [body donationId isoNow|confirmId| | |]; cbn [Memory.handle].
    + destruct (Ingest.extract body) as [f|e] eqn:He.
      * rewrite (memory_saweria_queue _ _ _ _ _ _ He).
        apply enqueue_undelivered. reflexivity.
      * rewrite (memory_saweria_extract_throws _ _ _ _ _ _ He). cbn [fst]. lia.
    + unfold Memory.robloxCheck. destruct (truthy confirmId); cbn [fst]; [|lia].
      cbn [Memory.set_queue Memory.donationQueue].
      pose proof (confirmDelivery_undelivered_le confirmId (Memory.donationQueue st)). lia.
    + cbn [Memory.cleanupOldDonations Memory.set_queue Memory.donationQueue].
      pose proof (filter_filter_le Memory.undelivered (Memory.keeps now)
                    (Memory.donationQueue st)). lia.
    + cbn. lia.
    + lia.
  - intros now ev db. unfold Durable.undeliveredCount.
    destruct ev as [body donationId isoNow|confirmId| | |]; cbn [Durable.handle].
    + destruct (durable_saweria_donations body donationId isoNow now db)
        as [->|(row & -> & _ & Hdel & _)]; [lia|].
      rewrite List.filter_app, length_app. cbn [List.filter].
      unfold Durable.undelivered at 2. rewrite Hdel. cbn [negb length]. lia.
    + unfold Durable.robloxCheck. destruct (truthy confirmId); cbn [fst]; [|lia].
      unfold Durable.markDelivered_run.
      destruct (Durable.bindArgs [confirmId] false) as [[|v [|]]|]; cbn [bind fst]; try lia.
      cbn [Durable.donations].
      pose proof (mark_undelivered_le v (Durable.donations db)). lia.
    + cbn [Durable.cleanupOldDonations Durable.cleanOldDonations_run Durable.donations].
      pose proof (filter_filter_le Durable.undelivered
                    (fun r => negb ((Durable.delivered r &&
                                     Z.ltb (Durable.received_at r) (now - 60000))
                                    || Z.ltb (Durable.received_at r) (now - 300000)))
                    (Durable.donations db)). lia.
    + cbn. lia.
    + lia.
Qed.

(** An ingest that is answered with success reports the id it generated
    and a queue size of at least 1, its own donation being undelivered;
    in the in-memory server, at any point of a run, at most 20. *)
Theorem ingest_reports_its_donation :
  (forall (trace : list (Z * Memory.Event)) (body : JsValue) (donationId isoNow : string)
          (now : Z) (r : SaweriaBody),
      snd (Memory.saweria body donationId isoNow now (Memory.run trace)) = Json r ->
      success r = true /\ donation_id r = donationId /\
      (1 <= queue_size r <= 20)%nat) /\
  (forall (body : JsValue) (donationId isoNow : string) (now : Z) (db : Durable.Db)
          (r : SaweriaBody),
      snd (Durable.saweria body donationId isoNow now db) = Json r ->
      success r = true /\ donation_id r = donationId /\ (1 <= queue_size r)%nat).
Proof.
  split.
  - intros trace body donationId isoNow now r Hr.
    pose proof (run_from_length trace Memory.initial) as Hlen.
    specialize (Hlen ltac:(cbn; unfold Memory.MAX_QUEUE_SIZE; lia)).
    fold (Memory.run trace) in Hlen.
    pose proof (handle_length now (Memory.PostSaweria body donationId isoNow)
                  (Memory.run trace) Hlen) as Hafter.
    cbn [Memory.handle] in Hafter. unfold Memory.MAX_QUEUE_SIZE in Hafter.
    destruct (Ingest.extract body) as [f|e] eqn:He.
    + pose proof (memory_saweria_queue body donationId isoNow now (Memory.run trace) f He)
        as Hq.
      unfold Memory.saweria in Hr, Hq, Hafter. rewrite He in Hr, Hq, Hafter.
      destruct (ToString (Ingest.f_username f)) as [key|e]; cbn [fst snd] in *;
        [|discriminate Hr].
      injection Hr as <-. cbn [success donation_id queue_size].
      split; [reflexivity|]. split; [reflexivity|].
      unfold Memory.undeliveredCount. rewrite Hq.
      pose proof (enqueue_undelivered (Memory.makeDonation f donationId isoNow now)
                    (Memory.donationQueue (Memory.run trace)) eq_refl) as [Hlow _].
      split; [exact Hlow|].
      etransitivity; [apply List.filter_length_le|]. rewrite <- Hq. exact Hafter.
    + rewrite (memory_saweria_extract_throws _ _ _ _ _ _ He) in Hr. discriminate Hr.
  - intros body donationId isoNow now db r Hr.
    destruct (Durable.saweria body donationId isoNow now db) as [db' r'] eqn:Hrun.
    cbn [snd] in Hr. subst r'.
    assert (Hbody : success r = true /\ donation_id r = donationId /\
                    queue_size r = Durable.undeliveredCount db').
    { unfold Durable.saweria in Hrun.
      destruct (Ingest.extract body) as [f|e]; [|discriminate Hrun].
      destruct (Durable.insertDonation_run _ _ _ _ _ _ _ db) as [db1|e]; [|discriminate Hrun].
      destruct (Durable.updateTopSpender_run _ _ _ db1) as [db2|e]; [|discriminate Hrun].
      injection Hrun as <- <-. auto. }
    destruct Hbody as (Hs & Hi & Hq). split; [exact Hs|]. split; [exact Hi|].
    rewrite Hq.
    apply durable_saweria_inv in Hrun
      as [[_ Herr]|[(row & _ & _ & _ & Herr)|(f & x & z & row & _ & _ & _ & _ & -> & Hrow)]];
      try discriminate.
    destruct Hrow as (_ & _ & _ & _ & _ & Hdel & _).
    unfold Durable.undeliveredCount. cbn [Durable.donations].
    rewrite List.filter_app, length_app. cbn [List.filter].
    unfold Durable.undelivered at 2. rewrite Hdel. cbn [negb length]. lia.
Qed.

Lemma ingest_reports_its_donation_witness :
  (1 <= 1 <= 20)%nat.
Proof.
  exact (proj2 (proj2 (proj1 ingest_reports_its_donation [] Sample.budi_10 "1-a" "t" 1
                         {| success := true; donation_id := "1-a"; queue_size := 1 |}
                         eq_refl))).
Defined.

(* ===================================================================== *)
(** ** The top ten of the durable leaderboard                              *)
(* ===================================================================== *)

#[local] Instance by_total_desc_trans : Transitive Durable.by_total_desc.
Proof. intros a b c. unfold Durable.by_total_desc. lia. Qed.

#[local] Instance by_total_desc_total : Total Durable.by_total_desc.
Proof. intros a b. unfold Durable.by_total_desc. lia. Qed.

Lemma rank_integers (a b : Z) :
  Durable.rank (Durable.NumInteger a) <= Durable.rank (Durable.NumInteger b) <-> a <= b.
Proof.
  cbn [Durable.rank]. assert (Hpos : 0 < 2 ^ 1074) by (apply Z.pow_pos_nonneg; lia).
  symmetry. exact (Z.mul_le_mono_pos_r a b _ Hpos).
Qed.

(** [getTopSpenders] returns at most ten rows of the leaderboard, all of
    them when it has ten or fewer, in descending order of total, and no
    row left out has a larger total than a row returned: totals compare
    by their numeric value, which for two INTEGER totals is the order of
    the integers. *)
Theorem top_spenders_are_the_largest (db : Durable.Db) :
  let top := Durable.getTopSpenders_all db in
  length top = Nat.min 10 (length (Durable.top_spenders db)) /\
  StronglySorted Durable.by_total_desc top /\
  (forall r, In r top -> In r (Durable.top_spenders db)) /\
  (forall r r', In r top -> In r' (Durable.top_spenders db) ->
                In r' top \/
                Durable.rank (Durable.total_amount r') <=
                Durable.rank (Durable.total_amount r)) /\
  (forall r r' z z', In r top -> In r' (Durable.top_spenders db) ->
                     Durable.total_amount r = Durable.NumInteger z ->
                     Durable.total_amount r' = Durable.NumInteger z' ->
                     In r' top \/ z' <= z).
Proof.
  cbn zeta. unfold Durable.getTopSpenders_all.
  set (sorted := merge_sort Durable.by_total_desc (Durable.top_spenders db)).
  pose proof (merge_sort_Permutation Durable.by_total_desc (Durable.top_spenders db))
    as Hperm.
  pose proof (StronglySorted_merge_sort Durable.by_total_desc (Durable.top_spenders db))
    as Hsorted.
  fold sorted in Hperm, Hsorted.
  rewrite <- (take_drop 10 sorted) in Hsorted. apply StronglySorted_app in Hsorted
    as (Hcross & Htop & _).
  assert (Hout : forall r r', In r (take 10 sorted) -> In r' (Durable.top_spenders db) ->
                   In r' (take 10 sorted) \/
                   Durable.rank (Durable.total_amount r') <=
                   Durable.rank (Durable.total_amount r)).
  { intros r r' Hr Hr'.
    assert (Hin : r' ∈ take 10 sorted ++ drop 10 sorted).
    { rewrite take_drop, Hperm. apply list_elem_of_In, Hr'. }
    apply elem_of_app in Hin as [Hin|Hin].
    + left. apply list_elem_of_In, Hin.
    + right. apply (Hcross r r'); [apply list_elem_of_In, Hr | exact Hin]. }
  split; [|split; [exact Htop | split; [|split; [exact Hout|]]]].
  - rewrite length_take, (Permutation_length Hperm). reflexivity.
  - intros r Hr. apply list_elem_of_In. rewrite <- Hperm.
    apply list_elem_of_In in Hr. apply (subseteq_take 10), Hr.
  - intros r r' z z' Hr Hr' Hz Hz'.
    destruct (Hout r r' Hr Hr') as [Hin|Hle]; [left; exact Hin|].
    right. rewrite Hz, Hz' in Hle. apply rank_integers, Hle.
Qed.

(* ===================================================================== *)
(** ** Clearing and the order of the queue (in-memory server)              *)
(* ===================================================================== *)

(** Two states with the same queue and the same leaderboard. *)
Lemma same_store_handle (now : Z) (ev : Memory.Event) (st st' : Memory.State) :
  Memory.donationQueue st = Memory.donationQueue st' ->
  Memory.topSpenders st = Memory.topSpenders st' ->
  Memory.donationQueue (Memory.handle now ev st) =
    Memory.donationQueue (Memory.handle now ev st') /\
  Memory.topSpenders (Memory.handle now ev st) =
    Memory.topSpenders (Memory.handle now ev st').
Proof.
  intros Hq Hm.
  destruct ev as [body donationId isoNow|confirmId| | |]; cbn [Memory.handle].
  - unfold Memory.saweria.
    destruct (Ingest.extract body) as [f|e]; cbn [fst]; [|auto].
    destruct (ToString (Ingest.f_username f)) as [key|e]; cbn [fst].
    + rewrite !updateTopSpenders_queue. cbn [Memory.set_queue Memory.donationQueue].
      rewrite Hq. split; [reflexivity|].
      unfold Memory.updateTopSpenders. cbn [Memory.set_queue Memory.topSpenders].
      rewrite Hm. destruct (Memory.topSpenders st' !! key); [reflexivity|].
      destruct (Memory.inherited key); reflexivity.
    + cbn [Memory.set_queue Memory.donationQueue Memory.topSpenders]. rewrite Hq. auto.
  - unfold Memory.robloxCheck. destruct (truthy confirmId); cbn [fst]; [|auto].
    cbn [Memory.set_queue Memory.donationQueue Memory.topSpenders]. rewrite Hq. auto.
  - cbn [Memory.cleanupOldDonations Memory.set_queue Memory.donationQueue
         Memory.topSpenders]. rewrite Hq. auto.
  - auto.
  - auto.
Qed.

(** After [/clear] the in-memory server goes on as after a restart: the
    same events lead to the same queue and the same leaderboard as they
    do from the start-up state, whatever had been handled before. *)
Theorem memory_clear_is_a_restart (st : Memory.State) (trace : list (Z * Memory.Event)) :
  Memory.donationQueue (Memory.run_from (Memory.clear st) trace) =
    Memory.donationQueue (Memory.run trace) /\
  Memory.topSpenders (Memory.run_from (Memory.clear st) trace) =
    Memory.topSpenders (Memory.run trace).
Proof.
  unfold Memory.run.
  assert (Hgen : forall s s',
             Memory.donationQueue s = Memory.donationQueue s' ->
             Memory.topSpenders s = Memory.topSpenders s' ->
             Memory.donationQueue (Memory.run_from s trace) =
               Memory.donationQueue (Memory.run_from s' trace) /\
             Memory.topSpenders (Memory.run_from s trace) =
               Memory.topSpenders (Memory.run_from s' trace)).
  { induction trace as [|[now ev] trace IH]; intros s s' Hq Hm; [auto|].
    cbn [Memory.run_from fold_left fst snd].
    destruct (same_store_handle now ev s s' Hq Hm) as [Hq' Hm']. apply IH; assumption. }
  apply Hgen; reflexivity.
Qed.

Lemma lastn_short {A : Type} (n : nat) (l : list A) :
  (length l <= n)%nat -> Memory.lastn n l = l.
Proof.
  intros Hl. unfold Memory.lastn. replace (length l - n)%nat with 0%nat by lia. reflexivity.
Qed.

Lemma lastn_app_lastn {A : Type} (n : nat) (l m : list A) :
  Memory.lastn n (Memory.lastn n l ++ m) = Memory.lastn n (l ++ m).
Proof.
  destruct (Nat.le_gt_cases (length l) n) as [Hle|Hgt].
  - rewrite (lastn_short n l Hle). reflexivity.
  - unfold Memory.lastn. rewrite !length_app, length_drop.
    replace (length l - (length l - n) + length m - n)%nat with (length m) by lia.
    replace (length l + length m - n)%nat with ((length l - n) + length m)%nat by lia.
    rewrite <- drop_drop.
    rewrite (drop_app_le l m (length l - n)) by lia. reflexivity.
Qed.

Lemma enqueue_lastn (d : Memory.Donation) (q : list Memory.Donation) :
  (length q <= Memory.MAX_QUEUE_SIZE)%nat ->
  Memory.enqueue d q = Memory.lastn Memory.MAX_QUEUE_SIZE (q ++ [d]).
Proof.
  intros Hq. unfold Memory.enqueue, Memory.lastn. rewrite length_app. cbn [length].
  unfold Memory.MAX_QUEUE_SIZE in *.
  destruct (Nat.ltb_spec 20 (length q + 1)) as [Hlt|Hge].
  - replace (length q + 1 - 20)%nat with 1%nat by lia.
    destruct q; reflexivity.
  - replace (length q + 1 - 20)%nat with 0%nat by lia. reflexivity.
Qed.

Lemma ingests_queue (posts : list Post) :
  forall st : Memory.State,
    (length (Memory.donationQueue st) <= Memory.MAX_QUEUE_SIZE)%nat ->
    Memory.donationQueue (Memory.ingests posts st) =
    Memory.lastn Memory.MAX_QUEUE_SIZE
                 (Memory.donationQueue st ++ omap Memory.donationOf posts).
Proof.
  induction posts as [|p posts IH]; intros st Hst.
  - cbn [Memory.ingests fold_left omap list_omap]. rewrite app_nil_r.
    symmetry. apply lastn_short, Hst.
  - unfold Memory.ingests in *. cbn [fold_left omap list_omap].
    pose proof (handle_length (p_now p) (Memory.PostSaweria (p_body p) (p_id p) (p_iso p))
                  st Hst) as Hlen.
    cbn [Memory.handle] in Hlen. rewrite (IH _ Hlen).
    unfold Memory.donationOf at 2.
    destruct (Ingest.extract (p_body p)) as [f|e] eqn:He.
    + rewrite (memory_saweria_queue _ _ _ _ _ _ He), (enqueue_lastn _ _ Hst).
      rewrite lastn_app_lastn, <- app_assoc. reflexivity.
    + rewrite (memory_saweria_extract_throws _ _ _ _ _ _ He). reflexivity.
Qed.

(** The in-memory queue is the tail of the arrivals: after any sequence
    of ingests into a queue of at most 20, it holds the last 20 of the
    old queue followed by the donations of the requests whose bodies
    extract, in the order of the requests. *)
Theorem memory_queue_is_last_twenty (posts : list Post) (st : Memory.State) :
  (length (Memory.donationQueue st) <= 20)%nat ->
  Memory.donationQueue (Memory.ingests posts st) =
  Memory.lastn 20 (Memory.donationQueue st ++ omap Memory.donationOf posts).
Proof. exact (ingests_queue posts st). Qed.

Lemma memory_queue_is_last_twenty_witness :
  List.map Memory.id (Memory.donationQueue (Memory.ingests Sample.three_of_budi Memory.initial))
  = ["1-a"; "2-b"; "3-c"].
Proof.
  rewrite (memory_queue_is_last_twenty Sample.three_of_budi Memory.initial);
    [reflexivity | cbn; lia].
Defined.

(* ===================================================================== *)
(** ** What a refused ingest leaves behind                                 *)
(* ===================================================================== *)

(** An ingest that is answered with an error has not touched the
    leaderboard, in either server, and has added at most its own donation
    to the queue. One that is answered with success has added that
    donation and nothing else to the durable table. *)
Theorem refused_ingest_keeps_leaderboard :
  (forall (body : JsValue) (donationId isoNow : string) (now : Z) (st : Memory.State),
      is_error (snd (Memory.saweria body donationId isoNow now st)) = true ->
      Memory.topSpenders (fst (Memory.saweria body donationId isoNow now st))
        = Memory.topSpenders st /\
      (Memory.donationQueue (fst (Memory.saweria body donationId isoNow now st))
         = Memory.donationQueue st \/
       exists f, Ingest.extract body = Ok f /\
         Memory.donationQueue (fst (Memory.saweria body donationId isoNow now st)) =
         Memory.enqueue (Memory.makeDonation f donationId isoNow now)
                        (Memory.donationQueue st))) /\
  (forall (body : JsValue) (donationId isoNow : string) (now : Z) (db : Durable.Db),
      let res := Durable.saweria body donationId isoNow now db in
      (is_error (snd res) = true ->
       Durable.top_spenders (fst res) = Durable.top_spenders db) /\
      (Durable.donations (fst res) = Durable.donations db \/
       exists row, Durable.donations (fst res) = Durable.donations db ++ [row] /\
                   Durable.id row = donationId /\ Durable.delivered row = false) /\
      (is_error (snd res) = false ->
       exists row, Durable.donations (fst res) = Durable.donations db ++ [row])).
Proof.
  split.
  - intros body donationId isoNow now st. unfold Memory.saweria.
    destruct (Ingest.extract body) as [f|e] eqn:He; cbn [fst snd is_error]; [|auto].
    destruct (ToString (Ingest.f_username f)) as [key|e]; cbn [fst snd is_error];
      [discriminate|].
    intros _. split; [reflexivity|]. right. exists f. auto.
  - intros body donationId isoNow now db. cbn zeta.
    destruct (Durable.saweria body donationId isoNow now db) as [db' r] eqn:Hrun.
    cbn [fst snd].
    apply durable_saweria_inv in Hrun
      as [[-> ->]|[(row & -> & Hid & Hdel & ->)|(f & x & z & row & _ & _ & _ & _ & -> & Hrow)]];
      cbn [is_error Durable.donations Durable.top_spenders].
    + split; [reflexivity|]. split; [left; reflexivity | discriminate].
    + split; [reflexivity|]. split; [right; eauto | discriminate].
    + destruct Hrow as (Hid & _ & _ & _ & _ & Hdel & ->). split; [discriminate|].
      split; [right; eauto | eauto].
Qed.

Lemma refused_ingest_keeps_leaderboard_witness :
  Memory.topSpenders (fst (Memory.saweria JNull "1-a" "t" 1 Memory.initial))
    = Memory.topSpenders Memory.initial.
Proof.
  exact (proj1 (proj1 refused_ingest_keeps_leaderboard JNull "1-a" "t" 1 Memory.initial
                  eq_refl)).
Defined.

(* ===================================================================== *)
(** ** The rows of the durable leaderboard                                 *)
(* ===================================================================== *)

Lemma upsert_keyed (x : Durable.SqlValue) (a : Durable.SqlNumber)
    (rows rows' : list Durable.SpenderRow) :
  Durable.is_null x = false ->
  Durable.upsert x x a rows = Ok rows' ->
  Durable.keyed rows -> Durable.keyed rows'.
Proof.
  intros Hx Hup [Hrows Hnd]. unfold Durable.keyed.
  assert (Hkeys : List.map Durable.s_username rows' = List.map Durable.s_username rows \/
                  (List.map Durable.s_username rows' =
                   List.map Durable.s_username rows ++ [x] /\
                   ~ In x (List.map Durable.s_username rows))).
  { clear Hrows Hnd. revert rows' Hup.
    induction rows as [|row rows IH]; intros rows' Hup; cbn [Durable.upsert] in Hup.
    - injection Hup as <-. right. split; [reflexivity | intros []].
    - destruct (Durable.sql_eqb (Durable.s_username row) x) eqn:Hm.
      + destruct (Durable.sql_add _ a); [|discriminate Hup].
        injection Hup as <-. left. reflexivity.
      + destruct (Durable.upsert x x a rows) as [rest|e]; cbn [bind] in Hup;
          [|discriminate Hup].
        injection Hup as <-. cbn [List.map].
        destruct (IH rest eq_refl) as [->|[-> Hnot]]; [left; reflexivity|].
        right. split; [reflexivity|]. intros [Heq|Hin]; [|exact (Hnot Hin)].
        rewrite Heq, (sql_eqb_refl x Hx) in Hm. discriminate Hm. }
  split.
  - clear Hkeys Hnd. revert rows' Hup.
    induction Hrows as [|row rows Hrow Hrest IH]; intros rows' Hup;
      cbn [Durable.upsert] in Hup.
    + injection Hup as <-. repeat constructor. exact Hx.
    + destruct (Durable.sql_eqb (Durable.s_username row) x) eqn:Hm.
      * destruct (Durable.sql_add _ a); [|discriminate Hup].
        injection Hup as <-.
        constructor; [|exact Hrest]. cbn. apply sql_eqb_eq in Hm. rewrite Hm. auto.
      * destruct (Durable.upsert x x a rows) as [rest|e]; cbn [bind] in Hup;
          [|discriminate Hup].
        injection Hup as <-. constructor; [exact Hrow | exact (IH rest eq_refl)].
  - destruct Hkeys as [->|[-> Hnot]]; [exact Hnd|].
    apply List.NoDup_app; [exact Hnd | repeat constructor; intros [] |].
    intros y Hy [<-|[]]. exact (Hnot Hy).
Qed.

Lemma keyed_handle (now : Z) (ev : Durable.Event) (db : Durable.Db) :
  Durable.keyed (Durable.top_spenders db) ->
  Durable.keyed (Durable.top_spenders (Durable.handle now ev db)).
Proof.
  intros Hdb. destruct ev as [body donationId isoNow|confirmId| | |]; cbn [Durable.handle].
  - destruct (Durable.saweria body donationId isoNow now db) as [db' r] eqn:Hrun.
    cbn [fst].
    apply durable_saweria_inv in Hrun
      as [[-> _]|[(row & -> & _)|(f & x & rows & row & _ & _ & Hx & Hup & -> & _)]];
      cbn [Durable.top_spenders]; [exact Hdb | exact Hdb |].
    exact (upsert_keyed _ _ _ _ Hx Hup Hdb).
  - rewrite durable_robloxCheck_top_spenders. exact Hdb.
  - exact Hdb.
  - split; constructor.
  - exact Hdb.
Qed.

(** In every state the durable server reaches, the leaderboard has one row
    per username, and each row's username is not NULL and is also its
    display name. *)
Theorem durable_leaderboard_is_keyed (trace : list (Z * Durable.Event)) :
  Durable.keyed (Durable.top_spenders (Durable.run trace)).
Proof.
  unfold Durable.run.
  assert (Hgen : forall db, Durable.keyed (Durable.top_spenders db) ->
                            Durable.keyed (Durable.top_spenders (Durable.run_from db trace))).
  { induction trace as [|[now ev] trace IH]; intros db Hdb; [exact Hdb|].
    cbn [Durable.run_from fold_left fst snd]. apply IH, keyed_handle, Hdb. }
  apply Hgen. split; constructor.
Qed.

(* ===================================================================== *)
(** ** Leading white space                                                 *)
(* ===================================================================== *)

(** [parseInt] skips leading white space: a text parses to the same number
    with any run of blanks, tabs or line breaks put in front of it. *)
Theorem parseInt_skips_leading_space (blanks : list ascii) (s : string) :
  forallb isWhiteSpace blanks = true ->
  parseIntString (fold_right String s blanks) = parseIntString s.
Proof.
  intros Hblanks. unfold parseIntString.
  assert (Htrim : trimStart (fold_right String s blanks) = trimStart s).
  { induction blanks as [|c blanks IH]; [reflexivity|].
    cbn [forallb] in Hblanks. apply andb_true_iff in Hblanks as [Hc Hrest].
    cbn [fold_right trimStart]. rewrite Hc. exact (IH Hrest). }
  rewrite Htrim. reflexivity.
Qed.

Lemma parseInt_skips_leading_space_witness :
  parseIntString "  5000" = parseIntString "5000".
Proof.
  exact (parseInt_skips_leading_space [" "%char; " "%char] "5000" eq_refl).
Defined.

Lemma top_spenders_are_the_largest_witness :
  length (Durable.getTopSpenders_all (Durable.run (firstn 2 Sample.durable_trace)))
  = Nat.min 10 (length (Durable.top_spenders
                          (Durable.run (firstn 2 Sample.durable_trace)))) /\
  StronglySorted Durable.by_total_desc
    (Durable.getTopSpenders_all (Durable.run (firstn 2 Sample.durable_trace))).
Proof.
  pose proof (top_spenders_are_the_largest
                (Durable.run (firstn 2 Sample.durable_trace))) as H.
  cbn zeta in H. split; [exact (proj1 H) | exact (proj1 (proj2 H))].
Defined.
